(** * Builder.py: the package-build orchestrator, embedded and verified

    The development follows [usr/local/lib/builder/Builder.py].

    - [Re]         the fragment of Python's [re] module that the three
                   patterns of the file need (leftmost match, greedy [+]
                   with backtracking, [$], [re.search], [re.sub]);
    - [Version]    the pure core of [incrementPackageVersion];
    - [Sys]        the collaborators of [py_base]: a process-wide state
                   with a filesystem, the process runner and the output
                   sink, and an exception monad over it;
    - [Builder]    the methods of class [Builder], one definition each;
    - [Logic]      a predicate for what a method does to the state and
                   what it may raise;
    - [Footprint]  the commands each method issues and the paths they
                   may change;
    - [Examples]   a small source tree and the states some runs end in.

    The facts follow in the same order, and then the properties of the
    build pipeline, numbered as in the specification.

    Python 2 [str] values are byte strings: [string] at the interfaces and
    [list ascii] inside the matcher. The process runner, the filesystem
    and the external tools are not part of the file: they are modelled
    from what the file expects of them and from the manuals of the tools;
    a command fails where the tool does, and where the field [broken] of
    the state says so, having done by then whatever the environment
    says within the paths the command can reach. *)

From stdpp Require Import base option list strings sorting.
From Stdlib Require Import Ascii NArith DecimalString DecimalN.

Local Open Scope N_scope.
Local Open Scope nat_scope.

(** ** Characters and byte strings *)

Abbreviation chars := String.list_ascii_of_string.
Abbreviation text := String.string_of_list_ascii.

Definition newline : string := String "010" EmptyString.

(** [\d] on a byte string: the ten ASCII digits. *)
Definition is_digit (c : ascii) : bool :=
  match Ascii.is_nat c with Some _ => true | None => false end.

(** [[\d\.]] *)
Definition is_digit_or_dot (c : ascii) : bool :=
  is_digit c || Ascii.eqb c ".".

(** [.] without DOTALL: anything but a line feed. *)
Definition is_dot (c : ascii) : bool := negb (Ascii.eqb c "010").

(** [int(s)] for a decimal byte string; [None] is Python's [ValueError]. *)
Definition int (s : list ascii) : option N :=
  N.of_uint <$> NilZero.uint_of_string (text s).

(** [n.__str__()] *)
Definition str (n : N) : list ascii :=
  chars (NilZero.string_of_uint (N.to_uint n)).

(** ** The regular expressions of the file *)

Module Re.

(** A pattern is a sequence of atoms. A literal character is the class of
    that one character. *)
Inductive atom :=
| Chr (cls : ascii → bool)        (* one character of the class *)
| Plus (cls : ascii → bool)       (* [cls+], greedy *)
| Dollar.                         (* [$] *)

Definition lit (s : string) : list atom :=
  (λ c, Chr (Ascii.eqb c)) <$> chars s.

(** Length of the longest prefix of [s] inside [cls]. *)
Fixpoint span (cls : ascii → bool) (s : list ascii) : nat :=
  match s with
  | c :: s' => if cls c then S (span cls s') else 0
  | [] => 0
  end.

(** Greedy choice with backtracking: the first of [k], [k-1], ..., [1]
    on which the rest of the pattern succeeds. *)
Fixpoint backtrack {A} (f : nat → option A) (k : nat) : option A :=
  match k with
  | 0 => None
  | S k' => match f k with Some r => Some r | None => backtrack f k' end
  end.

(** Match [p] at the start of [s]: the text consumed by each atom and
    the input left. *)
Fixpoint match_here (p : list atom) (s : list ascii)
  : option (list (list ascii) * list ascii) :=
  match p with
  | [] => Some ([], s)
  | Chr cls :: p' =>
      match s with
      | c :: s' =>
          if cls c
          then '(ts, r) ← match_here p' s'; Some ([c] :: ts, r)
          else None
      | [] => None
      end
  | Plus cls :: p' =>
      backtrack
        (λ k, '(ts, r) ← match_here p' (drop k s); Some (take k s :: ts, r))
        (span cls s)
  | Dollar :: p' =>
      (* end of the string, or just before a line feed that ends it *)
      match s with
      | [] | ["010"%char] => '(ts, r) ← match_here p' s; Some ([] :: ts, r)
      | _ => None
      end
  end.

(** Number of characters a match at the start of [s] consumes. *)
Definition match_len (p : list atom) (s : list ascii) : option nat :=
  '(ts, _) ← match_here p s; Some (length (concat ts)).

(** [re.search]: the match at the leftmost position that has one. *)
Fixpoint search (p : list atom) (s : list ascii)
  : option (list (list ascii) * list ascii) :=
  match s with
  | [] => match_here p []
  | _ :: s' =>
      match match_here p s with
      | Some r => Some r
      | None => search p s'
      end
  end.

(** The texts of the capture groups, for a pattern written as the
    sequence of its groups. *)
Fixpoint regroup (sizes : list nat) (ts : list (list ascii))
  : list (list ascii) :=
  match sizes with
  | [] => []
  | n :: sizes' => concat (take n ts) :: regroup sizes' (drop n ts)
  end.

Definition search_groups (gs : list (list atom)) (s : list ascii)
  : option (list (list ascii)) :=
  '(ts, _) ← search (concat gs) s; Some (regroup (length <$> gs) ts).

(** [re.sub] with a replacement free of backslashes: scans left to
    right, replaces every non-overlapping match. [skip] counts the
    characters of the current match still to be dropped. *)
Fixpoint sub_go (p : list atom) (repl : list ascii) (skip : nat)
  (s : list ascii) : list ascii :=
  match s with
  | [] =>
      match skip, match_len p [] with
      | 0, Some _ => repl
      | _, _ => []
      end
  | c :: s' =>
      match skip with
      | S k => sub_go p repl k s'
      | 0 =>
          match match_len p s with
          | Some (S k) => repl ++ sub_go p repl k s'
          | Some 0 => repl ++ c :: sub_go p repl 0 s'
          | None => c :: sub_go p repl 0 s'
          end
      end
  end.

Definition sub (p : list atom) (repl : list ascii) (s : list ascii)
  : list ascii :=
  sub_go p repl 0 s.

(** [within cls a]: every character of [a] is in [cls];
    [stops cls b]: [b] does not go on with a character of [cls]. *)
Definition within (cls : ascii → bool) (a : list ascii) : Prop :=
  Forall (λ c, cls c = true) a.

Definition stops (cls : ascii → bool) (b : list ascii) : Prop :=
  ∀ c, head b = Some c → cls c = false.

(** The positions of [s], counted from [i], at which [p] matches. *)
Fixpoint positions_from (p : list atom) (i : nat) (s : list ascii)
  : list nat :=
  (match match_len p s with Some _ => [i] | None => [] end)
    ++ match s with
       | [] => []
       | _ :: s' => positions_from p (S i) s'
       end.

Definition positions (p : list atom) (s : list ascii) : list nat :=
  positions_from p 0 s.

End Re.

(** ** The version stamp *)

Module Version.

Definition label : list ascii := chars "Version: ".

(** ['(Version: )([\d\.]+\.)(\d+)'] *)
Definition versionPattern : list (list Re.atom) :=
  [ Re.lit "Version: ";
    [Re.Plus is_digit_or_dot; Re.Chr (Ascii.eqb ".")];
    [Re.Plus is_digit] ].

(** ['Version: [\d\.]+'] *)
Definition versionTextPattern : list Re.atom :=
  Re.lit "Version: " ++ [Re.Plus is_digit_or_dot].

Inductive bump_error := NoMatch | BadNumber.

(** Lines 106-113 of [incrementPackageVersion]: the current version, the
    next version and the rewritten content. [NoMatch] is the
    [AttributeError] of [currentVersionMatch.group] on [None]. *)
Definition bump (controlFileContent : list ascii)
  : bump_error + (list ascii * list ascii * list ascii) :=
  match Re.search_groups versionPattern controlFileContent with
  | Some [g1; g2; g3] =>
      let currentVersion := g2 ++ g3 in
      match int g3 with
      | Some n =>
          let nextMinorVersionNumber := (n + 1)%N in
          let nextVersion := g2 ++ str nextMinorVersionNumber in
          let nextVersionText := g1 ++ nextVersion in
          inr (currentVersion, nextVersion,
               Re.sub versionTextPattern nextVersionText controlFileContent)
      | None => inl BadNumber
      end
  | _ => inl NoMatch
  end.

(** [each_rewritten repl s s']: [s'] is [s] with every occurrence of the
    label and the whole run of digits and dots after it, taken from left
    to right, replaced by [repl], and every other character kept. *)
Inductive each_rewritten (repl : list ascii)
  : list ascii → list ascii → Prop :=
| rewritten_end : each_rewritten repl [] []
| rewritten_kept c s s' :
    (∀ d t, c :: s = label ++ d :: t → is_digit_or_dot d = false) →
    each_rewritten repl s s' →
    each_rewritten repl (c :: s) (c :: s')
| rewritten_occurrence run post s' :
    run ≠ [] → Re.within is_digit_or_dot run →
    Re.stops is_digit_or_dot post →
    each_rewritten repl post s' →
    each_rewritten repl (label ++ run ++ post) (repl ++ s').

End Version.

(** ** The collaborators: filesystem, process runner, output sink *)

Module Sys.

(** Paths are sequences of names, from the root. [components] splits a
    path string at ['/'] and drops empty names and ["."], so that a
    trailing or doubled slash does not matter; [walk] follows the names
    from a directory, a [".."] going to the parent and staying at the
    root, as the kernel resolves it when the directories on the way are
    there. The process runs at the root, so that a relative path and the
    absolute one of the same names are one path. *)
Definition flush (cur : list ascii) : list string :=
  match cur with
  | [] => []
  | [c] => if Ascii.eqb c "." then [] else [text cur]
  | _ => [text cur]
  end.

Fixpoint components (cur s : list ascii) : list string :=
  match s with
  | [] => flush cur
  | c :: s' =>
      if Ascii.eqb c "/"
      then flush cur ++ components [] s'
      else components (cur ++ [c]) s'
  end.

Definition step_name (at_ : list string) (name : string) : list string :=
  if String.eqb name ".." then removelast at_ else at_ ++ [name].

Definition walk (start names : list string) : list string :=
  foldl step_name start names.

Definition path_of (p : string) : list string :=
  walk [] (components [] (chars p)).

Definition is_absolute (p : string) : bool :=
  match p with
  | String c _ => Ascii.eqb c "/"
  | EmptyString => false
  end.

(** The path [p] as a command run in the directory [cwd] sees it. *)
Definition resolve (cwd : option string) (p : string) : list string :=
  match cwd with
  | Some dir =>
      if is_absolute p then path_of p
      else walk (path_of dir) (components [] (chars p))
  | None => path_of p
  end.

(** A regular file with its bytes, or a directory, each with its
    modification time. The time of a directory is the one it was given
    ([rsync -a] gives the source's): what the kernel does to it when an
    entry comes or goes is not followed, the one query of the file being
    for regular files. *)
Inductive node :=
| File (content : string) (mtime : N)
| Dir (mtime : N).

Definition mtime_of (n : node) : N :=
  match n with File _ t => t | Dir t => t end.

Definition is_file (n : node) : bool :=
  match n with File _ _ => true | Dir _ => false end.

(** The external commands the file runs, each with its argument vector
    as the source writes it. *)
Inductive command :=
| FindNewer (dir ref : string)
| Rsync (src dst : string)
| FindRemove (dir name : string)
| RmF (path : string)
| DpkgDeb (dir deb : string)
| RmRf (path : string)
| ScanPackages
| Gzip (path : string).

Definition argv (c : command) : list string :=
  match c with
  | FindNewer dir ref => ["find"; dir; "-type"; "f"; "-newer"; ref]
  | Rsync src dst => ["rsync"; "-a"; src; dst]
  | FindRemove dir name =>
      ["find"; dir; "-ignore_readdir_race"; "-name"; name;
       "-exec"; "rm"; "-rf"; "{}"; ";"]
  | RmF path => ["rm"; "-f"; path]
  | DpkgDeb dir deb => ["dpkg-deb"; "--build"; dir; deb]
  | RmRf path => ["rm"; "-rf"; path]
  | ScanPackages => ["dpkg-scanpackages"; "./"; "/dev/null"]
  | Gzip path => ["gzip"; "--best"; "--force"; path]
  end.

(** The filesystem is a list of entries, path and node; the first entry
    of a path is the current one. *)
Fixpoint path_eqb (k k' : list string) : bool :=
  match k, k' with
  | [], [] => true
  | a :: k, b :: k' => String.eqb a b && path_eqb k k'
  | _, _ => false
  end.

Fixpoint lookup_file (k : list string) (f : list (list string * node))
  : option node :=
  match f with
  | [] => None
  | (k', n) :: f' => if path_eqb k k' then Some n else lookup_file k f'
  end.

Global Instance files_lookup
  : Lookup (list string) node (list (list string * node)) := lookup_file.

(** Entries whose path satisfies [keep]. *)
Definition keep_paths (keep : list string → bool)
  (f : list (list string * node)) : list (list string * node) :=
  List.filter (λ kn, keep kn.1) f.

Definition insert_file (k : list string) (n : node)
  (f : list (list string * node)) : list (list string * node) :=
  (k, n) :: keep_paths (λ k', negb (path_eqb k k')) f.

Definition delete_file (k : list string) (f : list (list string * node))
  : list (list string * node) :=
  keep_paths (λ k', negb (path_eqb k k')) f.

(** The current entries: each path once, with its first node. *)
Fixpoint entries_from (seen : list (list string))
  (f : list (list string * node)) : list (list string * node) :=
  match f with
  | [] => []
  | (k, n) :: f' =>
      if existsb (path_eqb k) seen then entries_from seen f'
      else (k, n) :: entries_from (k :: seen) f'
  end.

Definition entries (f : list (list string * node))
  : list (list string * node) :=
  entries_from [] f.

Inductive event :=
| Ran (c : command) (cwd : option string)   (* system.runCommand *)
| Wrote (path content : string)             (* system.writeFile *)
| Put (line : string)                       (* out.put *)
| Indent (line : string)                    (* out.indent *)
| UnIndent.                                 (* out.unIndent *)

Inductive exn :=
| PackageProblemOkToContinue
| AttributeError
| ValueError
| OSError (path : string)
| CommandFailed (c : command).

(** What the process cannot know of its environment: the commands that
    fail for a reason of their own (a full disk, a tool of another
    version), and what such a command has done to the filesystem by the
    time it fails. *)
Record environment := Environment {
  fails :> command → bool;
  leaves : command → list (list string * node) → list (list string * node);
}.

(** The state of the process and of its environment. [packageList] is
    the class attribute [Builder.packageList]: one list per process.
    [broken] tells on which commands the process runner raises. *)
Record state := State {
  fs : list (list string * node);
  clock : N;
  packageList : list string;
  journal : list event;
  broken : environment;
}.

Definition set_fs
  (f : list (list string * node) → list (list string * node))
  (w : state) : state :=
  State (f (fs w)) (clock w) (packageList w) (journal w) (broken w).
Definition tick (w : state) : state :=
  State (fs w) (clock w + 1)%N (packageList w) (journal w) (broken w).
Definition record (e : event) (w : state) : state :=
  State (fs w) (clock w) (packageList w) (journal w ++ [e]) (broken w).
Definition push_package (p : string) (w : state) : state :=
  State (fs w) (clock w) (packageList w ++ [p]) (journal w) (broken w).

(** *** Computations that may raise *)

Inductive result (A : Type) :=
| Ok (a : A)
| Raise (e : exn).
Global Arguments Ok {A} a.
Global Arguments Raise {A} e.

Definition M (A : Type) : Type := state → result A * state.

Definition ret {A} (a : A) : M A := λ w, (Ok a, w).
Definition bind {A B} (k : A → M B) (m : M A) : M B :=
  λ w, match m w with
       | (Ok a, w') => k a w'
       | (Raise e, w') => (Raise e, w')
       end.
Global Instance M_ret : MRet M := @ret.
Global Instance M_bind : MBind M := @bind.
Definition raise {A} (e : exn) : M A := λ w, (Raise e, w).
Definition gets {A} (f : state → A) : M A := λ w, (Ok (f w), w).
Definition modify (f : state → state) : M unit := λ w, (Ok (), f w).

(** [try: m except PackageProblemOkToContinue: h] *)
Definition try_except (m : M unit) (h : M unit) : M unit :=
  λ w, match m w with
       | (Raise PackageProblemOkToContinue, w') => h w'
       | r => r
       end.

(** [for x in xs: body] *)
Fixpoint for_each {A} (xs : list A) (body : A → M unit) : M unit :=
  match xs with
  | [] => ret ()
  | x :: xs' => body x;; for_each xs' body
  end.

(** *** The output sink *)

Definition put (line : string) : M unit := modify (record (Put line)).
Definition indent (line : string) : M unit := modify (record (Indent line)).
Definition unIndent : M unit := modify (record UnIndent).

(** *** Filesystem queries and whole-file I/O *)

(** [strip root k]: the path of [k] relative to [root], when [k] is
    [root] or lies under it. *)
Fixpoint strip (root k : list string) : option (list string) :=
  match root, k with
  | [], _ => Some k
  | a :: root', b :: k' => if String.eqb a b then strip root' k' else None
  | _ :: _, [] => None
  end.

Definition lookup_path (p : string) (w : state) : option node :=
  fs w !! path_of p.

Definition exists_ (p : string) : M bool :=
  gets (λ w, match lookup_path p w with Some _ => true | None => false end).

Definition isdir (p : string) : M bool :=
  gets (λ w, match lookup_path p w with Some (Dir _) => true | _ => false end).

Definition child_of (dir k : list string) : option string :=
  match strip dir k with
  | Some [name] => Some name
  | _ => None
  end.

Definition listdir (p : string) : M (list string) :=
  λ w, match lookup_path p w with
       | Some (Dir _) =>
           (Ok (omap (child_of (path_of p)) (entries (fs w)).*1), w)
       | _ => (Raise (OSError p), w)
       end.

Definition readFile (p : string) : M string :=
  λ w, match lookup_path p w with
       | Some (File content _) => (Ok content, w)
       | _ => (Raise (OSError p), w)
       end.

Definition writeFile (p content : string) : M unit :=
  modify (λ w,
    tick (set_fs (insert_file (path_of p) (File content (clock w)))
            (record (Wrote p content) w))).

(** *** What the external tools do to the filesystem *)

Fixpoint join (sep : string) (l : list string) : string :=
  match l with
  | [] => EmptyString
  | [x] => x
  | x :: l' => x +:+ sep +:+ join sep l'
  end.

Definition ends_with_slash (p : string) : bool :=
  match last (chars p) with
  | Some c => Ascii.eqb c "/"
  | None => false
  end.

(** [find dir -type f -newer ref]: the regular files under [dir] modified
    after [ref] was. A start point that is itself a regular file is
    listed only when it is written without a trailing slash. *)
Definition newer_files (dir ref : string) (f : list (list string * node))
  : list string :=
  match f !! path_of ref with
  | None => []
  | Some r =>
      omap (λ kn : list string * node,
              match strip (path_of dir) kn.1 with
              | Some rel =>
                  if is_file kn.2 && (mtime_of r <? mtime_of kn.2)%N
                     && negb (path_eqb rel [] && ends_with_slash dir)
                  then Some (dir +:+ join "/" rel)
                  else None
              | None => None
              end)
           (entries f)
  end.

(** [k] is a directory with something in it. *)
Definition has_children (k : list string) (f : list (list string * node))
  : bool :=
  existsb (λ kn : list string * node,
             match strip k kn.1 with
             | Some (_ :: _) => true
             | _ => false
             end)
          (entries f).

(** [rsync -a src/ dst/], from the manual. The entries of the source
    tree, each at the same relative path under [dst]: *)
Definition sent (src dst : string) (f : list (list string * node))
  : list (list string * node) :=
  omap (λ kn : list string * node,
          match strip (path_of src) kn.1 with
          | Some rel => Some (path_of dst ++ rel, kn.2)
          | None => None
          end)
       (entries f).

(** the quick check: a regular file is not sent when the receiver has a
    regular file of the same size and modification time; *)
Definition up_to_date (f : list (list string * node))
  (dn : list string * node) : bool :=
  match dn.2, f !! dn.1 with
  | File c t, Some (File c' t') =>
      Nat.eqb (String.length c) (String.length c') && N.eqb t t'
  | _, _ => false
  end.

(** a regular file cannot take the place of a directory that is not
    empty (there is no [--force] and no [--delete]): that file is left
    out, the transfer goes on and [rsync] ends in an error; *)
Definition in_the_way (f : list (list string * node))
  (dn : list string * node) : bool :=
  match dn.2, f !! dn.1 with
  | File _ _, Some (Dir _) => has_children dn.1 f
  | _, _ => false
  end.

(** the source has to be a directory. *)
Definition rsync_ok (src dst : string) (f : list (list string * node))
  : bool :=
  match f !! path_of src with
  | Some (Dir _) => forallb (λ dn, negb (in_the_way f dn)) (sent src dst f)
  | _ => false
  end.

(** What is written keeps its attributes, and nothing is deleted at the
    destination. *)
Definition rsync (src dst : string) (f : list (list string * node))
  : list (list string * node) :=
  match f !! path_of src with
  | Some (Dir _) =>
      List.filter (λ dn, negb (in_the_way f dn) && negb (up_to_date f dn))
        (sent src dst f)
      ++ f
  | _ => f
  end.

(** Shell patterns of [find -name]: [*] is any run of characters, [?]
    any one character (no bracket expressions: the file has none). *)
Fixpoint glob (p s : list ascii) : bool :=
  match p with
  | [] => match s with [] => true | _ => false end
  | c :: p' =>
      if Ascii.eqb c "*" then
        (fix star (s : list ascii) : bool :=
           glob p' s || match s with [] => false | _ :: s' => star s' end) s
      else
        match s with
        | c' :: s' => (Ascii.eqb c "?" || Ascii.eqb c c') && glob p' s'
        | [] => false
        end
  end.

(** An entry goes when its own name, or the name of a directory on the
    way to it from the start point (the start point included), matches. *)
Definition name_matches (name : string) (root k : list string) : bool :=
  match strip root k with
  | Some rel =>
      existsb (λ x, glob (chars name) (chars x))
              (option_list (last root) ++ rel)
  | None => false
  end.

(** A relative path has a name that one of the patterns matches. *)
Definition excluded (names : list string) (rel : list string) : bool :=
  existsb (λ name, existsb (λ x, glob (chars name) (chars x)) rel) names.

(** [find dir -ignore_readdir_race -name name -exec rm -rf {} ;] *)
Definition find_remove (dir name : string) (f : list (list string * node))
  : list (list string * node) :=
  keep_paths (λ k, negb (name_matches name (path_of dir) k)) f.

(** [rm -f path]: a regular file goes, a directory stays (and [rm]
    ends in an error). *)
Definition rm_f (path : string) (f : list (list string * node))
  : list (list string * node) :=
  match f !! path_of path with
  | Some (File _ _) => delete_file (path_of path) f
  | _ => f
  end.

(** [rm -rf path] *)
Definition rm_rf (path : string) (f : list (list string * node))
  : list (list string * node) :=
  keep_paths (λ k, match strip (path_of path) k with
                   | Some _ => false
                   | None => true
                   end) f.

(** [dpkg-deb --build dir deb], at resolved paths: the directory has to
    hold [DEBIAN/control]. The bytes of the archive are not modelled:
    the archive is recorded by the control text it was built from. *)
Definition dpkg_deb_ok (dir : list string) (f : list (list string * node))
  : bool :=
  match f !! (dir ++ ["DEBIAN"; "control"]) with
  | Some (File _ _) => true
  | _ => false
  end.

Definition dpkg_deb (dir deb : list string) (now : N)
  (f : list (list string * node)) : list (list string * node) :=
  match f !! (dir ++ ["DEBIAN"; "control"]) with
  | Some (File control _) => insert_file deb (File control now) f
  | _ => f
  end.

(** [s] ends with [suffix]. *)
Fixpoint ends_with (suffix s : list ascii) : bool :=
  match s with
  | [] => match suffix with [] => true | _ => false end
  | _ :: s' =>
      (Nat.eqb (length s) (length suffix)
       && forallb (λ ab : ascii * ascii, Ascii.eqb ab.1 ab.2) (zip s suffix))
      || ends_with suffix s'
  end.

(** [dpkg-scanpackages ./ /dev/null] in [cwd]: one stanza for each
    archive directly in the directory. *)
Definition scan_packages (cwd : list string) (f : list (list string * node))
  : string :=
  join EmptyString
    (omap (λ kn : list string * node,
             match child_of cwd kn.1, kn.2 with
             | Some name, File c _ =>
                 if ends_with (chars ".deb") (chars name)
                 then Some (c +:+ "Filename: ./" +:+ name
                              +:+ newline +:+ newline)
                 else None
             | _, _ => None
             end)
          (entries f)).

(** [gzip --best --force path]: the compressed file replaces the
    original. The compressed bytes are not modelled. *)
Definition gzip (path : string) (now : N) (f : list (list string * node))
  : list (list string * node) :=
  match f !! path_of path with
  | Some (File c _) =>
      insert_file (path_of (path +:+ ".gz")) (File ("gzip: " +:+ c) now)
        (delete_file (path_of path) f)
  | _ => f
  end.

(** The commands of the per-package build, and the query of the
    staleness check. *)
Definition is_build_command (c : command) : bool :=
  match c with
  | Rsync _ _ | FindRemove _ _ | RmF _ | DpkgDeb _ _ | RmRf _ => true
  | _ => false
  end.

Definition is_query_command (c : command) : bool :=
  match c with FindNewer _ _ => true | _ => false end.

Definition is_index_command (c : command) : bool :=
  match c with ScanPackages | Gzip _ => true | _ => false end.

(** The event of an index scan. *)
Definition is_scan (e : event) : bool :=
  match e with Ran ScanPackages _ => true | _ => false end.

(** The event of a copy into the staging area. *)
Definition is_staging (e : event) : bool :=
  match e with Ran (Rsync _ _) _ => true | _ => false end.

(** The event of a packaging-tool invocation. *)
Definition is_packaging (e : event) : bool :=
  match e with Ran (DpkgDeb _ _) _ => true | _ => false end.

(** The event of a teardown of the staging area. *)
Definition is_teardown (e : event) : bool :=
  match e with Ran (RmRf _) _ => true | _ => false end.

Definition is_out (e : event) : bool :=
  match e with Put _ | Indent _ | UnIndent => true | _ => false end.

(** Captured output (newlines stripped at the end, except for the
    scan) and the filesystem afterwards. Only the two commands the
    source runs in a directory of their own depend on it. *)
Definition exec (c : command) (cwd : option string) (now : N)
  (f : list (list string * node)) : string * list (list string * node) :=
  match c with
  | FindNewer dir ref => (join newline (newer_files dir ref f), f)
  | Rsync src dst => (EmptyString, rsync src dst f)
  | FindRemove dir name => (EmptyString, find_remove dir name f)
  | RmF path => (EmptyString, rm_f path f)
  | DpkgDeb dir deb =>
      (EmptyString, dpkg_deb (resolve cwd dir) (resolve cwd deb) now f)
  | RmRf path => (EmptyString, rm_rf path f)
  | ScanPackages =>
      (scan_packages (from_option path_of [] cwd) f, f)
  | Gzip path => (EmptyString, gzip path now f)
  end.

(** Whether the command, run on [f], ends without an error of its
    own: [rsync] with its source and nothing in the way, [rm -f] on
    what is not a directory, [dpkg-deb] with a control file. Whether
    [find] reports the directories it has just removed depends on its
    version, and is left to the environment. *)
Definition succeeds (c : command) (cwd : option string)
  (f : list (list string * node)) : bool :=
  match c with
  | Rsync src dst => rsync_ok src dst f
  | RmF path =>
      match f !! path_of path with Some (Dir _) => false | _ => true end
  | DpkgDeb dir _ => dpkg_deb_ok (resolve cwd dir) f
  | _ => true
  end.

(** The paths within the reach of a command: a command changes no
    other, also when it fails. *)
Definition is_under (dir k : list string) : bool :=
  match strip dir k with Some _ => true | None => false end.

Definition reach (c : command) (cwd : option string) (k : list string)
  : bool :=
  match c with
  | FindNewer _ _ | ScanPackages => false
  | Rsync _ dst => is_under (path_of dst) k
  | FindRemove dir _ => is_under (path_of dir) k
  | RmF path => path_eqb k (path_of path)
  | DpkgDeb _ deb => path_eqb k (resolve cwd deb)
  | RmRf path => is_under (path_of path) k
  | Gzip path =>
      path_eqb k (path_of path) || path_eqb k (path_of (path +:+ ".gz"))
  end.

(** [f'] where [inside] holds, [f] elsewhere. *)
Definition confine (inside : list string → bool)
  (f' f : list (list string * node)) : list (list string * node) :=
  keep_paths inside f' ++ keep_paths (λ k, negb (inside k)) f.

(** [system.runCommand]: the invocation is journalled, and a command
    that fails raises. A command the environment breaks has done, within
    its reach, what the environment says; a command that fails by itself
    has done what the tool does before it reports the error. *)
Definition runCommand (c : command) (cwd : option string) : M string :=
  λ w,
    let w1 := record (Ran c cwd) w in
    if broken w c then
      (Raise (CommandFailed c),
       set_fs (confine (reach c cwd) (leaves (broken w) c (fs w))) w1)
    else
      let '(out, f) := exec c cwd (clock w) (fs w) in
      (if succeeds c cwd (fs w) then Ok out else Raise (CommandFailed c),
       tick (set_fs (λ _, f) w1)).

End Sys.

(** ** Class [Builder] *)

Module Builder.
Import Sys.

Record config := Config {
  codeSourceDir : string;
  debsDir : string;
}.

Record arguments := Arguments {
  all : bool;
  package : option string;
}.

(** Truth value of [self.arguments['package']]: [None] and the empty
    string are false. *)
Definition given (a : arguments) : option string :=
  match package a with
  | Some (String c s) => Some (String c s)
  | _ => None
  end.

Definition APT_PACKAGES_BASE_FILENAME : string := "Packages".
Definition WORKING_DIR_RELATIVE : string := ".workingDir".

Definition packageFilesToRemoveBeforeBuilding : list string :=
  [".svn"; ".cache"; ".project"; ".pydevproject"; "*.pyc"; ".DEBUG";
   ".git"; "README.md"].

Definition dq : string := String "034" EmptyString.

(** ['.deb$'] *)
Definition debSuffixPattern : list Re.atom :=
  Re.Chr is_dot :: Re.lit "deb" ++ [Re.Dollar].

(** [re.sub('.deb$', '', package)] *)
Definition stripDeb (package : string) : string :=
  text (Re.sub debSuffixPattern [] (chars package)).

Section Methods.
Variable cfg : config.

Definition getSourceDirFullPath (package : string) : string :=
  codeSourceDir cfg +:+ "/" +:+ package +:+ "/".

Definition getControlFilePath (package : string) : string :=
  getSourceDirFullPath package +:+ "DEBIAN/control".

Definition getWorkingDirFullPath : string :=
  debsDir cfg +:+ "/" +:+ WORKING_DIR_RELATIVE +:+ "/".

Definition getDebFileFullPath (package : string) : string :=
  debsDir cfg +:+ "/" +:+ package +:+ ".deb".

Definition getPackageInfoUncompressedFilename : string :=
  debsDir cfg +:+ "/" +:+ APT_PACKAGES_BASE_FILENAME.

Definition needToRebuildPackage (package : string) : M bool :=
  let debFile := getDebFileFullPath package in
  present ← exists_ debFile;
  if negb present then mret true
  else
    let packageDir := getSourceDirFullPath package in
    result ← runCommand (FindNewer packageDir debFile) None;
    mret (match result with EmptyString => false | _ => true end).

(** [addAllPackagesToList], with the staleness query it calls as a
    parameter ([self.needToRebuildPackage] is looked up on [self]). *)
Definition addAllPackagesToList_with (stale : string → M bool)
  (force : bool) : M unit :=
  packages ← listdir (codeSourceDir cfg);
  let packages := merge_sort String.le packages in
  for_each packages (λ package,
    go ← (if force then mret true else stale package);
    if go : bool then
      let fullPath := codeSourceDir cfg +:+ "/" +:+ package in
      let controlFilePath := getControlFilePath package in
      d ← isdir fullPath;
      ok ← (if d : bool then exists_ controlFilePath else mret false);
      if ok : bool then modify (push_package package) else mret ()
    else
      put ("skipping package " +:+ dq +:+ package +:+ dq
             +:+ " - .deb file already current")).

Definition addAllPackagesToList : bool → M unit :=
  addAllPackagesToList_with needToRebuildPackage.

Definition incrementPackageVersion (package : string) : M unit :=
  let path := getControlFilePath package in
  present ← exists_ path;
  if negb present then
    put ("ERROR: no control file found for " +:+ package);;
    raise PackageProblemOkToContinue
  else
    controlFileContent ← readFile path;
    match Version.bump (chars controlFileContent) with
    | inl Version.NoMatch => raise AttributeError
    | inl Version.BadNumber => raise ValueError
    | inr (currentVersion, nextVersion, contentWithNextMinorVersion) =>
        put ("incremented package version from " +:+ text currentVersion
               +:+ " to " +:+ text nextVersion);;
        writeFile path (text contentWithNextMinorVersion)
    end.

Definition createWorkingDir (package : string) : M unit :=
  put "creating working dir";;
  let workingDirFullPath := getWorkingDirFullPath in
  runCommand (Rsync (getSourceDirFullPath package) workingDirFullPath)
    None;;
  for_each packageFilesToRemoveBeforeBuilding (λ name,
    runCommand (FindRemove workingDirFullPath name) None;; mret ()).

Definition buildDebFile (package : string) : M unit :=
  indent "building .deb file";;
  let debFileFullPath := getDebFileFullPath package in
  runCommand (RmF debFileFullPath) None;;
  runCommand (DpkgDeb getWorkingDirFullPath debFileFullPath)
    (Some (debsDir cfg));;
  unIndent.

Definition removeWorkingDir : M unit :=
  put "cleaning up working directory";;
  runCommand (RmRf getWorkingDirFullPath) None;;
  mret ().

Definition buildPackage (package : string) : M unit :=
  try_except
    (incrementPackageVersion package;;
     createWorkingDir package;;
     buildDebFile package;;
     removeWorkingDir)
    (put ("skipping package " +:+ dq +:+ package +:+ dq)).

(** The body of the loop of [buildPackages]. *)
Definition buildPackages_body (package : string) : M unit :=
  let package := stripDeb package in
  indent ("Building package " +:+ dq +:+ package +:+ dq);;
  buildPackage package;;
  unIndent;;
  put ("done with " +:+ dq +:+ package +:+ dq).

Definition buildPackages : M unit :=
  l ← gets packageList;
  for_each l buildPackages_body.

(** The per-package build for the name [q], between the two lines of
    output the loop puts around it. *)
Definition build_of (q : string) : M unit :=
  indent ("Building package " +:+ dq +:+ q +:+ dq);;
  buildPackage q;;
  unIndent;;
  put ("done with " +:+ dq +:+ q +:+ dq).

Definition refreshAptRepository : M unit :=
  l ← gets packageList;
  if Nat.eqb (length l) 0 then
    put "Not rebuilding APT repository metadata (no packages updated)"
  else
    put "rebuilding APT repository metadata";;
    let packageInfoFilename := getPackageInfoUncompressedFilename in
    packageInfo ← runCommand ScanPackages (Some (debsDir cfg));
    writeFile packageInfoFilename packageInfo;;
    runCommand (Gzip packageInfoFilename) None;;
    mret ().

(** The [if]/[elif]/[else] at the head of [doRunSteps], again with the
    staleness query as a parameter. *)
Definition selectPackages_with (stale : string → M bool) (a : arguments)
  : M unit :=
  if all a then addAllPackagesToList_with stale true
  else match given a with
       | Some p => modify (push_package p)
       | None => addAllPackagesToList_with stale false
       end.

Definition doRunSteps_with (stale : string → M bool) (a : arguments)
  : M unit :=
  selectPackages_with stale a;;
  buildPackages;;
  refreshAptRepository.

Definition selectPackages : arguments → M unit :=
  selectPackages_with needToRebuildPackage.

Definition doRunSteps : arguments → M unit :=
  doRunSteps_with needToRebuildPackage.

End Methods.

End Builder.

(** ** What a computation does to the state, and what it may raise *)

Module Logic.
Import Sys.

(** [sat R E m]: every run of [m] takes the state along [R] and raises
    only exceptions in [E]. *)
Definition sat (R : relation state) {A} (E : exn → Prop) (m : M A) : Prop :=
  ∀ w r w', m w = (r, w') → R w w' ∧ ∀ e, r = Raise e → E e.

Definition not_skip (e : exn) : Prop := e ≠ PackageProblemOkToContinue.
Definition any_exn (e : exn) : Prop := True.

Definition anywhere (w w' : state) : Prop := True.
Definition same_list (w w' : state) : Prop := packageList w = packageList w'.
Definition grows (w w' : state) : Prop :=
  packageList w `prefix_of` packageList w'.
Definition same_fs (w w' : state) : Prop := fs w = fs w'.

(** The journal grows, by events [ok] holds of. *)
Definition logs (ok : event → bool) (w w' : state) : Prop :=
  ∃ evs, journal w' = journal w ++ evs ∧ Forall (λ e, ok e = true) evs.

End Logic.

(** ** The commands of each method, and the paths they may change *)

Module Footprint.
Import Sys Builder.

(** [k] is [dir] or lies under it. *)
Definition under (dir k : list string) : Prop := is_Some (strip dir k).

(** The paths a command may change. *)
Definition touches (c : command) (cwd : option string) (k : list string)
  : Prop :=
  reach c cwd k = true.

(** The filesystem is the same at every path that is not [touched]. *)
Definition outside (touched : list string → Prop) (w w' : state) : Prop :=
  ∀ k, ¬ touched k → fs w' !! k = fs w !! k.

(** The clock does not go back. *)
Definition later (w w' : state) : Prop := (clock w ≤ clock w')%N.

(** The environment stays as it is. *)
Definition same_broken (w w' : state) : Prop := broken w' = broken w.

(** The journal grows, by events of which [ok] holds. *)
Definition journals (ok : event → Prop) (w w' : state) : Prop :=
  ∃ evs, journal w' = journal w ++ evs ∧ Forall ok evs.

(** The exceptions that leave a run. *)
Definition escapes (e : exn) : Prop :=
  e = AttributeError ∨ (∃ p, e = OSError p) ∨ (∃ c, e = CommandFailed c).

Section Footprint.
Context (cfg : config).

(** The command of [needToRebuildPackage] for the package [p]. *)
Inductive queries (p : string) : command → option string → Prop :=
| queries_find :
    queries p
      (FindNewer (getSourceDirFullPath cfg p) (getDebFileFullPath cfg p))
      None.

(** The commands of [createWorkingDir], [buildDebFile] and
    [removeWorkingDir] for the package [p]. *)
Inductive builds (p : string) : command → option string → Prop :=
| builds_rsync :
    builds p
      (Rsync (getSourceDirFullPath cfg p) (getWorkingDirFullPath cfg)) None
| builds_clean name :
    name ∈ packageFilesToRemoveBeforeBuilding →
    builds p (FindRemove (getWorkingDirFullPath cfg) name) None
| builds_rm : builds p (RmF (getDebFileFullPath cfg p)) None
| builds_deb :
    builds p
      (DpkgDeb (getWorkingDirFullPath cfg) (getDebFileFullPath cfg p))
      (Some (debsDir cfg))
| builds_teardown : builds p (RmRf (getWorkingDirFullPath cfg)) None.

(** The commands of [refreshAptRepository]. *)
Inductive indexes : command → option string → Prop :=
| indexes_scan : indexes ScanPackages (Some (debsDir cfg))
| indexes_gzip : indexes (Gzip (getPackageInfoUncompressedFilename cfg)) None.

(** The archive of [p], where [rm -f] looks for it and where
    [dpkg-deb], run in the directory of the archives, writes it: one
    path when that directory is given as an absolute path. *)
Definition archive_path (p : string) (k : list string) : Prop :=
  k = path_of (getDebFileFullPath cfg p)
  ∨ k = resolve (Some (debsDir cfg)) (getDebFileFullPath cfg p).

(** What the steps after the version bump may change: the archive and
    the staging directory. *)
Definition packaging_touches (p : string) (k : list string) : Prop :=
  archive_path p k ∨ under (path_of (getWorkingDirFullPath cfg)) k.



(** An event of the build of [p] or of the refresh: a command or a
    write of theirs, or a line of output. *)
Definition run_event (p : string) (e : event) : Prop :=
  match e with
  | Ran c cwd => builds p c cwd ∨ indexes c cwd
  | Wrote path _ =>
      path = getControlFilePath cfg p
      ∨ path = getPackageInfoUncompressedFilename cfg
  | Put _ | Indent _ | UnIndent => True
  end.

(** The tests of the selection loop, on the state [w]:
    [isdir(fullPath) and exists(controlFilePath)], and
    [self.needToRebuildPackage(package)]. *)
Definition is_package (p : string) (w : state) : bool :=
  match (isdir (codeSourceDir cfg +:+ "/" +:+ p) w).1 with
  | Ok true =>
      match (exists_ (getControlFilePath cfg p) w).1 with
      | Ok true => true
      | _ => false
      end
  | _ => false
  end.

Definition is_stale (p : string) (w : state) : bool :=
  match (needToRebuildPackage cfg p w).1 with
  | Ok true => true
  | _ => false
  end.

(** One turn of the loop of [addAllPackagesToList]. *)
Definition selection_body (force : bool) (package : string) : M unit :=
  go ← (if force then mret true else needToRebuildPackage cfg package);
  if go : bool then
    let fullPath := codeSourceDir cfg +:+ "/" +:+ package in
    let controlFilePath := getControlFilePath cfg package in
    d ← isdir fullPath;
    ok ← (if d : bool then exists_ controlFilePath else mret false);
    if ok : bool then modify (push_package package) else mret ()
  else
    put ("skipping package " +:+ dq +:+ package +:+ dq
           +:+ " - .deb file already current").

End Footprint.

End Footprint.

(** ** A small source tree to run the methods on *)

Module Examples.
Import Sys Builder.

Definition cfg : config := Config "/src" "/debs".

(** A control file without a version line, and a good one. *)
Definition control_alpha : string :=
  "Package: alpha" +:+ newline +:+ "Depends: beta" +:+ newline.

Definition control_beta : string :=
  "Package: beta" +:+ newline +:+ "Version: 1.2.9" +:+ newline.

Definition control_mydeb : string :=
  "Package: mydeb" +:+ newline +:+ "Version: 0.1.0" +:+ newline.

(** Packages [alpha], [beta] and [mydeb]; an archive of [beta] older
    than its [main.py]; a staging directory left by an earlier run, with
    a [data.txt] of the size and date of the one [beta] has now. *)
Definition tree : list (list string * node) :=
  [ (["src"], Dir 1%N);
    (["src"; "alpha"], Dir 1%N);
    (["src"; "alpha"; "DEBIAN"], Dir 1%N);
    (["src"; "alpha"; "DEBIAN"; "control"], File control_alpha 2%N);
    (["src"; "beta"], Dir 1%N);
    (["src"; "beta"; "DEBIAN"], Dir 1%N);
    (["src"; "beta"; "DEBIAN"; "control"], File control_beta 2%N);
    (["src"; "beta"; "main.py"], File "print 1" 5%N);
    (["src"; "beta"; "main.pyc"], File "bytecode" 5%N);
    (["src"; "beta"; "data.txt"], File "new data" 4%N);
    (["src"; "mydeb"], Dir 1%N);
    (["src"; "mydeb"; "DEBIAN"], Dir 1%N);
    (["src"; "mydeb"; "DEBIAN"; "control"], File control_mydeb 2%N);
    (["src"; "gamma"], Dir 1%N);
    (["debs"], Dir 1%N);
    (["debs"; "beta.deb"], File control_beta 3%N);
    (["debs"; ".workingDir"], Dir 1%N);
    (["debs"; ".workingDir"; "old.txt"], File "left over" 1%N);
    (["debs"; ".workingDir"; "data.txt"], File "old data" 4%N) ].

Definition healthy (c : command) : bool := false.

(** An environment in which the packaging tool fails. *)
Definition no_packaging (c : command) : bool :=
  match c with DpkgDeb _ _ => true | _ => false end.

(** An environment whose failing commands fail before they do
    anything. *)
Definition at_once (broken : command → bool) : environment :=
  Environment broken (λ _ f, f).

(** A fresh process: the class attribute is the empty list. *)
Definition boot (broken : command → bool) : state :=
  State tree 10%N [] [] (at_once broken).

Definition final {A} (r : result A * state) : state := r.2.

(** The states some runs from [boot] end in. *)
Definition explicit (p : string) : arguments := Arguments false (Some p).

Definition after_run_beta : state :=
  Eval vm_compute in final (doRunSteps cfg (explicit "beta") (boot healthy)).

Definition after_run_gamma : state :=
  Eval vm_compute in final (doRunSteps cfg (explicit "gamma") (boot healthy)).

Definition after_run_mydeb : state :=
  Eval vm_compute in final (doRunSteps cfg (explicit "mydeb") (boot healthy)).

Definition after_run_beta_deb : state :=
  Eval vm_compute in
    final (doRunSteps cfg (explicit "beta.deb") (boot healthy)).

(** A second run in the process that ran for [beta]. *)
Definition after_rerun_gamma : state :=
  Eval vm_compute in final (doRunSteps cfg (explicit "gamma") after_run_beta).

Definition after_select_gamma : state :=
  Eval vm_compute in
    final (selectPackages cfg (explicit "gamma") (boot healthy)).

Definition after_select_beta : state :=
  Eval vm_compute in
    final (selectPackages cfg (explicit "beta") after_run_gamma).

Definition after_build_beta : state :=
  Eval vm_compute in final (buildPackage cfg "beta" (boot healthy)).

Definition after_failed_build_beta : state :=
  Eval vm_compute in final (buildPackage cfg "beta" (boot no_packaging)).


(** A process in an empty filesystem. *)
Definition bare : state := State [] 0%N [] [] (at_once healthy).

Definition build_all : arguments := Arguments true None.

Definition after_run_all : state :=
  Eval vm_compute in final (doRunSteps cfg build_all (boot healthy)).

Definition after_check_beta : state :=
  Eval vm_compute in final (needToRebuildPackage cfg "beta" (boot healthy)).

Definition after_default_selection : state :=
  Eval vm_compute in final (addAllPackagesToList cfg false (boot healthy)).

Definition after_refresh : state :=
  Eval vm_compute in
    final (refreshAptRepository cfg (push_package "beta" (boot healthy))).

End Examples.

(** * Facts about the matcher *)

Module ReFacts.
Import Re.

Lemma span_le cls s : span cls s ≤ length s.
Proof. induction s as [|c s IH]; simpl; [lia|]. destruct (cls c); simpl; lia. Qed.

Lemma span_take cls s : within cls (take (span cls s) s).
Proof.
  induction s as [|c s IH]; simpl; [constructor|].
  destruct (cls c) eqn:E; simpl; [|constructor].
  constructor; auto.
Qed.

Lemma span_drop cls s : stops cls (drop (span cls s) s).
Proof.
  induction s as [|c s IH]; simpl; [intros ? [=]|].
  destruct (cls c) eqn:E; simpl; [exact IH|].
  intros ? [= <-]. exact E.
Qed.

Lemma span_app cls a b :
  within cls a → stops cls b → span cls (a ++ b) = length a.
Proof.
  intros Ha Hb. induction Ha as [|c a Hc Ha IH]; simpl.
  - destruct b as [|c b]; simpl; [done|]. by rewrite (Hb c eq_refl).
  - by rewrite Hc, IH.
Qed.

Lemma backtrack_Some {A} (f : nat → option A) n r :
  backtrack f n = Some r →
  ∃ k, 0 < k ≤ n ∧ f k = Some r ∧ ∀ j, k < j ≤ n → f j = None.
Proof.
  induction n as [|n IH]; simpl; [done|].
  destruct (f (S n)) eqn:E.
  - intros [= ->]. exists (S n). split_and!; [lia..|done|intros; lia].
  - intros (k & Hk & Hf & Hj)%IH. exists k. split_and!; [lia..|done|].
    intros j Hj'. destruct (decide (j = S n)) as [->|]; [done|]. apply Hj. lia.
Qed.

Lemma backtrack_skip {A} (f : nat → option A) k n :
  k ≤ n → (∀ j, k < j ≤ n → f j = None) → backtrack f n = backtrack f k.
Proof.
  induction n as [|n IH]; intros Hk Hj.
  - by replace k with 0 by lia.
  - destruct (decide (k = S n)) as [->|]; [done|].
    simpl. rewrite Hj by lia. apply IH; [lia|]. intros; apply Hj; lia.
Qed.

(** A match consumes a prefix of the input. *)
Lemma match_here_app p s ts r :
  match_here p s = Some (ts, r) → s = concat ts ++ r.
Proof.
  revert s ts r. induction p as [|a p IH]; intros s ts r; simpl.
  - intros [= <- <-]. reflexivity.
  - destruct a as [cls|cls|].
    + destruct s as [|c s]; [done|]. destruct (cls c); [|done].
      destruct (match_here p s) as [[ts' r']|] eqn:E; simpl; [|done].
      intros [= <- <-]. simpl. f_equal. by apply IH.
    + intros (k & _ & Hf & _)%backtrack_Some.
      destruct (match_here p (drop k s)) as [[ts' r']|] eqn:E; simpl in Hf; [|done].
      injection Hf as <- <-. simpl. rewrite <-(app_assoc).
      rewrite <-(IH _ _ _ E). by rewrite take_drop.
    + assert (∀ s0, (match_here p s0 ≫= λ '(ts0, r0), Some ([] :: ts0, r0)) = Some (ts, r) → s0 = concat ts ++ r) as H.
      { intros s0. destruct (match_here p s0) as [[ts' r']|] eqn:E; simpl; [|done].
        intros [= <- <-]. simpl. by apply IH. }
      destruct s as [|c s]; [apply H|].
      destruct c as [[] [] [] [] [] [] [] []]; try done.
      destruct s; [apply H|done].
Qed.

Lemma match_len_le p s n : match_len p s = Some n → n ≤ length s.
Proof.
  unfold match_len. destruct (match_here p s) as [[ts r]|] eqn:E; simpl; [|done].
  intros [= <-]. apply match_here_app in E. subst s. rewrite length_app. lia.
Qed.

Lemma sub_go_drop p repl k s :
  k ≤ length s → sub_go p repl k s = sub_go p repl 0 (drop k s).
Proof.
  revert k. induction s as [|c s IH]; intros [|k] Hk; simpl in *; try done; try lia.
  apply IH. lia.
Qed.

(** [re.sub] resumes after a match. *)
Lemma sub_cons p repl c s :
  sub p repl (c :: s) =
    match match_len p (c :: s) with
    | Some (S k) => repl ++ sub p repl (drop k s)
    | Some 0 => repl ++ c :: sub p repl s
    | None => c :: sub p repl s
    end.
Proof.
  unfold sub. simpl. destruct (match_len p (c :: s)) as [[|k]|] eqn:E; try done.
  f_equal. apply sub_go_drop. apply match_len_le in E. simpl in E. lia.
Qed.

Lemma search_inv p s ts r :
  search p s = Some (ts, r) →
  ∃ pre, s = pre ++ concat ts ++ r ∧ match_here p (concat ts ++ r) = Some (ts, r).
Proof.
  induction s as [|c s IH]; simpl.
  - intros H. exists []. pose proof (match_here_app _ _ _ _ H) as E. simpl. by rewrite <-E.
  - destruct (match_here p (c :: s)) as [[ts' r']|] eqn:E.
    + intros [= -> ->]. exists []. pose proof (match_here_app _ _ _ _ E) as E'. simpl. by rewrite <-E'.
    + intros (pre & -> & H)%IH. by exists (c :: pre).
Qed.

Lemma match_here_lit_intro l p s' ts' r :
  match_here p s' = Some (ts', r) →
  match_here (((λ c, Chr (Ascii.eqb c)) <$> l) ++ p) (l ++ s')
  = Some (((λ c, [c]) <$> l) ++ ts', r).
Proof.
  intros H. unfold fmap. induction l as [|a l IH]; simpl; [done|].
  by rewrite Ascii.eqb_refl, IH.
Qed.

Lemma match_here_lit_inv l p s ts r :
  match_here (((λ c, Chr (Ascii.eqb c)) <$> l) ++ p) s = Some (ts, r) →
  ∃ s' ts', s = l ++ s' ∧ match_here p s' = Some (ts', r)
            ∧ ts = ((λ c, [c]) <$> l) ++ ts'.
Proof.
  unfold fmap. revert s ts. induction l as [|a l IH]; intros s ts; simpl.
  - intros H. by exists s, ts.
  - destruct s as [|c s]; [done|].
    destruct (Ascii.eqb_spec a c) as [->|Hne]; [|done].
    destruct (match_here _ s) as [[ts0 r0]|] eqn:E; simpl; [|done].
    intros [= <- <-]. apply IH in E as (s' & ts' & -> & H & ->).
    by exists s', ts'.
Qed.

End ReFacts.

(** * Facts about the version stamp *)

Module VersionFacts.
Import Re ReFacts Version.

Abbreviation L := label.

Lemma digit_dd c : is_digit c = true → is_digit_or_dot c = true.
Proof. unfold is_digit_or_dot. by intros ->. Qed.

Lemma dd_not_V c : is_digit_or_dot c = true → c ≠ "V"%char.
Proof. by intros H ->. Qed.

Lemma digit_not_dot c : is_digit c = true → Ascii.eqb "." c = false.
Proof. destruct c as [[] [] [] [] [] [] [] []]; done. Qed.

Lemma not_dd_not_dot c : is_digit_or_dot c = false → Ascii.eqb "." c = false.
Proof. destruct c as [[] [] [] [] [] [] [] []]; done. Qed.

Lemma stops_dd_digit b : stops is_digit_or_dot b → stops is_digit b.
Proof.
  intros H c Hc. specialize (H c Hc). unfold is_digit_or_dot in H.
  by apply orb_false_iff in H as [? _].
Qed.

Lemma within_digit_dd g : within is_digit g → within is_digit_or_dot g.
Proof. intros H. eapply Forall_impl; [exact H|]. apply digit_dd. Qed.

(** *** Decimal numerals *)

Lemma text_chars s : text (chars s) = s.
Proof. apply String.string_of_list_ascii_of_string. Qed.

Lemma chars_text l : chars (text l) = l.
Proof. apply String.list_ascii_of_string_of_list_ascii. Qed.

Lemma to_uint_nonnil n : N.to_uint n ≠ Decimal.Nil.
Proof.
  destruct n as [|p]; [done|]. apply DecimalPos.Unsigned.to_uint_nonnil.
Qed.

Lemma int_str n : int (str n) = Some n.
Proof.
  unfold int, str. rewrite text_chars, NilZero.usu by apply to_uint_nonnil.
  simpl. f_equal. apply DecimalN.Unsigned.of_to.
Qed.

Lemma uint_digits d : within is_digit (chars (NilEmpty.string_of_uint d)).
Proof. induction d; simpl; constructor; done. Qed.

Lemma str_digits n : within is_digit (str n).
Proof.
  unfold str, NilZero.string_of_uint.
  destruct (N.to_uint n) as [|u|u|u|u|u|u|u|u|u|u] eqn:E.
  { by apply to_uint_nonnil in E. }
  all: rewrite <-E; apply uint_digits.
Qed.

Lemma str_nonempty n : str n ≠ [].
Proof.
  intros H. pose proof (int_str n) as E. rewrite H in E. done.
Qed.

Lemma int_digits g : g ≠ [] → within is_digit g → is_Some (int g).
Proof.
  intros Hne Hg. unfold int.
  assert (is_Some (NilEmpty.uint_of_string (text g))) as [u Hu].
  { clear Hne. induction Hg as [|c g Hc Hg IH]; simpl; [done|].
    destruct IH as [u ->].
    destruct c as [[] [] [] [] [] [] [] []]; done. }
  unfold NilZero.uint_of_string. destruct g as [|c g]; [done|].
  simpl in *. rewrite Hu. done.
Qed.

Abbreviation sing := (λ c : ascii, [c]).

Lemma match_plus_last cls s :
  match_here [Plus cls] s =
    match span cls s with
    | 0 => None
    | S n => Some ([take (S n) s], drop (S n) s)
    end.
Proof. simpl. by destruct (span cls s). Qed.

Lemma within_span cls s : within cls s → span cls s = length s.
Proof.
  intros H. rewrite <-(app_nil_r s) at 1. apply span_app; [done|]. by intros ? [=].
Qed.

(** *** ['Version: [\d\.]+'] at a given position *)

Lemma text_match_inv s n :
  match_len versionTextPattern s = Some n →
  ∃ R b, s = L ++ R ++ b ∧ R ≠ [] ∧ within is_digit_or_dot R
         ∧ stops is_digit_or_dot b ∧ n = 9 + length R.
Proof.
  unfold match_len.
  destruct (match_here versionTextPattern s) as [[ts r]|] eqn:E; simpl; [|done].
  intros [= <-]. apply match_here_lit_inv in E as (s' & ts' & -> & E & ->).
  rewrite match_plus_last in E.
  destruct (span is_digit_or_dot s') as [|m] eqn:Hm; [done|].
  injection E as <- <-.
  exists (take (S m) s'), (drop (S m) s'). rewrite take_drop.
  split_and!; [done| | | |].
  - destruct s'; [done|]. done.
  - rewrite <-Hm. apply span_take.
  - rewrite <-Hm. apply span_drop.
  - rewrite concat_app, length_app. simpl. rewrite app_nil_r. done.
Qed.

Lemma text_match_intro d t :
  is_digit_or_dot d = true →
  is_Some (match_len versionTextPattern (L ++ d :: t)).
Proof.
  intros Hd. unfold match_len.
  assert (is_Some (match_here [Plus is_digit_or_dot] (d :: t))) as [[ts r] E].
  { rewrite match_plus_last. simpl. rewrite Hd. done. }
  unfold versionTextPattern, lit.
  erewrite match_here_lit_intro by exact E. done.
Qed.

(** *** ['(Version: )([\d\.]+\.)(\d+)'] at a given position *)

Lemma versionPattern_eq :
  concat versionPattern =
    ((λ c, Chr (Ascii.eqb c)) <$> L)
      ++ [Plus is_digit_or_dot; Chr (Ascii.eqb "."); Plus is_digit].
Proof. reflexivity. Qed.

Lemma version_match_inv s ts r :
  match_here (concat versionPattern) s = Some (ts, r) →
  ∃ X g3, s = L ++ X ++ "."%char :: g3 ++ r
          ∧ X ≠ [] ∧ within is_digit_or_dot X
          ∧ g3 ≠ [] ∧ within is_digit g3 ∧ stops is_digit r
          ∧ ts = (sing <$> L) ++ [X; ["."%char]; g3].
Proof.
  rewrite versionPattern_eq.
  intros (s' & ts' & -> & E & ->)%match_here_lit_inv.
  cbn [match_here] in E.
  apply backtrack_Some in E as (k & Hk & E & _).
  destruct (drop k s') as [|c s''] eqn:Hd; [done|].
  destruct (Ascii.eqb_spec "." c) as [<-|]; [|done].
  fold (match_here [Plus is_digit] s'') in E. rewrite match_plus_last in E.
  destruct (span is_digit s'') as [|m] eqn:Hm; [done|].
  simpl in E. injection E as <- <-.
  exists (take k s'), (take (S m) s''). rewrite take_drop.
  split_and!.
  - by rewrite <-Hd, take_drop.
  - destruct s', k; simpl in *; try done; lia.
  - pose proof (span_take is_digit_or_dot s') as H.
    apply (Forall_take _ k) in H. rewrite take_take in H.
    by replace (k `min` span is_digit_or_dot s') with k in H by lia.
  - destruct s''; done.
  - rewrite <-Hm. apply span_take.
  - rewrite <-Hm. apply span_drop.
  - done.
Qed.

Lemma chr_dot_None q t :
  (∀ c, head t = Some c → Ascii.eqb "." c = false) →
  match_here (Chr (Ascii.eqb ".") :: q) t = None.
Proof. destruct t as [|c t]; simpl; [done|]. intros H. by rewrite (H c). Qed.

Lemma version_match_intro X g3 r :
  X ≠ [] → within is_digit_or_dot X →
  g3 ≠ [] → within is_digit g3 → stops is_digit_or_dot r →
  match_here (concat versionPattern) (L ++ X ++ "."%char :: g3 ++ r)
  = Some ((sing <$> L) ++ [X; ["."%char]; g3], r).
Proof.
  intros HX HXdd Hg Hgd Hr. rewrite versionPattern_eq.
  apply match_here_lit_intro. cbn [match_here].
  assert (span is_digit_or_dot (X ++ "."%char :: g3 ++ r)
          = length X + S (length g3)) as ->.
  { replace (X ++ "."%char :: g3 ++ r) with ((X ++ "."%char :: g3) ++ r)
      by by rewrite <-app_assoc.
    rewrite span_app; [by rewrite length_app| |done].
    apply Forall_app. split; [done|]. constructor; [done|].
    by apply within_digit_dd. }
  rewrite (backtrack_skip _ (length X)); [|lia|].
  - destruct (length X) as [|m] eqn:HL; [by destruct X|].
    cbn [backtrack]. rewrite <-HL.
    rewrite drop_app_length, take_app_length.
    cbn [match_here]. rewrite Ascii.eqb_refl.
    fold (match_here [Plus is_digit] (g3 ++ r)). rewrite match_plus_last.
    rewrite span_app by (done || by apply stops_dd_digit).
    destruct (length g3) as [|m'] eqn:HL'; [by destruct g3|].
    rewrite <-HL'.
    by rewrite drop_app_length, take_app_length.
  - intros j Hj.
    rewrite drop_app_ge by lia.
    destruct (j - length X) as [|i] eqn:Hi; [lia|]. cbn [drop].
    fold (match_here [Chr (Ascii.eqb "."); Plus is_digit] (drop i (g3 ++ r))).
    rewrite chr_dot_None; [done|].
    intros c Hc. destruct (decide (i < length g3)) as [Hlt|Hge].
    + rewrite drop_app_le in Hc by lia.
      destruct (drop i g3) as [|c' t] eqn:Hdr.
      { apply (f_equal length) in Hdr. rewrite length_drop in Hdr. simpl in Hdr. lia. }
      simpl in Hc. injection Hc as ->.
      apply digit_not_dot.
      pose proof (Forall_drop _ i _ Hgd) as Hx. rewrite Hdr in Hx.
      by apply Forall_cons in Hx as [? _].
    + rewrite drop_app_ge in Hc by lia.
      replace (i - length g3) with 0 in Hc by lia. simpl in Hc.
      apply not_dd_not_dot. by apply Hr.
Qed.

Lemma search_here p s r : match_here p s = Some r → search p s = Some r.
Proof. intros H. destruct s; simpl; by rewrite H. Qed.

Lemma regroup_version X g3 :
  regroup (length <$> versionPattern) ((sing <$> L) ++ [X; ["."%char]; g3])
  = [L; X ++ ["."%char]; g3].
Proof. cbn. by rewrite !app_nil_r. Qed.

Lemma search_groups_Some gs s ts r :
  search (concat gs) s = Some (ts, r) →
  search_groups gs s = Some (regroup (length <$> gs) ts).
Proof. unfold search_groups. by intros ->. Qed.

Lemma search_groups_None gs s :
  search (concat gs) s = None → search_groups gs s = None.
Proof. unfold search_groups. by intros ->. Qed.

(** What a successful bump found and made. *)
Lemma bump_inv s cur next s' :
  bump s = inr (cur, next, s') →
  ∃ pre X g3 r n,
    s = pre ++ L ++ X ++ "."%char :: g3 ++ r
    ∧ X ≠ [] ∧ within is_digit_or_dot X
    ∧ g3 ≠ [] ∧ within is_digit g3 ∧ stops is_digit r
    ∧ int g3 = Some n
    ∧ cur = (X ++ ["."%char]) ++ g3
    ∧ next = (X ++ ["."%char]) ++ str (n + 1)
    ∧ s' = sub versionTextPattern (L ++ next) s.
Proof.
  unfold bump.
  destruct (search (concat versionPattern) s) as [[ts r]|] eqn:E;
    [|by rewrite (search_groups_None _ _ E)].
  rewrite (search_groups_Some _ _ _ _ E).
  apply search_inv in E as (pre & Hs & E).
  apply version_match_inv in E as (X & g3 & Hs' & HX & HXd & Hg & Hgd & Hr & ->).
  rewrite regroup_version.
  destruct (int g3) as [n|] eqn:Hn; [|done].
  intros [= <- <- <-].
  exists pre, X, g3, r, n. split_and!; try done.
  by rewrite Hs, Hs'.
Qed.

(** A text that has the version pattern is bumped. *)
Lemma bump_intro pre X g3 r :
  X ≠ [] → within is_digit_or_dot X → g3 ≠ [] → within is_digit g3 →
  stops is_digit_or_dot r →
  ∃ res, bump (pre ++ L ++ X ++ "."%char :: g3 ++ r) = inr res.
Proof.
  intros HX HXd Hg Hgd Hr.
  assert (∃ ts r', search (concat versionPattern)
                     (pre ++ L ++ X ++ "."%char :: g3 ++ r) = Some (ts, r')
                   ∧ ∃ X' g3', ts = (sing <$> L) ++ [X'; ["."%char]; g3']
                               ∧ g3' ≠ [] ∧ within is_digit g3')
    as (ts & r' & E & X' & g3' & -> & Hg' & Hgd').
  { induction pre as [|c pre IH].
    - eexists _, _. split.
      + apply search_here. by apply version_match_intro.
      + by exists X, g3.
    - rewrite <-app_comm_cons. cbn [search].
      destruct (match_here (concat versionPattern) (c :: pre ++ L ++ X ++ "."%char :: g3 ++ r))
        as [[ts r']|] eqn:E; [|exact IH].
      exists ts, r'. split; [done|].
      apply version_match_inv in E as (X' & g3' & _ & _ & _ & ? & ? & _ & ->).
      by exists X', g3'. }
  unfold bump. rewrite (search_groups_Some _ _ _ _ E), regroup_version.
  destruct (int_digits g3' Hg' Hgd') as [n ->]. by eexists.
Qed.

(** [re.search] returning [None] is the one way to [NoMatch]. *)
Lemma bump_NoMatch s :
  search (concat versionPattern) s = None ↔ bump s = inl NoMatch.
Proof.
  unfold bump. split.
  - by intros ->%search_groups_None.
  - destruct (search (concat versionPattern) s) as [[ts r]|] eqn:E; [|done].
    rewrite (search_groups_Some _ _ _ _ E).
    apply search_inv in E as (pre & _ & E).
    apply version_match_inv in E as (X & g3 & _ & _ & _ & Hg & Hgd & _ & ->).
    rewrite regroup_version. by destruct (int_digits g3 Hg Hgd) as [n ->].
Qed.

(** The third group is a decimal numeral: [int] does not fail on it. *)
Lemma bump_number s : bump s ≠ inl BadNumber.
Proof.
  unfold bump.
  destruct (search (concat versionPattern) s) as [[ts r]|] eqn:E;
    [|by rewrite (search_groups_None _ _ E)].
  rewrite (search_groups_Some _ _ _ _ E).
  apply search_inv in E as (pre & _ & E).
  apply version_match_inv in E as (X & g3 & _ & _ & _ & Hg & Hgd & _ & ->).
  rewrite regroup_version. by destruct (int_digits g3 Hg Hgd) as [n ->].
Qed.

(** The replacement text has no backslash, so [re.sub] takes it as it
    is. *)
Lemma replacement_plain s cur next s' :
  bump s = inr (cur, next, s') → "092"%char ∉ L ++ next.
Proof.
  intros (pre & X & g3 & r & n & _ & _ & HXd & _ & _ & _ & _ & _ & -> & _)%bump_inv.
  assert (∀ l, within is_digit_or_dot l → "092"%char ∉ l) as Hdd.
  { intros l Hl Hin. eapply Forall_forall in Hl; [|exact Hin]. done. }
  intros Hin. apply elem_of_app in Hin as [Hin|Hin].
  - by repeat (apply elem_of_cons in Hin as [?|Hin]; [done|]);
      apply elem_of_nil in Hin.
  - revert Hin. apply Hdd. apply Forall_app. split.
    + apply Forall_app. split; [done|]. by repeat constructor.
    + apply within_digit_dd, str_digits.
Qed.

(** *** [re.sub] on the control text *)

Section Sub.
Variable repl : list ascii.
Hypothesis repl_V : head repl = Some "V"%char.

Abbreviation subst := (sub versionTextPattern repl).

Lemma sub_nil : subst [] = [].
Proof. reflexivity. Qed.

Lemma sub_head_stops t :
  stops is_digit_or_dot t → stops is_digit_or_dot (subst t).
Proof.
  intros Ht. destruct t as [|c t]; [by intros ? [=]|].
  rewrite sub_cons.
  destruct repl as [|v repl']; [done|]. injection repl_V as ->.
  destruct (match_len versionTextPattern (c :: t)) as [[|k]|].
  - by intros ? [= <-].
  - by intros ? [= <-].
  - intros ? [= <-]. by apply Ht.
Qed.

Lemma sub_prefix_inv u t :
  "V"%char ∉ u → u `prefix_of` subst t → u `prefix_of` t.
Proof.
  revert t. induction u as [|x u IH]; intros t Hu Hp; [apply prefix_nil|].
  apply not_elem_of_cons in Hu as [Hx Hu].
  destruct t as [|c t].
  { rewrite sub_nil in Hp. by apply prefix_nil_not in Hp. }
  rewrite sub_cons in Hp.
  destruct repl as [|v repl']; [done|]. injection repl_V as ->.
  destruct (match_len versionTextPattern (c :: t)) as [[|k]|].
  - simpl in Hp. by apply prefix_cons_inv_1 in Hp.
  - simpl in Hp. by apply prefix_cons_inv_1 in Hp.
  - pose proof (prefix_cons_inv_1 _ _ _ _ Hp) as ->.
    apply prefix_cons, IH; [done|]. by apply prefix_cons_inv_2 in Hp.
Qed.
End Sub.

Lemma text_match_nil : match_len versionTextPattern [] = None.
Proof. reflexivity. Qed.

(** After the substitution, the first place where the version pattern
    matches is a copy of the replacement. *)
Lemma search_sub X np s :
  X ≠ [] → within is_digit_or_dot X → np ≠ [] → within is_digit np →
  (∃ i, is_Some (match_len versionTextPattern (drop i s))) →
  ∃ r', search (concat versionPattern)
          (sub versionTextPattern (L ++ X ++ "."%char :: np) s)
        = Some ((sing <$> L) ++ [X; ["."%char]; np], r').
Proof.
  intros HX HXd Hn Hnd.
  assert (head (L ++ X ++ "."%char :: np) = Some "V"%char) as HV by done.
  induction s as [|c s IH]; intros [i Hi].
  { rewrite drop_nil, text_match_nil in Hi. by destruct Hi. }
  rewrite sub_cons.
  destruct (match_len versionTextPattern (c :: s)) as [n|] eqn:E.
  - apply text_match_inv in E as (R & b & Hs & HR & HRd & Hb & ->).
    cbn [Nat.add].
    match goal with
    | |- context [drop ?k s] => assert (drop k s = b) as ->
    end.
    { match goal with
      | |- drop ?k s = b => change (drop k s) with (drop (S k) (c :: s))
      end.
      rewrite Hs, app_assoc.
      match goal with
      | |- drop ?k _ = b =>
          replace k with (length (L ++ R)) by by rewrite length_app
      end.
      by rewrite drop_app_length. }
    eexists. apply search_here.
    replace ((L ++ X ++ "."%char :: np) ++ sub versionTextPattern (L ++ X ++ "."%char :: np) b)
      with (L ++ X ++ "."%char :: np ++ sub versionTextPattern (L ++ X ++ "."%char :: np) b).
    2:{ by rewrite <-!app_assoc, <-app_comm_cons. }
    apply version_match_intro; try done.
    by apply sub_head_stops.
  - cbn [search].
    destruct (match_here (concat versionPattern)
                (c :: sub versionTextPattern (L ++ X ++ "."%char :: np) s))
      as [[ts r]|] eqn:E2.
    + exfalso.
      apply version_match_inv in E2 as (X' & g3' & Hs & HX' & HXd' & _).
      rename r into r0.
      destruct X' as [|d X'']; [done|].
      apply Forall_cons in HXd' as [Hd _].
      injection Hs as -> Hs.
      assert ((chars "ersion: " ++ [d]) `prefix_of` s) as [t Ht].
      { apply (sub_prefix_inv _ HV).
        - intros Hin. apply elem_of_app in Hin as [Hin|Hin].
          + by repeat (apply elem_of_cons in Hin as [?|Hin]; [done|]); apply elem_of_nil in Hin.
          + apply list_elem_of_singleton in Hin. subst d. done.
        - exists (X'' ++ "."%char :: g3' ++ r0). etrans; [exact Hs|].
          by rewrite <-!app_assoc. }
      assert (is_Some (match_len versionTextPattern ("V"%char :: s))) as [? Hm].
      { rewrite Ht, <-app_assoc. apply (text_match_intro d t Hd). }
      by rewrite Hm in E.
    + apply IH. destruct i as [|i]; [by rewrite drop_0, E in Hi; destruct Hi|].
      by exists i.
Qed.

(** Bumping the rewritten text bumps the new version. *)
Lemma bump_again s cur next s' :
  bump s = inr (cur, next, s') →
  ∃ X g3 n,
    cur = (X ++ ["."%char]) ++ g3 ∧ g3 ≠ [] ∧ within is_digit g3
    ∧ int g3 = Some n
    ∧ next = (X ++ ["."%char]) ++ str (n + 1)
    ∧ bump s' = inr (next, (X ++ ["."%char]) ++ str (n + 2),
                     sub versionTextPattern
                       (L ++ (X ++ ["."%char]) ++ str (n + 2)) s').
Proof.
  intros (pre & X & g3 & r & n & Hs & HX & HXd & Hg & Hgd & Hr & Hn & -> & -> & ->)%bump_inv.
  exists X, g3, n. split_and!; try done.
  destruct (search_sub X (str (n + 1)) s HX HXd (str_nonempty _) (str_digits _))
    as [r' E].
  { exists (length pre). rewrite Hs, drop_app_length.
    destruct X as [|d X']; [done|]. apply Forall_cons in HXd as [Hd _].
    apply (text_match_intro d _ Hd). }
  unfold bump.
  replace (L ++ (X ++ ["."%char]) ++ str (n + 1))
    with (L ++ X ++ "."%char :: str (n + 1)) by by rewrite <-!app_assoc.
  rewrite (search_groups_Some _ _ _ _ E), regroup_version, int_str.
  by replace (n + 1 + 1)%N with (n + 2)%N by lia.
Qed.

(** *** One occurrence *)

Lemma elem_of_positions_from p j s x :
  x ∈ positions_from p j s ↔
  ∃ i, x = j + i ∧ i ≤ length s ∧ is_Some (match_len p (drop i s)).
Proof.
  revert j. induction s as [|c s IH]; intros j.
  - cbn [positions_from]. rewrite app_nil_r. split.
    + destruct (match_len p []) eqn:E; [|by intros ?%elem_of_nil].
      intros ->%list_elem_of_singleton. exists 0. rewrite drop_0, E. split_and!; [lia|done|done].
    + intros (i & -> & Hi & Hm). replace i with 0 in * by (simpl in Hi; lia).
      rewrite drop_0 in Hm. destruct Hm as [? ->]. rewrite Nat.add_0_r. by apply elem_of_cons; left.
  - cbn [positions_from]. rewrite elem_of_app, IH. split.
    + intros [Hx|(i & -> & Hi & Hm)].
      * destruct (match_len p (c :: s)) eqn:E; [|by apply elem_of_nil in Hx].
        apply list_elem_of_singleton in Hx as ->. exists 0. rewrite drop_0, E.
        split_and!; [lia|simpl; lia|done].
      * exists (S i). split_and!; [lia|simpl; lia|done].
    + intros ([|i] & -> & Hi & Hm).
      * left. rewrite drop_0 in Hm. destruct Hm as [? ->].
        rewrite Nat.add_0_r. by apply elem_of_cons; left.
      * right. exists i. split_and!; [lia|simpl in Hi; lia|done].
Qed.

Lemma sub_nomatch p repl s :
  (∀ i, i ≤ length s → match_len p (drop i s) = None) → sub p repl s = s.
Proof.
  induction s as [|c s IH]; intros H.
  - unfold sub. simpl.
    assert (match_len p [] = None) as -> by apply (H 0 (le_n _)). done.
  - assert (match_len p (c :: s) = None) as E by (apply (H 0); simpl; lia).
    rewrite sub_cons, E. f_equal. apply IH.
    intros i Hi. apply (H (S i)). simpl. lia.
Qed.

Lemma sub_unique p repl s i n :
  (∀ i', i' ≤ length s → is_Some (match_len p (drop i' s)) → i' = i) →
  match_len p (drop i s) = Some (S n) →
  sub p repl s = take i s ++ repl ++ drop (i + S n) s.
Proof.
  revert i. induction s as [|c s IH]; intros i Hu Hm.
  - rewrite drop_nil in Hm. apply match_len_le in Hm. simpl in Hm. lia.
  - rewrite sub_cons. destruct i as [|i].
    + rewrite drop_0 in Hm. rewrite Hm. cbn [take app Nat.add drop]. do 2 f_equal.
      apply sub_nomatch. intros i Hi.
      destruct (match_len p (drop i (drop n s))) eqn:E; [|done].
      rewrite drop_drop in E.
      assert (S (n + i) = 0) as Hc; [|lia].
      apply Hu; [|by simpl; rewrite E].
      rewrite length_drop in Hi.
      apply match_len_le in Hm. simpl in *. lia.
    + destruct (match_len p (c :: s)) eqn:E.
      { assert (0 = S i) as Hc; [|lia].
        apply Hu; [simpl; lia|]. by rewrite drop_0, E. }
      cbn [take app Nat.add drop]. f_equal. apply IH; [|done].
      intros i' Hi' Hm'. assert (S i' = S i) as Hc; [|lia].
      apply Hu; [simpl; lia|done].
Qed.

(** *** Every occurrence *)

Lemma sub_each_rewritten repl s :
  each_rewritten repl s (sub versionTextPattern repl s).
Proof.
  assert (∀ n s, length s ≤ n →
            each_rewritten repl s (sub versionTextPattern repl s)) as H;
    [|by eapply H].
  induction n as [|n IH]; intros [|c t] Hn; simpl in Hn;
    [constructor|lia|constructor|].
  rewrite sub_cons.
  destruct (match_len versionTextPattern (c :: t)) as [[|k]|] eqn:E.
  - apply text_match_inv in E as (R & b & _ & _ & _ & _ & ?). lia.
  - pose proof E as (R & b & Hs & HR & HRd & Hb & Hk)%text_match_inv.
    assert (drop k t = b) as ->.
    { change (drop k t) with (drop (S k) (c :: t)). rewrite Hs, Hk.
      change (9 + length R) with (length L + length R).
      by rewrite <-drop_drop, !drop_app_length. }
    rewrite Hs. apply rewritten_occurrence; try done. apply IH.
    apply (f_equal length) in Hs. rewrite !length_app in Hs. simpl in Hs. lia.
  - apply rewritten_kept; [|apply IH; lia].
    intros d t' Hs. destruct (is_digit_or_dot d) eqn:Hd; [|done].
    destruct (text_match_intro d t' Hd) as [m Hm]. by rewrite <-Hs, E in Hm.
Qed.

End VersionFacts.

(** * Facts about the exception monad *)

Module SysFacts.
Import Sys Logic.

(** ** Running a computation *)

(** Closed equations between results are settled by evaluation. *)
Ltac run :=
  lazymatch goal with
  | |- @eq ?T _ ?r => vm_cast_no_check (@eq_refl T r)
  end.

Lemma bind_Ok {A B} (m : M A) (k : A → M B) w a w1 :
  m w = (Ok a, w1) → (m ≫= k) w = k a w1.
Proof. unfold mbind, M_bind, bind. by intros ->. Qed.

Lemma bind_Raise {A B} (m : M A) (k : A → M B) w e w1 :
  m w = (Raise e, w1) → (m ≫= k) w = (Raise e, w1).
Proof. unfold mbind, M_bind, bind. by intros ->. Qed.

Lemma bind_inv {A B} (m : M A) (k : A → M B) w r w' :
  (m ≫= k) w = (r, w') →
  (∃ a w1, m w = (Ok a, w1) ∧ k a w1 = (r, w'))
  ∨ (∃ e, m w = (Raise e, w') ∧ r = Raise e).
Proof.
  unfold mbind, M_bind, bind. destruct (m w) as [[a|e] w1]; intros H.
  - left. by exists a, w1.
  - right. exists e. by injection H as <- <-.
Qed.

Lemma for_each_app {A} (xs ys : list A) (body : A → M unit) w :
  for_each (xs ++ ys) body w = (for_each xs body;; for_each ys body) w.
Proof.
  revert w. induction xs as [|x xs IH]; intros w; simpl; [done|].
  unfold mbind, M_bind, bind in *. destruct (body x w) as [[[]|e] w1]; [|done].
  apply IH.
Qed.

(** ** The rules of [sat] *)
Section Sat.
Context (R : relation state) `{!PreOrder R}.

Lemma sat_weaken {A} (E E' : exn → Prop) (m : M A) :
  (∀ e, E e → E' e) → sat R E m → sat R E' m.
Proof. intros HE Hm w r w' H. destruct (Hm _ _ _ H) as [? He]. split; [done|]. intros e ->. apply HE. by apply He. Qed.

Lemma sat_ret {A} E (a : A) : sat R E (mret a).
Proof. intros w r w' [= <- <-]. split; [reflexivity|done]. Qed.

Lemma sat_raise {A} (E : exn → Prop) e : E e → sat R E (raise (A:=A) e).
Proof. intros He w r w' [= <- <-]. split; [reflexivity|]. by intros ? [= <-]. Qed.

Lemma sat_gets {A} E (f : state → A) : sat R E (gets f).
Proof. intros w r w' [= <- <-]. split; [reflexivity|done]. Qed.

Lemma sat_modify E (f : state → state) :
  (∀ w, R w (f w)) → sat R E (modify f).
Proof. intros Hf w r w' [= <- <-]. split; [apply Hf|done]. Qed.

Lemma sat_bind {A B} E (m : M A) (k : A → M B) :
  sat R E m → (∀ a, sat R E (k a)) → sat R E (m ≫= k).
Proof.
  intros Hm Hk w r w' [(a & w1 & H1 & H2)|(e & H1 & ->)]%bind_inv.
  - destruct (Hm _ _ _ H1) as [? _], (Hk a _ _ _ H2) as [? ?].
    split; [by etrans|done].
  - destruct (Hm _ _ _ H1) as [? He]. split; [done|]. intros ? [= <-]. by apply He.
Qed.

Lemma sat_for_each {A} E (xs : list A) (body : A → M unit) :
  (∀ x, sat R E (body x)) → sat R E (for_each xs body).
Proof.
  intros Hb. induction xs as [|x xs IH]; simpl; [apply sat_ret|].
  apply sat_bind; [apply Hb|done].
Qed.

Lemma sat_try_except E E' (m h : M unit) :
  sat R E m → sat R E' h →
  (∀ e, E e → e ≠ PackageProblemOkToContinue → E' e) →
  sat R E' (try_except m h).
Proof.
  intros Hm Hh HE w r w'. unfold try_except.
  destruct (m w) as [[[]|e] w1] eqn:H1.
  - intros [= <- <-]. destruct (Hm _ _ _ H1). done.
  - destruct (Hm _ _ _ H1) as [? He].
    destruct e.
    { intros H2. destruct (Hh _ _ _ H2) as [? ?]. split; [by etrans|done]. }
    all: intros [= <- <-]; (split; [done|]); intros ? [= <-];
      (apply HE; [by apply He|done]).
Qed.

Lemma sat_if {A} E (b : bool) (m1 m2 : M A) :
  sat R E m1 → sat R E m2 → sat R E (if b then m1 else m2).
Proof. by destruct b. Qed.

End Sat.

End SysFacts.

(** * The methods, one by one *)

Module BuilderFacts.
Import Sys Logic SysFacts Builder.

Section Steps.
Context (R : relation state) `{!PreOrder R}.
Context (cfg : config).

Hypothesis R_out : ∀ e w, is_out e = true → R w (record e w).

Lemma sat_put E line : sat R E (put line).
Proof. apply (sat_modify R). intros w. by apply R_out. Qed.

Lemma sat_indent E line : sat R E (indent line).
Proof. apply (sat_modify R). intros w. by apply R_out. Qed.

Lemma sat_unIndent E : sat R E unIndent.
Proof. apply (sat_modify R). intros w. by apply R_out. Qed.

Lemma sat_exists_ E p : sat R E (exists_ p).
Proof. by apply (sat_gets R). Qed.

Lemma sat_isdir E p : sat R E (isdir p).
Proof. by apply (sat_gets R). Qed.

Lemma sat_listdir p : sat R not_skip (listdir p).
Proof.
  intros w r w'. unfold listdir.
  destruct (lookup_path p w) as [[]|]; intros [= <- <-]; (split; [reflexivity|]);
    by intros ? [= <-].
Qed.

Lemma sat_readFile p : sat R not_skip (readFile p).
Proof.
  intros w r w'. unfold readFile.
  destruct (lookup_path p w) as [[]|]; intros [= <- <-]; (split; [reflexivity|]);
    by intros ? [= <-].
Qed.

Lemma runCommand_raises c cwd w e w' :
  runCommand c cwd w = (Raise e, w') → e = CommandFailed c.
Proof.
  unfold runCommand. destruct (fails (broken w) c); [by intros [= <- <-]|].
  destruct (exec c cwd (clock w) (fs w)).
  destruct (succeeds c cwd (fs w)); [done|]. by intros [= <- <-].
Qed.

Section Build.
Hypothesis R_write : ∀ p c w r w', writeFile p c w = (r, w') → R w w'.
Hypothesis R_build : ∀ c cwd w r w',
  is_build_command c = true → runCommand c cwd w = (r, w') → R w w'.

Lemma sat_build_command c cwd :
  is_build_command c = true → sat R not_skip (runCommand c cwd).
Proof.
  intros Hc w r w' H. split; [exact (R_build _ _ _ _ _ Hc H)|].
  intros e ->. by apply runCommand_raises in H as ->.
Qed.

Lemma sat_writeFile E p c : sat R E (writeFile p c).
Proof.
  intros w r w' H. split; [by eapply R_write|].
  intros e ->. done.
Qed.

Lemma sat_incrementPackageVersion p :
  sat R any_exn (incrementPackageVersion cfg p).
Proof.
  unfold incrementPackageVersion.
  apply (sat_bind R); [apply sat_exists_|]. intros present.
  destruct present; simpl.
  - apply (sat_bind R); [eapply (sat_weaken R), sat_readFile; done|]. intros content.
    destruct (Version.bump _) as [[]|[[cur next] s']].
    + by apply (sat_raise R).
    + by apply (sat_raise R).
    + apply (sat_bind R); [apply sat_put|]. intros _. apply sat_writeFile.
  - apply (sat_bind R); [apply sat_put|]. intros _. by apply (sat_raise R).
Qed.

Lemma sat_createWorkingDir p : sat R not_skip (createWorkingDir cfg p).
Proof.
  unfold createWorkingDir.
  apply (sat_bind R); [apply sat_put|]. intros _.
  apply (sat_bind R); [by apply sat_build_command|]. intros _.
  apply (sat_for_each R). intros name.
  apply (sat_bind R); [by apply sat_build_command|]. intros _. apply (sat_ret R).
Qed.

Lemma sat_buildDebFile p : sat R not_skip (buildDebFile cfg p).
Proof.
  unfold buildDebFile.
  apply (sat_bind R); [apply sat_indent|]. intros _.
  apply (sat_bind R); [by apply sat_build_command|]. intros _.
  apply (sat_bind R); [by apply sat_build_command|]. intros _.
  apply sat_unIndent.
Qed.

Lemma sat_removeWorkingDir : sat R not_skip (removeWorkingDir cfg).
Proof.
  unfold removeWorkingDir.
  apply (sat_bind R); [apply sat_put|]. intros _.
  apply (sat_bind R); [by apply sat_build_command|]. intros _. apply (sat_ret R).
Qed.

Lemma sat_after_bump p :
  sat R not_skip
    (createWorkingDir cfg p;; buildDebFile cfg p;; removeWorkingDir cfg).
Proof.
  apply (sat_bind R); [apply sat_createWorkingDir|]. intros _.
  apply (sat_bind R); [apply sat_buildDebFile|]. intros _.
  apply sat_removeWorkingDir.
Qed.

Lemma sat_buildPackage p : sat R not_skip (buildPackage cfg p).
Proof.
  unfold buildPackage.
  apply (sat_try_except R any_exn not_skip).
  - apply (sat_bind R); [apply sat_incrementPackageVersion|]. intros _.
    eapply (sat_weaken R), sat_after_bump. done.
  - apply sat_put.
  - done.
Qed.

Lemma sat_buildPackages_body p : sat R not_skip (buildPackages_body cfg p).
Proof.
  unfold buildPackages_body.
  apply (sat_bind R); [apply sat_indent|]. intros _.
  apply (sat_bind R); [apply sat_buildPackage|]. intros _.
  apply (sat_bind R); [apply sat_unIndent|]. intros _.
  apply sat_put.
Qed.

Lemma sat_buildPackages : sat R not_skip (buildPackages cfg).
Proof.
  unfold buildPackages.
  apply (sat_bind R); [by apply (sat_gets R)|]. intros l.
  apply (sat_for_each R). apply sat_buildPackages_body.
Qed.

End Build.

Section Select.
Hypothesis R_push : ∀ p w, R w (push_package p w).
Hypothesis R_query : ∀ c cwd w r w',
  is_query_command c = true → runCommand c cwd w = (r, w') → R w w'.

Lemma sat_needToRebuildPackage p : sat R not_skip (needToRebuildPackage cfg p).
Proof.
  unfold needToRebuildPackage.
  apply (sat_bind R); [apply sat_exists_|]. intros present.
  destruct present; simpl; [|apply (sat_ret R)].
  apply (sat_bind R); [ |intros ?; apply (sat_ret R)].
  intros w r w' H. split; [by eapply R_query; [|exact H]|].
  intros e ->. by apply runCommand_raises in H as ->.
Qed.

Lemma sat_addAllPackagesToList force :
  sat R not_skip (addAllPackagesToList cfg force).
Proof.
  unfold addAllPackagesToList, addAllPackagesToList_with.
  apply (sat_bind R); [apply sat_listdir|]. intros packages.
  apply (sat_for_each R). intros p.
  apply (sat_bind R); [ |].
  { destruct force; [apply (sat_ret R)|apply sat_needToRebuildPackage]. }
  intros [|]; [|apply sat_put].
  apply (sat_bind R); [apply sat_isdir|]. intros d.
  apply (sat_bind R); [ |].
  { destruct d; [apply sat_exists_|apply (sat_ret R)]. }
  intros [|]; [|apply (sat_ret R)].
  apply (sat_modify R). intros w. apply R_push.
Qed.

Lemma sat_selectPackages a : sat R not_skip (selectPackages cfg a).
Proof.
  unfold selectPackages, selectPackages_with.
  destruct (all a); [apply sat_addAllPackagesToList|].
  destruct (given a); [|apply sat_addAllPackagesToList].
  apply (sat_modify R). intros w. apply R_push.
Qed.

End Select.

Section Index.
Hypothesis R_write : ∀ p c w r w', writeFile p c w = (r, w') → R w w'.
Hypothesis R_index : ∀ c cwd w r w',
  is_index_command c = true → runCommand c cwd w = (r, w') → R w w'.

Lemma sat_index_command c cwd :
  is_index_command c = true → sat R not_skip (runCommand c cwd).
Proof.
  intros Hc w r w' H. split; [exact (R_index _ _ _ _ _ Hc H)|].
  intros e ->. by apply runCommand_raises in H as ->.
Qed.

Lemma sat_refreshAptRepository : sat R not_skip (refreshAptRepository cfg).
Proof.
  unfold refreshAptRepository.
  apply (sat_bind R); [apply (sat_gets R)|]. intros l.
  destruct (length l =? 0); [apply sat_put|].
  apply (sat_bind R); [apply sat_put|]. intros _.
  apply (sat_bind R); [by apply sat_index_command|]. intros info.
  apply (sat_bind R).
  { intros w r w' H. split; [by eapply R_write|]. by intros e ->. }
  intros _.
  apply (sat_bind R); [by apply sat_index_command|]. intros _. apply (sat_ret R).
Qed.
End Index.
End Steps.

End BuilderFacts.

(** * Facts about whole runs *)

Module RunFacts.
Import Sys Logic SysFacts Builder BuilderFacts.

(** ** The primitives, step by step *)

Lemma runCommand_inv c cwd w r w' :
  runCommand c cwd w = (r, w') →
  packageList w' = packageList w
  ∧ journal w' = journal w ++ [Ran c cwd]
  ∧ broken w' = broken w
  ∧ (((broken w c = true ∨ succeeds c cwd (fs w) = false)
      ∧ r = Raise (CommandFailed c)
      ∧ fs w'
        = if broken w c
          then confine (reach c cwd) (leaves (broken w) c (fs w)) (fs w)
          else (exec c cwd (clock w) (fs w)).2)
     ∨ (broken w c = false ∧ r = Ok (exec c cwd (clock w) (fs w)).1
        ∧ fs w' = (exec c cwd (clock w) (fs w)).2)).
Proof.
  unfold runCommand. destruct (fails (broken w) c) eqn:Hb.
  - intros [= <- <-]. split_and!; try done. left. split_and!; [by left|done..].
  - destruct (exec c cwd (clock w) (fs w)) as [out f] eqn:He.
    destruct (succeeds c cwd (fs w)) eqn:Hs; intros [= <- <-];
      (split_and!; try done); [by right|left; split_and!; [by right|done..]].
Qed.

Lemma confine_nowhere (f' f : list (list string * node)) :
  confine (λ _, false) f' f = f.
Proof.
  unfold confine, keep_paths.
  assert (List.filter (λ kn : list string * node, false) f' = []) as ->
    by (induction f' as [|x l IH]; done).
  induction f as [|x l IH]; [done|]. simpl in *. by rewrite IH.
Qed.

(** The query of the staleness check leaves the filesystem alone,
    whether or not it fails. *)
Lemma runCommand_query c cwd w r w' :
  is_query_command c = true → runCommand c cwd w = (r, w') → fs w' = fs w.
Proof.
  intros Hc (_ & _ & _ & [(_ & _ & E)|(_ & _ & E)])%runCommand_inv;
    destruct c; try done; rewrite E; cbn [reach exec snd].
  destruct (fails (broken w) _); [apply confine_nowhere|done].
Qed.

(** A command that returns ended without an error of its own. *)
Lemma runCommand_Ok c cwd w out w' :
  runCommand c cwd w = (Ok out, w') → succeeds c cwd (fs w) = true.
Proof.
  unfold runCommand. destruct (fails (broken w) c); [done|].
  destruct (exec c cwd (clock w) (fs w)) as [out' f].
  by destruct (succeeds c cwd (fs w)).
Qed.

Lemma writeFile_inv p c w r w' :
  writeFile p c w = (r, w') →
  r = Ok () ∧ packageList w' = packageList w
  ∧ journal w' = journal w ++ [Wrote p c]
  ∧ broken w' = broken w
  ∧ fs w' = insert_file (path_of p) (File c (clock w)) (fs w).
Proof. by intros [= <- <-]. Qed.

(** ** The relations the methods keep *)

Global Instance same_list_po : PreOrder same_list.
Proof. split; unfold same_list; [by intros ?|]. intros ??? H1 H2. congruence. Qed.
Global Instance grows_po : PreOrder grows.
Proof. split; unfold grows; [by intros ?|]. intros ??? H1 H2. by etrans. Qed.
Global Instance same_fs_po : PreOrder same_fs.
Proof. split; unfold same_fs; [by intros ?|]. intros ??? H1 H2. congruence. Qed.
Global Instance logs_po ok : PreOrder (logs ok).
Proof.
  split.
  - intros w. exists []. by rewrite app_nil_r.
  - intros w1 w2 w3 (e1 & H1 & F1) (e2 & H2 & F2). exists (e1 ++ e2).
    split; [by rewrite H2, H1, app_assoc|]. by apply Forall_app.
Qed.

Lemma logs_record (ok : event → bool) e w : ok e = true → logs ok w (record e w).
Proof. intros He. exists [e]. split; [done|]. by constructor. Qed.

Lemma logs_runCommand (ok : event → bool) c cwd w r w' :
  ok (Ran c cwd) = true → runCommand c cwd w = (r, w') → logs ok w w'.
Proof.
  intros Hok (_ & Hj & _)%runCommand_inv. exists [Ran c cwd].
  split; [done|]. by constructor.
Qed.

Lemma logs_writeFile (ok : event → bool) p c w r w' :
  ok (Wrote p c) = true → writeFile p c w = (r, w') → logs ok w w'.
Proof.
  intros Hok (_ & _ & Hj & _)%writeFile_inv. exists [Wrote p c].
  split; [done|]. by constructor.
Qed.

Section Runs.
Context (cfg : config).

(** The build loop and the refresh leave the package list alone; the
    selection only appends to it. *)
Lemma buildPackages_same_list w r w' :
  buildPackages cfg w = (r, w') → packageList w' = packageList w.
Proof.
  intros H. symmetry.
  refine (proj1 (sat_buildPackages same_list cfg _ _ _ _ _ _ H)).
  - done.
  - by intros p c w0 r0 w0' (_ & ? & _)%writeFile_inv.
  - by intros c cwd w0 r0 w0' _ (? & _)%runCommand_inv.
Qed.

Lemma refreshAptRepository_same_list w r w' :
  refreshAptRepository cfg w = (r, w') → packageList w' = packageList w.
Proof.
  intros H. symmetry.
  refine (proj1 (sat_refreshAptRepository same_list cfg _ _ _ _ _ _ H)).
  - done.
  - by intros p c w0 r0 w0' (_ & ? & _)%writeFile_inv.
  - by intros c cwd w0 r0 w0' _ (? & _)%runCommand_inv.
Qed.

Lemma selectPackages_grows a w r w' :
  selectPackages cfg a w = (r, w') →
  ∃ sel, packageList w' = packageList w ++ sel.
Proof.
  intros H.
  refine (proj1 (sat_selectPackages grows cfg _ _ _ _ _ _ _ H)).
  - intros ???. unfold grows. reflexivity.
  - intros p w0. by exists [p].
  - intros c cwd w0 r0 w0' _ (E & _)%runCommand_inv. unfold grows. by rewrite E.
Qed.

Lemma selectPackages_same_fs a w r w' :
  selectPackages cfg a w = (r, w') → fs w' = fs w.
Proof.
  intros H. symmetry.
  refine (proj1 (sat_selectPackages same_fs cfg _ _ _ _ _ _ _ H)).
  - done.
  - done.
  - intros c cwd w0 r0 w0' Hc Hrun. unfold same_fs.
    by rewrite (runCommand_query _ _ _ _ _ Hc Hrun).
Qed.

Lemma selectPackages_no_scan a w r w' :
  selectPackages cfg a w = (r, w') → logs (λ e, negb (is_scan e)) w w'.
Proof.
  intros H.
  refine (proj1 (sat_selectPackages _ cfg _ _ _ _ _ _ _ H)).
  - intros e w0 He. apply logs_record. by destruct e.
  - intros p w0. exists []. by rewrite app_nil_r.
  - intros c cwd w0 r0 w0' Hc. apply logs_runCommand. by destruct c.
Qed.

Lemma buildPackages_no_scan w r w' :
  buildPackages cfg w = (r, w') → logs (λ e, negb (is_scan e)) w w'.
Proof.
  intros H.
  refine (proj1 (sat_buildPackages _ cfg _ _ _ _ _ _ H)).
  - intros e w0 He. apply logs_record. by destruct e.
  - intros p c w0 r0 w0'. by apply logs_writeFile.
  - intros c cwd w0 r0 w0' Hc. apply logs_runCommand. by destruct c.
Qed.

Lemma buildPackages_unfold w :
  buildPackages cfg w = for_each (packageList w) (buildPackages_body cfg) w.
Proof. reflexivity. Qed.

Lemma doRunSteps_inv a w r w' :
  doRunSteps cfg a w = (r, w') →
  (∃ e, selectPackages cfg a w = (Raise e, w') ∧ r = Raise e)
  ∨ (∃ ws, selectPackages cfg a w = (Ok (), ws)
       ∧ ((∃ e, buildPackages cfg ws = (Raise e, w') ∧ r = Raise e)
          ∨ (∃ wb, buildPackages cfg ws = (Ok (), wb)
               ∧ refreshAptRepository cfg wb = (r, w')))).
Proof.
  unfold doRunSteps, doRunSteps_with.
  intros [([] & ws & Hs & H)|(e & Hs & ->)]%bind_inv; [right|left; by exists e].
  exists ws. split; [done|].
  apply bind_inv in H as [([] & wb & Hb & H)|(e & Hb & ->)]; [right|left; by exists e].
  by exists wb.
Qed.

End Runs.

End RunFacts.

(** * Facts about package names *)

Module NameFacts.
Import Re ReFacts VersionFacts Sys SysFacts Builder.

Lemma chars_app (a b : string) : chars (a +:+ b) = chars a ++ chars b.
Proof. induction a as [|c a IH]; simpl; [done|]. by rewrite <-IH. Qed.

(** ['.deb$'] matches only at the last four characters, or at the four
    before a final line feed. *)
Lemma deb_match_inv s n :
  match_len debSuffixPattern s = Some n →
  ∃ c, is_dot c = true
       ∧ (s = c :: chars "deb" ∨ s = c :: chars "deb" ++ ["010"%char])
       ∧ n = 4.
Proof.
  unfold match_len, debSuffixPattern.
  destruct s as [|c s]; [done|]. cbn [match_here].
  destruct (is_dot c) eqn:Hc; [|done].
  destruct (match_here (lit "deb" ++ [Dollar]) s) as [[ts r]|] eqn:E; [|done].
  apply match_here_lit_inv in E as (s' & ts' & -> & E & ->).
  intros [= <-]. exists c. split; [done|].
  destruct s' as [|x [|y s']]; simpl in E.
  - injection E as <- <-. split; [by left|done].
  - destruct x as [[] [] [] [] [] [] [] []]; try done.
    injection E as <- <-. split; [by right|done].
  - destruct x as [[] [] [] [] [] [] [] []]; done.
Qed.

Lemma deb_match_here c :
  is_dot c = true → match_len debSuffixPattern (c :: chars "deb") = Some 4.
Proof. intros Hc. unfold match_len, debSuffixPattern. cbn. by rewrite Hc. Qed.

Lemma sub_deb_suffix base c :
  is_dot c = true →
  Re.sub debSuffixPattern [] (base ++ c :: chars "deb") = base.
Proof.
  intros Hc. induction base as [|x base IH].
  - cbn [app]. rewrite sub_cons, (deb_match_here c Hc). reflexivity.
  - rewrite <-app_comm_cons, sub_cons.
    destruct (match_len debSuffixPattern (x :: base ++ c :: chars "deb"))
      as [n|] eqn:E; [|by rewrite IH].
    exfalso. apply deb_match_inv in E as (c' & _ & [E|E] & _).
    + injection E as _ E. apply (f_equal length) in E.
      rewrite length_app in E. simpl in E. lia.
    + injection E as _ E. destruct base as [|y base]; [done|].
      apply (f_equal length) in E. simpl in E. rewrite length_app in E.
      simpl in E. lia.
Qed.

Lemma is_dot_spec c : c ≠ "010"%char → is_dot c = true.
Proof.
  intros Hc. unfold is_dot. destruct (Ascii.eqb_spec c "010"); done.
Qed.

Lemma stripDeb_suffix base c :
  c ≠ "010"%char → stripDeb (base +:+ String c "deb") = base.
Proof.
  intros Hc. unfold stripDeb. rewrite chars_app.
  change (chars (String c "deb")) with (c :: chars "deb").
  rewrite sub_deb_suffix by by apply is_dot_spec.
  apply text_chars.
Qed.

End NameFacts.

(** * Facts about paths and the external tools *)

Module FsFacts.
Import Sys Logic SysFacts Builder BuilderFacts RunFacts NameFacts.

(** ** Paths *)

Lemma string_eqb_eq (a b : string) : String.eqb a b = true ↔ a = b.
Proof. apply String.eqb_eq. Qed.

Lemma path_eqb_eq (k k' : list string) : path_eqb k k' = true ↔ k = k'.
Proof.
  revert k'. induction k as [|a k IH]; intros [|b k']; simpl; try done.
  rewrite andb_true_iff, string_eqb_eq, IH. split; [by intros [-> ->]|].
  by intros [= -> ->].
Qed.

Lemma path_eqb_refl (k : list string) : path_eqb k k = true.
Proof. by apply path_eqb_eq. Qed.

Lemma path_eqb_ne (k k' : list string) : k ≠ k' → path_eqb k k' = false.
Proof.
  intros Hne. apply not_true_iff_false. by intros ?%path_eqb_eq.
Qed.

Lemma strip_Some (root k rel : list string) :
  strip root k = Some rel ↔ k = root ++ rel.
Proof.
  revert k. induction root as [|a root IH]; intros k; simpl.
  - split; [by intros [= ->]|by intros ->].
  - destruct k as [|b k]; [done|].
    destruct (String.eqb a b) eqn:E.
    + apply string_eqb_eq in E as ->. rewrite IH.
      split; [by intros ->|by intros [= ->]].
    + split; [done|]. intros [= -> ->]. by rewrite String.eqb_refl in E.
Qed.

Lemma strip_app (root rel : list string) : strip root (root ++ rel) = Some rel.
Proof. by apply strip_Some. Qed.

Lemma strip_self (l : list string) : strip l l = Some [].
Proof. apply strip_Some. by rewrite app_nil_r. Qed.

Lemma components_app cur a b :
  components cur (a ++ "/"%char :: b) = components cur a ++ components [] b.
Proof.
  revert cur. induction a as [|c a IH]; intros cur; simpl; [done|].
  destruct (Ascii.eqb c "/"); [|apply IH]. by rewrite IH, app_assoc.
Qed.

Lemma walk_app (start a b : list string) :
  walk start (a ++ b) = walk (walk start a) b.
Proof. apply foldl_app. Qed.

(** Names without [".."] are appended as they are. *)
Lemma walk_plain (start names : list string) :
  Forall (λ n, n ≠ "..") names → walk start names = start ++ names.
Proof.
  intros H. revert start. induction H as [|n names Hn _ IH]; intros start.
  - by rewrite app_nil_r.
  - cbn [walk foldl]. unfold step_name at 2.
    destruct (String.eqb_spec n ".."); [done|].
    fold (walk (start ++ [n]) names). by rewrite IH, <-app_assoc.
Qed.

Lemma path_of_slash (a b : string) :
  Forall (λ n, n ≠ "..") (components [] (chars b)) →
  path_of (a +:+ "/" +:+ b) = path_of a ++ components [] (chars b).
Proof.
  intros H. unfold path_of. rewrite chars_app.
  change (chars ("/" +:+ b)) with ("/"%char :: chars b).
  by rewrite components_app, walk_app, walk_plain.
Qed.

Section Paths.
Context (cfg : config).

Lemma path_of_workingDir :
  path_of (getWorkingDirFullPath cfg) = path_of (debsDir cfg) ++ [".workingDir"].
Proof.
  unfold getWorkingDirFullPath. rewrite path_of_slash; [done|].
  by repeat constructor.
Qed.

Lemma sourceDir_slash p : ends_with_slash (getSourceDirFullPath cfg p) = true.
Proof.
  unfold ends_with_slash, getSourceDirFullPath.
  rewrite !chars_app. change (chars "/") with ["/"%char].
  rewrite !app_assoc. by rewrite last_snoc.
Qed.

Lemma sourceDir_nonempty p : getSourceDirFullPath cfg p ≠ EmptyString.
Proof. unfold getSourceDirFullPath. by destruct (codeSourceDir cfg). Qed.

End Paths.

(** ** The list of entries as a map *)

Lemma lookup_cons (k k' : list string) (n : node)
  (f : list (list string * node)) :
  ((k', n) :: f) !! k = if path_eqb k k' then Some n else f !! k.
Proof. reflexivity. Qed.

Lemma lookup_keep (keep : list string → bool) (f : list (list string * node))
  (k : list string) :
  keep_paths keep f !! k = if keep k then f !! k else None.
Proof.
  unfold keep_paths. induction f as [|[k' n] f IH]; simpl.
  - by destruct (keep k).
  - destruct (keep k') eqn:Hk'; rewrite !lookup_cons.
    + destruct (path_eqb k k') eqn:E; [|done].
      apply path_eqb_eq in E as ->. by rewrite Hk'.
    + rewrite IH. destruct (path_eqb k k') eqn:E; [|done].
      apply path_eqb_eq in E as ->. by rewrite Hk'.
Qed.

Lemma lookup_app (f1 f2 : list (list string * node)) (k : list string) :
  (f1 ++ f2) !! k = match f1 !! k with Some n => Some n | None => f2 !! k end.
Proof.
  induction f1 as [|[k' n] f1 IH]; [done|].
  rewrite <-app_comm_cons, !lookup_cons. by destruct (path_eqb k k').
Qed.

Lemma lookup_insert_file (k k' : list string) (n : node)
  (f : list (list string * node)) :
  insert_file k' n f !! k = if path_eqb k k' then Some n else f !! k.
Proof.
  unfold insert_file. rewrite lookup_cons, lookup_keep.
  destruct (path_eqb k k') eqn:E; [done|].
  destruct (path_eqb k' k) eqn:E'; [|done].
  apply path_eqb_eq in E' as ->. by rewrite path_eqb_refl in E.
Qed.

Lemma elem_of_entries_from (seen : list (list string))
  (f : list (list string * node)) (k : list string) (n : node) :
  (k, n) ∈ entries_from seen f ↔
  existsb (path_eqb k) seen = false ∧ f !! k = Some n.
Proof.
  revert seen. induction f as [|[k' n'] f IH]; intros seen; simpl.
  - rewrite elem_of_nil. split; [done|]. by intros [_ ?].
  - rewrite lookup_cons. destruct (existsb (path_eqb k') seen) eqn:Hs.
    + rewrite IH. destruct (path_eqb k k') eqn:E; [|done].
      apply path_eqb_eq in E as ->. rewrite Hs. split; by intros [? ?].
    + rewrite elem_of_cons, IH. simpl.
      destruct (path_eqb k k') eqn:E.
      * apply path_eqb_eq in E as ->. rewrite Hs. split.
        -- intros [[= ->]|[[=] _]]. done.
        -- intros [_ [= ->]]. by left.
      * simpl. split.
        -- intros [[= -> ->]|?]; [by rewrite path_eqb_refl in E|done].
        -- intros ?. by right.
Qed.

Lemma elem_of_entries (f : list (list string * node)) (k : list string)
  (n : node) :
  (k, n) ∈ entries f ↔ f !! k = Some n.
Proof.
  unfold entries. rewrite elem_of_entries_from. simpl.
  split; [by intros [_ ?]|by intros ?].
Qed.

(** ** The tools *)

Lemma rm_rf_gone (p : string) (f : list (list string * node)) :
  rm_rf p f !! path_of p = None.
Proof. unfold rm_rf. by rewrite lookup_keep, strip_self. Qed.

(** What a lookup finds is in the list; where each path has one entry,
    what is in the list is found. *)
Lemma lookup_elem (l : list (list string * node)) (k : list string) (n : node) :
  l !! k = Some n → (k, n) ∈ l.
Proof.
  induction l as [|[k' n'] l IH]; [done|]. rewrite lookup_cons.
  destruct (path_eqb k k') eqn:E.
  - apply path_eqb_eq in E as ->. intros [= ->]. by left.
  - intros H. right. by apply IH.
Qed.

Lemma lookup_None_elem (l : list (list string * node)) (k : list string)
  (n : node) :
  l !! k = None → (k, n) ∉ l.
Proof.
  induction l as [|[k' n'] l IH]; [by intros _ ?%elem_of_nil|].
  rewrite lookup_cons. destruct (path_eqb k k') eqn:E; [done|].
  intros H [[= -> ->]|Hin]%elem_of_cons.
  - by rewrite path_eqb_refl in E.
  - by apply IH.
Qed.

Lemma elem_lookup (l : list (list string * node)) (k : list string) (n : node) :
  (k, n) ∈ l → (∀ n', (k, n') ∈ l → n' = n) → l !! k = Some n.
Proof.
  intros Hin Hf. destruct (l !! k) as [n'|] eqn:E.
  - f_equal. apply Hf. by apply lookup_elem.
  - by apply lookup_None_elem with (n := n) in E.
Qed.

(** The entries [rsync] sends. *)
Lemma elem_of_sent (src dst : string) (f : list (list string * node))
  (d : list string) (n : node) :
  (d, n) ∈ sent src dst f ↔
  ∃ rel, d = path_of dst ++ rel ∧ f !! (path_of src ++ rel) = Some n.
Proof.
  unfold sent. rewrite list_elem_of_omap. split.
  - intros ([k n'] & Hk%elem_of_entries & H). simpl in H.
    destruct (strip (path_of src) k) as [rel|] eqn:Hs; [|done].
    injection H as <- <-. apply strip_Some in Hs as ->. by exists rel.
  - intros (rel & -> & H). exists (path_of src ++ rel, n).
    split; [by apply elem_of_entries|]. simpl. by rewrite strip_app.
Qed.

Lemma sent_lookup (src dst : string) (f : list (list string * node))
  (keep : list string * node → bool) (k : list string) :
  List.filter keep (sent src dst f) !! k
  = match strip (path_of dst) k with
    | Some rel =>
        match f !! (path_of src ++ rel) with
        | Some n => if keep (k, n) then Some n else None
        | None => None
        end
    | None => None
    end.
Proof.
  assert (∀ n, (k, n) ∈ List.filter keep (sent src dst f) ↔
               keep (k, n) = true
               ∧ ∃ rel, k = path_of dst ++ rel
                        ∧ f !! (path_of src ++ rel) = Some n) as Hin.
  { intros n. rewrite list_elem_of_In, filter_In, <-list_elem_of_In, elem_of_sent.
    tauto. }
  destruct (strip (path_of dst) k) as [rel|] eqn:Hs.
  - apply strip_Some in Hs as ->.
    destruct (f !! (path_of src ++ rel)) as [n|] eqn:Hn.
    + destruct (keep (path_of dst ++ rel, n)) eqn:Hk.
      * apply elem_lookup.
        -- apply Hin. split; [done|]. by exists rel.
        -- intros n' (_ & rel' & ->%app_inv_head & Hn')%Hin. congruence.
      * destruct (List.filter keep _ !! _) as [n'|] eqn:E; [|done].
        apply lookup_elem, Hin in E as (Hk' & rel' & ->%app_inv_head & Hn').
        congruence.
    + destruct (List.filter keep _ !! _) as [n'|] eqn:E; [|done].
      apply lookup_elem, Hin in E as (_ & rel' & ->%app_inv_head & Hn').
      congruence.
  - destruct (List.filter keep _ !! k) as [n'|] eqn:E; [|done].
    apply lookup_elem, Hin in E as (_ & rel' & -> & _).
    by rewrite strip_app in Hs.
Qed.

(** [rsync], path by path. *)
Lemma rsync_lookup (src dst : string) (f : list (list string * node))
  (k : list string) (t : N) :
  f !! path_of src = Some (Dir t) →
  rsync src dst f !! k =
    match strip (path_of dst) k with
    | Some rel =>
        match f !! (path_of src ++ rel) with
        | Some n =>
            if negb (in_the_way f (k, n)) && negb (up_to_date f (k, n))
            then Some n else f !! k
        | None => f !! k
        end
    | None => f !! k
    end.
Proof.
  intros Hsrc. unfold rsync. rewrite Hsrc, lookup_app, sent_lookup.
  destruct (strip (path_of dst) k); [|done].
  destruct (f !! (path_of src ++ l)); [|done].
  by destruct (negb _ && negb _).
Qed.

Lemma rsync_outside (src dst : string) (f : list (list string * node))
  (k : list string) :
  strip (path_of dst) k = None → rsync src dst f !! k = f !! k.
Proof.
  intros Hk. unfold rsync. destruct (f !! path_of src) as [[]|]; [done| |done].
  by rewrite lookup_app, sent_lookup, Hk.
Qed.

(** When [rsync] succeeds nothing was in the way. *)
Lemma rsync_ok_not_in_the_way (src dst : string)
  (f : list (list string * node)) (rel : list string) (n : node) :
  rsync_ok src dst f = true →
  f !! (path_of src ++ rel) = Some n →
  in_the_way f (path_of dst ++ rel, n) = false.
Proof.
  unfold rsync_ok. destruct (f !! path_of src) as [[]|]; [done| |done].
  intros Hall Hn. rewrite forallb_forall in Hall.
  apply negb_true_iff, Hall, list_elem_of_In, elem_of_sent. by exists rel.
Qed.

Lemma rsync_ok_dir (src dst : string) (f : list (list string * node)) :
  rsync_ok src dst f = true → ∃ t, f !! path_of src = Some (Dir t).
Proof.
  unfold rsync_ok. destruct (f !! path_of src) as [[]|]; [done| |done].
  by eexists.
Qed.

Lemma find_remove_lookup (dir name : string) (f : list (list string * node))
  (k : list string) :
  find_remove dir name f !! k =
    if name_matches name (path_of dir) k then None else f !! k.
Proof.
  unfold find_remove. rewrite lookup_keep.
  by destruct (name_matches name (path_of dir) k).
Qed.

Lemma find_remove_all_lookup (dir : string) (names : list string)
  (f : list (list string * node)) (k : list string) :
  foldl (λ f name, find_remove dir name f) f names !! k =
    if existsb (λ name, name_matches name (path_of dir) k) names
    then None else f !! k.
Proof.
  revert f. induction names as [|name names IH]; intros f; simpl; [done|].
  rewrite IH, find_remove_lookup.
  destruct (name_matches name (path_of dir) k); simpl; [|done].
  by destruct (existsb _ names).
Qed.

End FsFacts.

(** * Facts about the steps of a package build *)

Module StepFacts.
Import Sys Logic SysFacts Builder BuilderFacts RunFacts NameFacts FsFacts.

Global Instance anywhere_po : PreOrder anywhere.
Proof. by split. Qed.

Section Steps.
Context (cfg : config).

Lemma then_ret (m : M unit) (k : M unit) w :
  ((m;; mret ());; k) w = (m;; k) w.
Proof.
  unfold mbind, M_bind, bind, mret, M_ret, ret.
  by destruct (m w) as [[[]|e] w1].
Qed.

Lemma buildPackages_singleton X (k : M unit) w :
  packageList w = [X] →
  (buildPackages cfg;; k) w = (buildPackages_body cfg X;; k) w.
Proof.
  intros Hl. unfold buildPackages. unfold mbind, M_bind, bind, gets.
  rewrite Hl. cbn [for_each]. unfold mbind, M_bind, bind, mret, M_ret, ret.
  by destruct (buildPackages_body cfg X w) as [[[]|e] w1].
Qed.

(** The version bump, case by case. *)
Lemma incrementPackageVersion_absent p w :
  lookup_path (getControlFilePath cfg p) w = None →
  incrementPackageVersion cfg p w
  = (Raise PackageProblemOkToContinue,
     record (Put ("ERROR: no control file found for " +:+ p)) w).
Proof.
  intros H. unfold incrementPackageVersion, exists_, gets, mbind, M_bind, bind.
  by rewrite H.
Qed.

Lemma incrementPackageVersion_present p w n :
  lookup_path (getControlFilePath cfg p) w = Some n →
  incrementPackageVersion cfg p w
  = match n with
    | File content _ =>
        match Version.bump (chars content) with
        | inl Version.NoMatch => (Raise AttributeError, w)
        | inl Version.BadNumber => (Raise ValueError, w)
        | inr (cur, next, content') =>
            writeFile (getControlFilePath cfg p) (text content')
              (record (Put ("incremented package version from " +:+ text cur
                              +:+ " to " +:+ text next)) w)
        end
    | Dir _ => (Raise (OSError (getControlFilePath cfg p)), w)
    end.
Proof.
  intros H.
  unfold incrementPackageVersion, exists_, readFile, gets, mbind, M_bind, bind.
  rewrite H. cbn [negb]. rewrite H.
  destruct n as [content t|t]; [|reflexivity].
  destruct (Version.bump (chars content)) as [[]|[[cur next] content']]; reflexivity.
Qed.

Lemma incrementPackageVersion_skips p w w' :
  incrementPackageVersion cfg p w = (Raise PackageProblemOkToContinue, w') →
  lookup_path (getControlFilePath cfg p) w = None.
Proof.
  destruct (lookup_path (getControlFilePath cfg p) w) as [n|] eqn:H; [|done].
  rewrite (incrementPackageVersion_present p w n H).
  destruct n as [content t|t]; [|done].
  by destruct (Version.bump (chars content)) as [[]|[[cur next] content']].
Qed.

Lemma after_bump_never_skips p w w' :
  (createWorkingDir cfg p;; buildDebFile cfg p;; removeWorkingDir cfg) w
  ≠ (Raise PackageProblemOkToContinue, w').
Proof.
  intros H.
  assert (sat anywhere not_skip
            (createWorkingDir cfg p;; buildDebFile cfg p;; removeWorkingDir cfg))
    as Hs by by apply sat_after_bump.
  destruct (Hs _ _ _ H) as [_ Hn]. by apply (Hn _ eq_refl).
Qed.

Lemma removeWorkingDir_Ok w w' :
  removeWorkingDir cfg w = (Ok (), w') →
  lookup_path (getWorkingDirFullPath cfg) w' = None.
Proof.
  unfold removeWorkingDir.
  intros [([] & w1 & _ & H)|(e & _ & [=])]%bind_inv.
  apply bind_inv in H as [(out & w2 & H & [= <-])|(e & _ & [=])].
  apply runCommand_inv in H as (_ & _ & _ & [(_ & [=] & _)|(_ & _ & Hfs)]).
  unfold lookup_path. rewrite Hfs. simpl. apply rm_rf_gone.
Qed.

Lemma buildPackage_Ok_inv p w w' :
  buildPackage cfg p w = (Ok (), w') →
  (lookup_path (getControlFilePath cfg p) w = None
   ∧ w' = record (Put ("skipping package " +:+ dq +:+ p +:+ dq))
            (record (Put ("ERROR: no control file found for " +:+ p)) w))
  ∨ (∃ w1 w2 w3,
       incrementPackageVersion cfg p w = (Ok (), w1)
       ∧ createWorkingDir cfg p w1 = (Ok (), w2)
       ∧ buildDebFile cfg p w2 = (Ok (), w3)
       ∧ removeWorkingDir cfg w3 = (Ok (), w')).
Proof.
  unfold buildPackage, try_except.
  destruct ((incrementPackageVersion cfg p;; createWorkingDir cfg p;;
             buildDebFile cfg p;; removeWorkingDir cfg) w)
    as [[[]|e] w0] eqn:Hm.
  - intros [= <-]. right.
    apply bind_inv in Hm as [([] & w1 & H1 & Hm)|(e & _ & [=])].
    apply bind_inv in Hm as [([] & w2 & H2 & Hm)|(e & _ & [=])].
    apply bind_inv in Hm as [([] & w3 & H3 & Hm)|(e & _ & [=])].
    by exists w1, w2, w3.
  - destruct e; try done. intros [= <-]. left.
    apply bind_inv in Hm as [([] & w1 & H1 & Hm)|(e & H1 & [= <-])].
    + by apply after_bump_never_skips in Hm.
    + pose proof (incrementPackageVersion_skips _ _ _ H1) as Hn.
      rewrite (incrementPackageVersion_absent _ _ Hn) in H1.
      injection H1 as <-. done.
Qed.

End Steps.

End StepFacts.

(** * Lemmas the claims share *)

Import Re ReFacts Version VersionFacts.
Import Sys Logic SysFacts Builder BuilderFacts RunFacts NameFacts FsFacts StepFacts.

Lemma prefix_of_run cls (a a' R b : list ascii) :
  within cls a → a ++ a' = R ++ b → stops cls b → a `prefix_of` R.
Proof.
  intros Ha. revert R. induction Ha as [|x a Hx Ha IH]; intros R E Hb.
  - apply prefix_nil.
  - destruct R as [|y R]; simpl in E.
    + subst b. by rewrite (Hb x eq_refl) in Hx.
    + injection E as -> E. apply prefix_cons. by apply IH.
Qed.

Lemma buildPackages_body_eq cfg X :
  buildPackages_body cfg X = build_of cfg (stripDeb X).
Proof. reflexivity. Qed.

Lemma explicit_run cfg stale a X w :
  all a = false → given a = Some X →
  doRunSteps_with cfg stale a w
  = (for_each (packageList w ++ [X]) (buildPackages_body cfg);;
     refreshAptRepository cfg) (push_package X w).
Proof.
  intros Ha Hg. unfold doRunSteps_with, selectPackages_with. rewrite Ha, Hg.
  reflexivity.
Qed.

Lemma refreshAptRepository_Ok_inv cfg w w' :
  refreshAptRepository cfg w = (Ok (), w') →
  (packageList w = []
   ∧ w' = record (Put "Not rebuilding APT repository metadata (no packages updated)") w)
  ∨ (packageList w ≠ []
     ∧ ∃ info,
         journal w' = journal w ++
           [ Put "rebuilding APT repository metadata";
             Ran ScanPackages (Some (debsDir cfg));
             Wrote (getPackageInfoUncompressedFilename cfg) info;
             Ran (Gzip (getPackageInfoUncompressedFilename cfg)) None ]).
Proof.
  unfold refreshAptRepository.
  intros [(l & w0 & [= <- <-] & H)|(e & _ & [=])]%bind_inv.
  destruct (packageList w) as [|x l] eqn:Hl; cbn [length Nat.eqb] in H.
  - left. by injection H as <-.
  - right. split; [done|].
    apply bind_inv in H as [([] & w1 & [= <-] & H)|(e & _ & [=])].
    apply bind_inv in H as [(info & w2 & H2 & H)|(e & _ & [=])].
    apply bind_inv in H as [([] & w3 & H3 & H)|(e & _ & [=])].
    apply bind_inv in H as [(out & w4 & H4 & [= <-])|(e & _ & [=])].
    apply runCommand_inv in H2 as (_ & J2 & _).
    apply writeFile_inv in H3 as (_ & _ & J3 & _).
    apply runCommand_inv in H4 as (_ & J4 & _).
    exists info. rewrite J4, J3, J2. simpl. by rewrite <-!app_assoc.
Qed.

Lemma remove_loop_fs (dir : string) (names : list string) (w w' : state) :
  for_each names (λ name, runCommand (FindRemove dir name) None;; mret ()) w
  = (Ok (), w') →
  fs w' = foldl (λ f name, find_remove dir name f) (fs w) names.
Proof.
  revert w. induction names as [|name names IH]; intros w; simpl.
  - by intros [= <-].
  - intros [([] & w1 & H1 & H)|(e & _ & [=])]%bind_inv.
    apply bind_inv in H1 as [(out & w2 & H1 & [= <-])|(e & _ & [=])].
    apply runCommand_inv in H1 as (_ & _ & _ & [(_ & [=] & _)|(_ & _ & Hfs)]).
    rewrite (IH _ H), Hfs. done.
Qed.

Lemma existsb_eq {A} (f g : A → bool) (l : list A) :
  Forall (λ x, f x = g x) l → existsb f l = existsb g l.
Proof. induction 1 as [|x l E _ IH]; simpl; [done|]. by rewrite E, IH. Qed.

Lemma matches_under_workingDir (cfg : config) (rel : list string) :
  existsb (λ name,
             name_matches name (path_of (getWorkingDirFullPath cfg))
               (path_of (getWorkingDirFullPath cfg) ++ rel))
          packageFilesToRemoveBeforeBuilding
  = excluded packageFilesToRemoveBeforeBuilding rel.
Proof.
  unfold excluded. apply existsb_eq.
  assert (∀ name, glob (chars name) (chars ".workingDir") = false →
            name_matches name (path_of (getWorkingDirFullPath cfg))
              (path_of (getWorkingDirFullPath cfg) ++ rel)
            = existsb (λ x, glob (chars name) (chars x)) rel) as H.
  { intros name Hn. unfold name_matches. rewrite strip_app.
    rewrite path_of_workingDir, last_snoc.
    change (option_list (Some ".workingDir") ++ rel) with (".workingDir" :: rel).
    cbn [existsb]. by rewrite Hn. }
  repeat (constructor; [by apply H|]). constructor.
Qed.

Lemma join_empty (sep : string) (l : list string) :
  Forall (λ x, x ≠ EmptyString) l → join sep l = EmptyString → l = [].
Proof.
  destruct 1 as [|x l Hx _]; [done|]. simpl.
  destruct x as [|c x]; [done|]. by destruct l.
Qed.

Lemma newer_files_spec (dir ref : string) (f : list (list string * node))
  (r : node) :
  f !! path_of ref = Some r →
  dir ≠ EmptyString →
  ends_with_slash dir = true →
  (join newline (newer_files dir ref f) ≠ EmptyString ↔
   ∃ rel content t,
     rel ≠ [] ∧ f !! (path_of dir ++ rel) = Some (File content t)
     ∧ (mtime_of r < t)%N).
Proof.
  intros Hr Hd Hs. unfold newer_files. rewrite Hr, Hs.
  set (pick := λ kn : list string * node, _).
  assert (Forall (λ x, x ≠ EmptyString) (omap pick (entries f))) as Hne.
  { apply Forall_forall. intros line ((k & n) & _ & Hp)%list_elem_of_omap.
    unfold pick in Hp. simpl in Hp.
    destruct (strip (path_of dir) k); [|done].
    destruct (_ && _); [|done]. injection Hp as <-. by destruct dir. }
  split.
  - intros Hj.
    destruct (omap pick (entries f)) as [|line l] eqn:E; [done|].
    assert (line ∈ omap pick (entries f)) as Hin by (rewrite E; by left).
    apply list_elem_of_omap in Hin as ((k & n) & Hk & Hp).
    apply elem_of_entries in Hk. unfold pick in Hp. simpl in Hp.
    destruct (strip (path_of dir) k) as [rel|] eqn:Hrel; [|done].
    destruct (is_file n && (mtime_of r <? mtime_of n)%N
              && negb (path_eqb rel [] && true)) eqn:Hc; [|done].
    apply andb_true_iff in Hc as [[Hf Ht]%andb_true_iff Hn].
    apply strip_Some in Hrel as ->.
    destruct n as [content t|t]; [|done].
    exists rel, content, t. split_and!; [|done|by apply N.ltb_lt].
    intros ->. done.
  - intros (rel & content & t & Hrel & Hk & Ht) Hj.
    apply join_empty in Hj; [|done].
    assert (dir +:+ join "/" rel ∈ omap pick (entries f)) as Hin;
      [|by rewrite Hj in Hin; apply elem_of_nil in Hin].
    apply list_elem_of_omap. exists (path_of dir ++ rel, File content t).
    split; [by apply elem_of_entries|].
    unfold pick. simpl. rewrite strip_app.
    apply N.ltb_lt in Ht. rewrite Ht. rewrite (path_eqb_ne rel []) by done. done.
Qed.

(** * More facts about the methods *)

Import Footprint.

(** ** Names *)

Lemma sub_deb_changed s :
  Re.sub debSuffixPattern [] s ≠ s →
  ∃ i n, match_len debSuffixPattern (drop i s) = Some n.
Proof.
  induction s as [|c s IH]; [done|].
  rewrite sub_cons.
  destruct (match_len debSuffixPattern (c :: s)) as [n|] eqn:E.
  - intros _. by exists 0, n.
  - intros H. destruct IH as (i & n & Hi); [congruence|]. by exists (S i), n.
Qed.

Lemma sub_deb_suffix_nl base c :
  is_dot c = true →
  Re.sub debSuffixPattern [] (base ++ c :: chars "deb" ++ ["010"%char])
  = base ++ ["010"%char].
Proof.
  intros Hc. induction base as [|x base IH].
  - cbn [app]. rewrite sub_cons.
    assert (match_len debSuffixPattern (c :: chars "deb" ++ ["010"%char]) = Some 4) as ->.
    { unfold match_len, debSuffixPattern. cbn. by rewrite Hc. }
    reflexivity.
  - rewrite <-app_comm_cons, sub_cons.
    destruct (match_len debSuffixPattern (x :: base ++ c :: chars "deb" ++ ["010"%char]))
      as [n|] eqn:E; [|by rewrite IH].
    exfalso. apply deb_match_inv in E as (c' & _ & [E|E] & _).
    + injection E as _ E. apply (f_equal length) in E.
      rewrite length_app in E. simpl in E. lia.
    + injection E as _ E. apply (f_equal length) in E.
      rewrite length_app in E. simpl in E. lia.
Qed.

Lemma is_dot_inv c : is_dot c = true → c ≠ "010"%char.
Proof. intros H ->. done. Qed.


Lemma text_app a b : text (a ++ b) = text a +:+ text b.
Proof.
  rewrite <-(chars_text a), <-(chars_text b) at 1.
  by rewrite <-chars_app, text_chars.
Qed.

(** ** Versions *)

Lemma backtrack_is_Some {A} (f : nat → option A) n k :
  0 < k ≤ n → is_Some (f k) → is_Some (backtrack f n).
Proof.
  induction n as [|n IH]; intros Hk Hf; [lia|]. simpl.
  destruct (f (S n)) eqn:E; [done|].
  apply IH; [|done]. destruct (decide (k = S n)) as [->|]; [|lia].
  rewrite E in Hf. by destruct Hf.
Qed.

Lemma span_ge cls a b : within cls a → length a ≤ span cls (a ++ b).
Proof.
  induction 1 as [|c a Hc _ IH]; simpl; [lia|]. rewrite Hc. lia.
Qed.

(** The version pattern matches wherever the label is followed by
    digits and dots, a dot and a digit. *)
Lemma version_match_some X g3 r :
  X ≠ [] → within is_digit_or_dot X → g3 ≠ [] → within is_digit g3 →
  is_Some (match_here (concat versionPattern) (L ++ X ++ "."%char :: g3 ++ r)).
Proof.
  intros HX HXd Hg Hgd. rewrite versionPattern_eq.
  assert (is_Some (match_here [Plus is_digit_or_dot; Chr (Ascii.eqb "."); Plus is_digit]
                     (X ++ "."%char :: g3 ++ r))) as [[ts r'] E].
  { cbn [match_here].
    apply (backtrack_is_Some _ _ (length X)).
    - split; [destruct X; [done|simpl; lia]|]. by apply span_ge.
    - rewrite drop_app_length. rewrite Ascii.eqb_refl.
      fold (match_here [Plus is_digit] (g3 ++ r)). rewrite match_plus_last.
      pose proof (span_ge is_digit g3 r Hgd) as Hs.
      destruct (span is_digit (g3 ++ r)) as [|m]; [|done].
      destruct g3; [done|simpl in Hs; lia]. }
  erewrite match_here_lit_intro by exact E. done.
Qed.

Lemma search_is_Some p pre s :
  is_Some (match_here p s) → is_Some (search p (pre ++ s)).
Proof.
  intros [r H]. induction pre as [|c pre IH]; simpl.
  - exists r. by apply search_here.
  - by destruct (match_here p (c :: pre ++ s)).
Qed.

Lemma search_skip p pre s :
  (∀ i, i < length pre → match_here p (drop i (pre ++ s)) = None) →
  search p (pre ++ s) = search p s.
Proof.
  induction pre as [|c pre IH]; intros H; [done|].
  assert (match_here p (c :: pre ++ s) = None) as E by (apply (H 0); simpl; lia).
  rewrite <-app_comm_cons. cbn [search]. rewrite E.
  apply IH. intros i Hi. apply (H (S i)). simpl. lia.
Qed.

Lemma sub_skip p repl pre s :
  (∀ i, i < length pre → match_len p (drop i (pre ++ s)) = None) →
  sub p repl (pre ++ s) = pre ++ sub p repl s.
Proof.
  induction pre as [|c pre IH]; intros H; [done|].
  rewrite <-app_comm_cons, sub_cons.
  assert (match_len p (c :: pre ++ s) = None) as -> by (apply (H 0); simpl; lia).
  simpl. f_equal. apply IH. intros i Hi. apply (H (S i)). simpl. lia.
Qed.

(** Neither pattern matches where the text does not begin with [V]. *)
Lemma no_V_no_match (p : list atom) t :
  head t ≠ Some "V"%char →
  match_here (((λ c, Chr (Ascii.eqb c)) <$> L) ++ p) t = None.
Proof.
  intros H. destruct t as [|c t]; [done|].
  change (((λ c, Chr (Ascii.eqb c)) <$> L) ++ p)
    with (Chr (Ascii.eqb "V") :: ((λ c, Chr (Ascii.eqb c)) <$> chars "ersion: ") ++ p).
  cbn [match_here].
  destruct (Ascii.eqb_spec "V" c) as [<-|]; [by destruct H|done].
Qed.

Lemma head_drop_elem {A} (pre s : list A) i x :
  i < length pre → head (drop i (pre ++ s)) = Some x → x ∈ pre.
Proof.
  revert i. induction pre as [|c pre IH]; intros i Hi; [simpl in Hi; lia|].
  destruct i as [|i]; simpl.
  - intros [= ->]. by left.
  - intros H. right. apply (IH i); [simpl in Hi; lia|done].
Qed.

Lemma sub_match p repl s n :
  match_len p s = Some (S n) → sub p repl s = repl ++ sub p repl (drop (S n) s).
Proof.
  destruct s as [|c s]; intros H.
  - apply match_len_le in H. simpl in H. lia.
  - by rewrite sub_cons, H.
Qed.

(** ** The commands and writes of each method *)

Global Instance outside_po touched : PreOrder (outside touched).
Proof.
  split.
  - by intros w k _.
  - intros w1 w2 w3 H1 H2 k Hk. by rewrite (H2 k Hk), (H1 k Hk).
Qed.

Global Instance later_po : PreOrder later.
Proof.
  split; unfold later.
  - intros w. lia.
  - intros w1 w2 w3. lia.
Qed.

Global Instance journals_po ok : PreOrder (journals ok).
Proof.
  split.
  - intros w. exists []. by rewrite app_nil_r.
  - intros w1 w2 w3 (e1 & H1 & F1) (e2 & H2 & F2). exists (e1 ++ e2).
    split; [by rewrite H2, H1, app_assoc|]. by apply Forall_app.
Qed.

Lemma journals_record (ok : event → Prop) e w : ok e → journals ok w (record e w).
Proof. intros He. exists [e]. split; [done|]. by constructor. Qed.

Lemma journals_runCommand (ok : event → Prop) c cwd w r w' :
  ok (Ran c cwd) → runCommand c cwd w = (r, w') → journals ok w w'.
Proof.
  intros Hok (_ & Hj & _)%runCommand_inv. exists [Ran c cwd].
  split; [done|]. by constructor.
Qed.

Lemma journals_writeFile (ok : event → Prop) p c w r w' :
  ok (Wrote p c) → writeFile p c w = (r, w') → journals ok w w'.
Proof.
  intros Hok (_ & _ & Hj & _)%writeFile_inv. exists [Wrote p c].
  split; [done|]. by constructor.
Qed.

Global Instance same_broken_po : PreOrder same_broken.
Proof.
  split; unfold same_broken; [by intros ?|]. intros ??? H1 H2. congruence.
Qed.

Lemma strip_None_under (dir k : list string) : ¬ under dir k ↔ strip dir k = None.
Proof.
  unfold under. destruct (strip dir k); split; try done.
  intros H. destruct H. by eexists.
Qed.

Lemma name_matches_under (name : string) (root k : list string) :
  name_matches name root k = true → under root k.
Proof. unfold name_matches, under. by destruct (strip root k). Qed.

Lemma delete_file_lookup (k k' : list string) (f : list (list string * node)) :
  delete_file k' f !! k = if path_eqb k k' then None else f !! k.
Proof.
  unfold delete_file. rewrite lookup_keep.
  destruct (path_eqb k k') eqn:E.
  - apply path_eqb_eq in E as ->. by rewrite path_eqb_refl.
  - destruct (path_eqb k' k) eqn:E'; [|done].
    apply path_eqb_eq in E' as ->. by rewrite path_eqb_refl in E.
Qed.

Lemma not_touches c cwd (k : list string) :
  ¬ touches c cwd k ↔ reach c cwd k = false.
Proof. unfold touches. by destruct (reach c cwd k). Qed.

Lemma is_under_true (dir k : list string) : is_under dir k = true ↔ under dir k.
Proof.
  unfold is_under, under. destruct (strip dir k); split; try done.
Qed.

(** A command changes the filesystem only where it [touches]. *)
Lemma exec_outside c cwd now (f : list (list string * node)) (k : list string) :
  ¬ touches c cwd k → (exec c cwd now f).2 !! k = f !! k.
Proof.
  intros H%not_touches.
  destruct c as [dir ref|src dst|dir name|path|dir deb|path| |path];
    cbn [exec reach snd] in *; try done.
  - apply rsync_outside. unfold is_under in H. by destruct (strip _ k).
  - rewrite find_remove_lookup.
    destruct (name_matches name (path_of dir) k) eqn:E; [|done].
    apply name_matches_under, is_under_true in E. congruence.
  - unfold rm_f. destruct (f !! path_of path) as [[]|]; [|done..].
    by rewrite delete_file_lookup, H.
  - unfold dpkg_deb. destruct (f !! _) as [[]|]; [|done..].
    by rewrite lookup_insert_file, H.
  - unfold rm_rf. rewrite lookup_keep. unfold is_under in H.
    by destruct (strip _ k).
  - apply orb_false_iff in H as [H1 H2].
    unfold gzip. destruct (f !! path_of path) as [[]|]; [|done..].
    by rewrite lookup_insert_file, delete_file_lookup, H1, H2.
Qed.

Lemma confine_outside (inside : list string → bool)
  (f' f : list (list string * node)) (k : list string) :
  inside k = false → confine inside f' f !! k = f !! k.
Proof.
  intros H. unfold confine. by rewrite lookup_app, !lookup_keep, H.
Qed.

Lemma runCommand_outside c cwd w r w' (k : list string) :
  runCommand c cwd w = (r, w') → ¬ touches c cwd k → fs w' !! k = fs w !! k.
Proof.
  intros (_ & _ & _ & [(_ & _ & ->)|(_ & _ & ->)])%runCommand_inv Hk.
  - destruct (fails (broken w) c); [|by apply exec_outside].
    by apply confine_outside, not_touches.
  - by apply exec_outside.
Qed.


Lemma runCommand_later c cwd w r w' : runCommand c cwd w = (r, w') → later w w'.
Proof.
  unfold runCommand, later. destruct (fails (broken w) c); [by intros [= <- <-]|].
  destruct (exec c cwd (clock w) (fs w)). intros [= <- <-]. simpl. lia.
Qed.

Lemma runCommand_escapes {c cwd w e w'} :
  runCommand c cwd w = (Raise e, w') → escapes e.
Proof. intros ->%runCommand_raises. right; right. by eexists. Qed.

Lemma sat_for_each_in (R : relation state) `{!PreOrder R} {A} E
  (xs : list A) (body : A → M unit) :
  (∀ x, x ∈ xs → sat R E (body x)) → sat R E (for_each xs body).
Proof.
  induction xs as [|x xs IH]; intros Hb; simpl; [apply (sat_ret R)|].
  apply (sat_bind R); [apply Hb; by left|]. intros _.
  apply IH. intros y Hy. apply Hb. by right.
Qed.

Section Precise.
Context (R : relation state) `{!PreOrder R}.
Context (cfg : config) (P : string → Prop).

Hypothesis R_out : ∀ e w, is_out e = true → R w (record e w).

Lemma sat_command (ok : command → option string → Prop) c cwd :
  (∀ c cwd w r w', ok c cwd → runCommand c cwd w = (r, w') → R w w') →
  ok c cwd → sat R escapes (runCommand c cwd).
Proof.
  intros HR Hc w r w' H. split; [by eapply HR|].
  intros e ->. exact (runCommand_escapes H).
Qed.

Lemma listdir_sat p : sat R escapes (listdir p).
Proof.
  intros w r w'. unfold listdir.
  destruct (lookup_path p w) as [[]|]; intros [= <- <-]; (split; [reflexivity|]);
    intros ? [= <-]; right; left; by eexists.
Qed.

Lemma readFile_sat p : sat R escapes (readFile p).
Proof.
  intros w r w'. unfold readFile.
  destruct (lookup_path p w) as [[]|]; intros [= <- <-]; (split; [reflexivity|]);
    intros ? [= <-]; right; left; by eexists.
Qed.

Section Build.
Hypothesis R_control : ∀ p c w r w',
  P p → writeFile (getControlFilePath cfg p) c w = (r, w') → R w w'.
Hypothesis R_builds : ∀ p c cwd w r w',
  P p → builds cfg p c cwd → runCommand c cwd w = (r, w') → R w w'.

Lemma incrementPackageVersion_sat p :
  P p →
  sat R (λ e, escapes e ∨ e = PackageProblemOkToContinue)
    (incrementPackageVersion cfg p).
Proof.
  intros Hp. unfold incrementPackageVersion.
  apply (sat_bind R); [apply (sat_exists_ R)|]. intros present.
  destruct present; simpl.
  - apply (sat_bind R).
    { eapply (sat_weaken R), readFile_sat. by left. }
    intros content.
    destruct (Version.bump (chars content)) as [[]|[[cur next] s']] eqn:Hb.
    + apply (sat_raise R). left. by left.
    + by apply bump_number in Hb.
    + apply (sat_bind R); [by apply (sat_put R)|]. intros _.
      intros w r w' H. split; [by eapply R_control|].
      intros e ->. by apply writeFile_inv in H as ([=] & _).
  - apply (sat_bind R); [by apply (sat_put R)|]. intros _.
    apply (sat_raise R). by right.
Qed.

Lemma build_command_sat p c cwd :
  P p → builds cfg p c cwd → sat R escapes (runCommand c cwd).
Proof.
  intros Hp Hc. apply (sat_command (builds cfg p)); [|done].
  intros ?????. by apply R_builds.
Qed.

Lemma createWorkingDir_sat p : P p → sat R escapes (createWorkingDir cfg p).
Proof.
  intros Hp. unfold createWorkingDir.
  apply (sat_bind R); [by apply (sat_put R)|]. intros _.
  apply (sat_bind R); [apply (build_command_sat p); [done|constructor]|].
  intros _. apply (sat_for_each_in R). intros name Hn.
  apply (sat_bind R); [apply (build_command_sat p); [done|by constructor]|].
  intros _. apply (sat_ret R).
Qed.

Lemma buildDebFile_sat p : P p → sat R escapes (buildDebFile cfg p).
Proof.
  intros Hp. unfold buildDebFile.
  apply (sat_bind R); [by apply (sat_indent R)|]. intros _.
  apply (sat_bind R); [apply (build_command_sat p); [done|constructor]|].
  intros _.
  apply (sat_bind R); [apply (build_command_sat p); [done|constructor]|].
  intros _. by apply (sat_unIndent R).
Qed.

Lemma removeWorkingDir_sat p : P p → sat R escapes (removeWorkingDir cfg).
Proof.
  intros Hp. unfold removeWorkingDir.
  apply (sat_bind R); [by apply (sat_put R)|]. intros _.
  apply (sat_bind R); [apply (build_command_sat p); [done|constructor]|].
  intros _. apply (sat_ret R).
Qed.

Lemma after_bump_sat p :
  P p →
  sat R escapes
    (createWorkingDir cfg p;; buildDebFile cfg p;; removeWorkingDir cfg).
Proof.
  intros Hp.
  apply (sat_bind R); [by apply createWorkingDir_sat|]. intros _.
  apply (sat_bind R); [by apply buildDebFile_sat|]. intros _.
  by apply (removeWorkingDir_sat p).
Qed.

Lemma buildPackage_sat p : P p → sat R escapes (buildPackage cfg p).
Proof.
  intros Hp. unfold buildPackage.
  apply (sat_try_except R (λ e, escapes e ∨ e = PackageProblemOkToContinue)).
  - apply (sat_bind R); [by apply incrementPackageVersion_sat|]. intros _.
    eapply (sat_weaken R), after_bump_sat; [|done]. by left.
  - by apply (sat_put R).
  - by intros e [?|?] ?.
Qed.

Lemma buildPackages_body_sat x :
  P (stripDeb x) → sat R escapes (buildPackages_body cfg x).
Proof.
  intros Hp. unfold buildPackages_body.
  apply (sat_bind R); [by apply (sat_indent R)|]. intros _.
  apply (sat_bind R); [by apply buildPackage_sat|]. intros _.
  apply (sat_bind R); [by apply (sat_unIndent R)|]. intros _.
  by apply (sat_put R).
Qed.

Lemma buildPackages_run w r w' :
  (∀ x, x ∈ packageList w → P (stripDeb x)) →
  buildPackages cfg w = (r, w') →
  R w w' ∧ ∀ e, r = Raise e → escapes e.
Proof.
  intros HP H. rewrite buildPackages_unfold in H.
  refine (sat_for_each_in R escapes _ _ _ _ _ _ H).
  intros x Hx. apply buildPackages_body_sat. by apply HP.
Qed.

End Build.

Section Select.
Hypothesis R_push : ∀ p w, R w (push_package p w).
Hypothesis R_queries : ∀ p c cwd w r w',
  queries cfg p c cwd → runCommand c cwd w = (r, w') → R w w'.

Lemma needToRebuildPackage_sat p : sat R escapes (needToRebuildPackage cfg p).
Proof.
  unfold needToRebuildPackage.
  apply (sat_bind R); [apply (sat_exists_ R)|]. intros present.
  destruct present; simpl; [|apply (sat_ret R)].
  apply (sat_bind R); [|intros ?; apply (sat_ret R)].
  apply (sat_command (queries cfg p)); [|constructor].
  intros ?????. by apply R_queries.
Qed.

Lemma addAllPackagesToList_sat force :
  sat R escapes (addAllPackagesToList cfg force).
Proof.
  unfold addAllPackagesToList, addAllPackagesToList_with.
  apply (sat_bind R); [apply listdir_sat|]. intros packages.
  apply (sat_for_each R). intros p.
  apply (sat_bind R).
  { destruct force; [apply (sat_ret R)|apply needToRebuildPackage_sat]. }
  intros [|]; [|by apply (sat_put R)].
  apply (sat_bind R); [apply (sat_isdir R)|]. intros d.
  apply (sat_bind R).
  { destruct d; [apply (sat_exists_ R)|apply (sat_ret R)]. }
  intros [|]; [|apply (sat_ret R)].
  apply (sat_modify R). intros w. apply R_push.
Qed.

Lemma selectPackages_sat a : sat R escapes (selectPackages cfg a).
Proof.
  unfold selectPackages, selectPackages_with.
  destruct (all a); [apply addAllPackagesToList_sat|].
  destruct (given a); [|apply addAllPackagesToList_sat].
  apply (sat_modify R). intros w. apply R_push.
Qed.

End Select.

Section Index.
Hypothesis R_index : ∀ c w r w',
  writeFile (getPackageInfoUncompressedFilename cfg) c w = (r, w') → R w w'.
Hypothesis R_indexes : ∀ c cwd w r w',
  indexes cfg c cwd → runCommand c cwd w = (r, w') → R w w'.

Lemma refreshAptRepository_sat : sat R escapes (refreshAptRepository cfg).
Proof.
  unfold refreshAptRepository.
  apply (sat_bind R); [apply (sat_gets R)|]. intros l.
  destruct (length l =? 0); [by apply (sat_put R)|].
  apply (sat_bind R); [by apply (sat_put R)|]. intros _.
  apply (sat_bind R); [by apply (sat_command (indexes cfg)); [|constructor]|].
  intros info.
  apply (sat_bind R).
  { intros w r w' H. split; [by eapply R_index|].
    intros e ->. by apply writeFile_inv in H as ([=] & _). }
  intros _.
  apply (sat_bind R); [by apply (sat_command (indexes cfg)); [|constructor]|].
  intros _. apply (sat_ret R).
Qed.

End Index.

(** A whole run, with the packages of the list it ends with in [P]. *)
Lemma doRunSteps_run a w r w' :
  (∀ p w, R w (push_package p w)) →
  (∀ p c cwd w r w',
     queries cfg p c cwd → runCommand c cwd w = (r, w') → R w w') →
  (∀ p c w r w',
     P p → writeFile (getControlFilePath cfg p) c w = (r, w') → R w w') →
  (∀ p c cwd w r w',
     P p → builds cfg p c cwd → runCommand c cwd w = (r, w') → R w w') →
  (∀ c w r w',
     writeFile (getPackageInfoUncompressedFilename cfg) c w = (r, w') → R w w') →
  (∀ c cwd w r w',
     indexes cfg c cwd → runCommand c cwd w = (r, w') → R w w') →
  doRunSteps cfg a w = (r, w') →
  (∀ x, x ∈ packageList w' → P (stripDeb x)) →
  R w w' ∧ ∀ e, r = Raise e → escapes e.
Proof.
  intros Hpush Hq Hc Hb Hi Hx H HP.
  apply doRunSteps_inv in H
    as [(e & Hs & ->)|(ws & Hs & [(e & Hbuild & ->)|(wb & Hbuild & Hr)])].
  - exact (selectPackages_sat Hpush Hq a _ _ _ Hs).
  - destruct (selectPackages_sat Hpush Hq a _ _ _ Hs) as [R1 _].
    assert (∀ x, x ∈ packageList ws → P (stripDeb x)) as HP'.
    { intros x Hin. apply HP.
      by rewrite (buildPackages_same_list _ _ _ _ Hbuild). }
    destruct (buildPackages_run Hc Hb ws _ w' HP' Hbuild) as [R2 E2].
    split; [by etrans|done].
  - destruct (selectPackages_sat Hpush Hq a _ _ _ Hs) as [R1 _].
    assert (∀ x, x ∈ packageList ws → P (stripDeb x)) as HP'.
    { intros x Hin. apply HP.
      rewrite (refreshAptRepository_same_list _ _ _ _ Hr).
      by rewrite (buildPackages_same_list _ _ _ _ Hbuild). }
    destruct (buildPackages_run Hc Hb ws _ wb HP' Hbuild) as [R2 _].
    destruct (refreshAptRepository_sat Hi Hx _ _ _ Hr) as [R3 E3].
    split; [|done]. etrans; [exact R1|]. by etrans.
Qed.

End Precise.

(** ** Where the paths of the methods lie *)

Lemma append_assoc (a b c : string) : (a +:+ b) +:+ c = a +:+ b +:+ c.
Proof.
  rewrite <-(text_chars ((a +:+ b) +:+ c)), <-(text_chars (a +:+ b +:+ c)).
  by rewrite !chars_app, app_assoc.
Qed.

Section Places.
Context (cfg : config).

Lemma path_of_index :
  path_of (getPackageInfoUncompressedFilename cfg)
  = path_of (debsDir cfg) ++ ["Packages"].
Proof.
  unfold getPackageInfoUncompressedFilename. rewrite path_of_slash; [done|].
  by repeat constructor.
Qed.

Lemma path_of_index_gz :
  path_of (getPackageInfoUncompressedFilename cfg +:+ ".gz")
  = path_of (debsDir cfg) ++ ["Packages.gz"].
Proof.
  unfold getPackageInfoUncompressedFilename.
  rewrite !append_assoc. rewrite path_of_slash; [done|].
  by repeat constructor.
Qed.

Lemma index_gz_ne :
  path_of (getPackageInfoUncompressedFilename cfg +:+ ".gz")
  ≠ path_of (getPackageInfoUncompressedFilename cfg).
Proof. rewrite path_of_index, path_of_index_gz. by intros [=]%app_inv_head. Qed.

(** The commands of the steps after the bump stay within
    [packaging_touches]. *)
Lemma builds_touches p c cwd (k : list string) :
  builds cfg p c cwd → touches c cwd k → packaging_touches cfg p k.
Proof.
  unfold packaging_touches, archive_path, touches.
  destruct 1; cbn [reach]; rewrite ?is_under_true, ?path_eqb_eq; auto.
Qed.



End Places.

(** ** The selection loop *)

Section Selection.
Context (cfg : config).

Lemma is_package_fs p w1 w2 : fs w1 = fs w2 → is_package cfg p w1 = is_package cfg p w2.
Proof.
  intros E. unfold is_package, isdir, exists_, gets, lookup_path. simpl.
  by rewrite E.
Qed.

Lemma needToRebuildPackage_fs p w1 w2 :
  fs w1 = fs w2 → broken w1 = broken w2 →
  (needToRebuildPackage cfg p w1).1 = (needToRebuildPackage cfg p w2).1.
Proof.
  intros E Eb.
  unfold needToRebuildPackage, exists_, gets, lookup_path, mbind, M_bind, bind.
  rewrite E. destruct (fs w2 !! _); simpl; [|done].
  unfold runCommand. rewrite Eb.
  destruct (broken w2 _); [done|]. cbn [exec]. by rewrite E.
Qed.

Lemma is_stale_fs p w1 w2 :
  fs w1 = fs w2 → broken w1 = broken w2 → is_stale cfg p w1 = is_stale cfg p w2.
Proof.
  intros E Eb. unfold is_stale. by rewrite (needToRebuildPackage_fs p w1 w2 E Eb).
Qed.

Lemma needToRebuildPackage_keeps p w r w' :
  needToRebuildPackage cfg p w = (r, w') →
  fs w' = fs w ∧ broken w' = broken w ∧ packageList w' = packageList w.
Proof.
  unfold needToRebuildPackage.
  intros [(present & w0 & [= <- <-] & H)|(e & [=] & _)]%bind_inv.
  destruct (negb _); [by injection H as <- <-|].
  apply bind_inv in H as [(out & w1 & H & [= <- <-])|(e & H & ->)];
    (split; [by eapply runCommand_query, H|]);
    by apply runCommand_inv in H as (Hl & _ & Hb & _).
Qed.

Lemma is_package_eq p w :
  is_package cfg p w
  = match lookup_path (codeSourceDir cfg +:+ "/" +:+ p) w with
    | Some (Dir _) =>
        match lookup_path (getControlFilePath cfg p) w with
        | Some _ => true
        | None => false
        end
    | _ => false
    end.
Proof.
  unfold is_package, isdir, exists_, gets. cbn [fst].
  destruct (lookup_path (codeSourceDir cfg +:+ "/" +:+ p) w) as [[]|]; [done| |done].
  by destruct (lookup_path (getControlFilePath cfg p) w).
Qed.

Lemma selection_body_Ok force p w w' :
  selection_body cfg force p w = (Ok (), w') →
  fs w' = fs w ∧ broken w' = broken w
  ∧ packageList w'
    = packageList w
        ++ (if (force || is_stale cfg p w) && is_package cfg p w then [p] else []).
Proof.
  unfold selection_body.
  intros [(go & w0 & H0 & H)|(e & _ & [=])]%bind_inv.
  assert (fs w0 = fs w ∧ broken w0 = broken w ∧ packageList w0 = packageList w
          ∧ go = force || is_stale cfg p w) as (Hf & Hb & Hl & ->).
  { destruct force.
    - by injection H0 as <- <-.
    - pose proof (needToRebuildPackage_keeps _ _ _ _ H0) as (? & ? & ?).
      split_and!; try done. unfold is_stale. rewrite H0. by destruct go. }
  destruct (force || is_stale cfg p w); cbn [andb].
  - rewrite <-(is_package_fs p w0 w Hf), is_package_eq.
    apply bind_inv in H as [(d & w1 & [= <- <-] & H)|(e & [=] & _)].
    destruct (lookup_path (codeSourceDir cfg +:+ "/" +:+ p) w0) as [[c t|t]|].
    + apply bind_inv in H as [(ok & w1 & [= <- <-] & H)|(e & [=] & _)].
      injection H as <-. by rewrite app_nil_r.
    + apply bind_inv in H as [(ok & w1 & [= <- <-] & H)|(e & [=] & _)].
      destruct (lookup_path (getControlFilePath cfg p) w0).
      * injection H as <-. simpl. by rewrite Hl.
      * injection H as <-. by rewrite app_nil_r.
    + apply bind_inv in H as [(ok & w1 & [= <- <-] & H)|(e & [=] & _)].
      injection H as <-. by rewrite app_nil_r.
  - injection H as <-. simpl. by rewrite app_nil_r.
Qed.

Lemma select_loop_Ok force (l : list string) w0 w w' :
  fs w = fs w0 → broken w = broken w0 →
  for_each l (selection_body cfg force) w = (Ok (), w') →
  fs w' = fs w0 ∧ broken w' = broken w0
  ∧ packageList w'
    = packageList w
        ++ List.filter (λ p, (force || is_stale cfg p w0) && is_package cfg p w0) l.
Proof.
  revert w. induction l as [|p l IH]; intros w Hf Hb; simpl.
  - intros [= <-]. by rewrite app_nil_r.
  - intros [([] & w1 & H1 & H)|(e & _ & [=])]%bind_inv.
    apply selection_body_Ok in H1 as (Hf1 & Hb1 & Hl1).
    destruct (IH w1) as (Hf' & Hb' & Hl'); [congruence|congruence|done|].
    split_and!; [done|done|].
    rewrite Hl', Hl1, <-app_assoc. f_equal.
    rewrite (is_stale_fs p w w0 Hf Hb), (is_package_fs p w w0 Hf).
    by destruct ((force || is_stale cfg p w0) && is_package cfg p w0).
Qed.

Lemma selection_body_forced p w :
  selection_body cfg true p w
  = (Ok (), if is_package cfg p w then push_package p w else w).
Proof.
  rewrite is_package_eq. unfold selection_body.
  unfold mbind, M_bind, bind, mret, M_ret, ret, isdir, exists_, gets, modify.
  destruct (lookup_path (codeSourceDir cfg +:+ "/" +:+ p) w) as [[c t|t]|];
    [done| |done].
  by destruct (lookup_path (getControlFilePath cfg p) w).
Qed.

Lemma addAllPackagesToList_unfold force w :
  addAllPackagesToList cfg force w
  = (packages ← listdir (codeSourceDir cfg);
     for_each (merge_sort String.le packages) (selection_body cfg force)) w.
Proof. reflexivity. Qed.

End Selection.

Lemma StronglySorted_filter {A} (R : relation A) (f : A → bool) (l : list A) :
  StronglySorted R l → StronglySorted R (List.filter f l).
Proof.
  induction 1 as [|x l Hl IH Hx]; simpl; [constructor|].
  destruct (f x); [|done]. constructor; [done|].
  apply Forall_forall. intros y Hy%list_elem_of_In%filter_In.
  eapply Forall_forall in Hx; [done|]. apply list_elem_of_In. tauto.
Qed.

(** ** The steps of a build, on the filesystem *)

Section BuildSteps.
Context (cfg : config).

Lemma is_absolute_app (a b : string) :
  is_absolute a = true → is_absolute (a +:+ b) = true.
Proof. destruct a; [done|]. intros H. exact H. Qed.

(** With the directory of the archives given as an absolute path,
    [dpkg-deb], run there, sees the paths as every other command. *)
Lemma resolve_absolute (q : string) :
  is_absolute (debsDir cfg) = true →
  resolve (Some (debsDir cfg)) (debsDir cfg +:+ q) = path_of (debsDir cfg +:+ q).
Proof. intros H. unfold resolve. by rewrite is_absolute_app. Qed.

Lemma archive_path_absolute p (k : list string) :
  is_absolute (debsDir cfg) = true →
  archive_path cfg p k ↔ k = path_of (getDebFileFullPath cfg p).
Proof.
  intros H. unfold archive_path, getDebFileFullPath.
  rewrite (resolve_absolute _ H). tauto.
Qed.

Lemma dpkg_deb_made (dir deb : list string) (now : N)
  (f : list (list string * node)) :
  dpkg_deb_ok dir f = true →
  ∃ archive, dpkg_deb dir deb now f = insert_file deb (File archive now) f.
Proof.
  unfold dpkg_deb_ok, dpkg_deb. destruct (f !! _) as [[c t|t]|]; [|done..].
  by exists c.
Qed.

Lemma buildDebFile_Ok p w w' :
  is_absolute (debsDir cfg) = true →
  buildDebFile cfg p w = (Ok (), w') →
  (∃ archive,
     fs w'
     = insert_file (path_of (getDebFileFullPath cfg p))
         (File archive (clock w + 1)%N)
         (rm_f (getDebFileFullPath cfg p) (fs w)))
  ∧ broken w' = broken w.
Proof.
  intros Habs. unfold buildDebFile.
  intros [([] & w0 & [= <-] & H)|(e & _ & [=])]%bind_inv.
  apply bind_inv in H as [(o1 & w1 & H1 & H)|(e & _ & [=])].
  apply bind_inv in H as [(o2 & w2 & H2 & [= <-])|(e & _ & [=])].
  pose proof (runCommand_Ok _ _ _ _ _ H2) as Hok. cbn [succeeds] in Hok.
  assert (clock w1 = clock w + 1)%N as Hc1.
  { unfold runCommand in H1. destruct (fails _ _); [done|].
    destruct (exec _ _ _ _). by destruct (succeeds _ _ _); injection H1 as _ <-. }
  apply runCommand_inv in H1 as (_ & _ & Hb1 & [(_ & [=] & _)|(_ & _ & Hf1)]).
  apply runCommand_inv in H2 as (_ & _ & Hb2 & [(_ & [=] & _)|(_ & _ & Hf2)]).
  cbn [exec snd record fs clock broken] in Hf1, Hf2, Hb1.
  cbn [record fs broken]. split; [|congruence].
  destruct (dpkg_deb_made _ (resolve (Some (debsDir cfg)) (getDebFileFullPath cfg p))
              (clock w1) _ Hok) as [archive Hd].
  exists archive. rewrite Hf2, Hd, Hf1, Hc1. unfold getDebFileFullPath.
  by rewrite (resolve_absolute _ Habs).
Qed.

Lemma createWorkingDir_later p w r w' :
  createWorkingDir cfg p w = (r, w') → later w w'.
Proof.
  intros H.
  refine (proj1 (sat_createWorkingDir later cfg _ _ _ _ _ _ H)).
  - intros e w0 _. unfold later. simpl. lia.
  - intros c cwd w0 r0 w0' _. apply runCommand_later.
Qed.

Lemma createWorkingDir_same_broken p w r w' :
  createWorkingDir cfg p w = (r, w') → broken w' = broken w.
Proof.
  intros H.
  refine (proj1 (sat_createWorkingDir same_broken cfg _ _ _ _ _ _ H)).
  - done.
  - by intros c cwd w0 r0 w0' _ (_ & _ & ? & _)%runCommand_inv.
Qed.

Lemma removeWorkingDir_Ok_fs w w' :
  removeWorkingDir cfg w = (Ok (), w') →
  fs w' = rm_rf (getWorkingDirFullPath cfg) (fs w) ∧ broken w' = broken w.
Proof.
  unfold removeWorkingDir.
  intros [([] & w1 & [= <-] & H)|(e & _ & [=])]%bind_inv.
  apply bind_inv in H as [(out & w2 & H & [= <-])|(e & _ & [=])].
  by apply runCommand_inv in H as (_ & _ & ? & [(_ & [=] & _)|(_ & _ & Hfs)]).
Qed.

(** The steps after the bump change the archive and the staging
    directory only. *)
Lemma after_bump_outside p :
  (∀ e w, is_out e = true → outside (packaging_touches cfg p) w (record e w))
  ∧ (∀ q c cwd w r w',
       q = p → builds cfg q c cwd → runCommand c cwd w = (r, w') →
       outside (packaging_touches cfg p) w w').
Proof.
  split; [by intros e w _ k _|].
  intros q c cwd w r w' -> Hc Hrun k Hk.
  apply (runCommand_outside _ _ _ _ _ _ Hrun). intros Ht. apply Hk.
  by apply (builds_touches cfg p c cwd).
Qed.

(** A build that got past the skip, step by step. *)
Lemma buildPackage_built p w w' :
  is_absolute (debsDir cfg) = true →
  is_Some (lookup_path (getControlFilePath cfg p) w) →
  buildPackage cfg p w = (Ok (), w') →
  ∃ content t0 cur next content' w1 w2 archive,
    lookup_path (getControlFilePath cfg p) w = Some (File content t0)
    ∧ Version.bump (chars content) = inr (cur, next, content')
    ∧ fs w1 = insert_file (path_of (getControlFilePath cfg p))
                (File (text content') (clock w)) (fs w)
    ∧ (clock w < clock w2 + 1)%N
    ∧ outside (packaging_touches cfg p) w1 w2
    ∧ fs w'
      = rm_rf (getWorkingDirFullPath cfg)
          (insert_file (path_of (getDebFileFullPath cfg p))
             (File archive (clock w2 + 1)%N)
             (rm_f (getDebFileFullPath cfg p) (fs w2)))
    ∧ broken w' = broken w.
Proof.
  intros Habs [n Hn] Hb.
  apply buildPackage_Ok_inv in Hb as [[Hc _]|(w1 & w2 & w3 & H1 & H2 & H3 & H4)];
    [by rewrite Hc in Hn|].
  destruct (after_bump_outside p) as [Rout Rb].
  rewrite (incrementPackageVersion_present cfg p w n Hn) in H1.
  destruct n as [content t0|t0]; [|done].
  destruct (Version.bump (chars content)) as [[]|[[cur next] s']] eqn:Hbump;
    [done|done|].
  assert (clock w1 = clock w + 1)%N as Hc1 by by injection H1 as <-.
  apply writeFile_inv in H1 as (_ & _ & _ & Hb1 & Hf1).
  cbn [record clock fs] in Hf1. cbn [record broken] in Hb1.
  pose proof (createWorkingDir_later _ _ _ _ H2) as Hc2. unfold later in Hc2.
  pose proof (createWorkingDir_same_broken _ _ _ _ H2) as Hb2.
  pose proof (proj1 (createWorkingDir_sat (outside (packaging_touches cfg p))
                       cfg (λ q, q = p) Rout Rb p eq_refl _ _ _ H2)) as Ho2.
  apply (buildDebFile_Ok _ _ _ Habs) in H3 as ([archive Hf3] & Hb3).
  apply removeWorkingDir_Ok_fs in H4 as (Hf4 & Hb4).
  exists content, t0, cur, next, s', w1, w2, archive.
  split_and!; try done.
  - lia.
  - by rewrite Hf4, Hf3.
  - congruence.
Qed.

Lemma built_archive (dir deb : string) (n : node) (f : list (list string * node)) :
  ¬ under (path_of dir) (path_of deb) →
  rm_rf dir (insert_file (path_of deb) n f) !! path_of deb = Some n.
Proof.
  intros Hd. apply strip_None_under in Hd.
  unfold rm_rf. by rewrite lookup_keep, Hd, lookup_insert_file, path_eqb_refl.
Qed.

(** What the build leaves of the rest of the filesystem. *)
Lemma built_other p (f f2 : list (list string * node)) (n : node) (k : list string) :
  is_absolute (debsDir cfg) = true →
  (∀ k, ¬ packaging_touches cfg p k → f2 !! k = f !! k) →
  k ≠ path_of (getDebFileFullPath cfg p) →
  rm_rf (getWorkingDirFullPath cfg)
    (insert_file (path_of (getDebFileFullPath cfg p)) n
       (rm_f (getDebFileFullPath cfg p) f2)) !! k
  = match strip (path_of (getWorkingDirFullPath cfg)) k with
    | Some _ => None
    | None => f !! k
    end.
Proof.
  intros Habs Ho Hk. unfold rm_rf. rewrite lookup_keep.
  destruct (strip (path_of (getWorkingDirFullPath cfg)) k) eqn:Eu; [done|].
  rewrite lookup_insert_file, path_eqb_ne by done.
  unfold rm_f.
  assert (¬ packaging_touches cfg p k) as Hout.
  { intros [Ha|Hu]; [by apply (archive_path_absolute _ _ Habs) in Ha|].
    by apply strip_None_under in Eu. }
  destruct (f2 !! path_of (getDebFileFullPath cfg p)) as [[]|].
  - rewrite delete_file_lookup, path_eqb_ne by done. by apply Ho.
  - by apply Ho.
  - by apply Ho.
Qed.

(** *** A build that ends in the failure of the packaging tool *)

Lemma components_noslash cur t :
  "/"%char ∉ t → components cur t = flush (cur ++ t).
Proof.
  revert cur. induction t as [|c t IH]; intros cur Ht; simpl.
  - by rewrite app_nil_r.
  - apply not_elem_of_cons in Ht as [Hc Ht].
    destruct (Ascii.eqb_spec c "/") as [->|_]; [done|].
    by rewrite IH, <-app_assoc.
Qed.

Lemma flush_long l : 2 ≤ length l → flush l = [text l].
Proof. destruct l as [|a [|b l]]; simpl; [lia|lia|done]. Qed.

(** The last name of a path that ends in [t]. *)
Lemma components_last cur s t :
  "/"%char ∉ t → 2 ≤ length t →
  ∃ init u, components cur (s ++ t) = init ++ [text (u ++ t)].
Proof.
  intros Ht Hl. revert cur. induction s as [|c s IH]; intros cur; simpl.
  - exists [], cur. rewrite components_noslash by done.
    apply flush_long. rewrite length_app. lia.
  - destruct (Ascii.eqb c "/"); [|apply IH].
    destruct (IH []) as (init & u & ->).
    exists (flush cur ++ init), u. by rewrite app_assoc.
Qed.

Lemma walk_last start init x :
  x ≠ ".." → walk start (init ++ [x]) = walk start init ++ [x].
Proof.
  intros Hx. rewrite walk_app. generalize (walk start init). intros l.
  cbn [walk foldl]. unfold step_name. by destruct (String.eqb_spec x "..").
Qed.

Lemma deb_name_ne u :
  text (u ++ chars ".deb") ≠ ".."
  ∧ text (u ++ chars ".deb") ≠ WORKING_DIR_RELATIVE.
Proof.
  split; intros E; apply (f_equal chars) in E; rewrite chars_text in E.
  - apply (f_equal length) in E. rewrite length_app in E. simpl in E. lia.
  - apply (f_equal last) in E.
    change (chars ".deb") with (chars ".de" ++ ["b"%char]) in E.
    by rewrite app_assoc, last_snoc in E.
Qed.

(** The archive of a package is not the staging directory. *)
Lemma archive_path_last p (k : list string) :
  archive_path cfg p k → ∃ init u, k = init ++ [text (u ++ chars ".deb")].
Proof.
  assert (∃ init u, components [] (chars (getDebFileFullPath cfg p))
                    = init ++ [text (u ++ chars ".deb")]) as (init & u & Hc).
  { unfold getDebFileFullPath. rewrite !chars_app, !app_assoc.
    apply components_last; [|simpl; lia].
    intros H. repeat (apply elem_of_cons in H as [H|H]; [discriminate|]).
    by apply elem_of_nil in H. }
  assert (∀ start, walk start (components [] (chars (getDebFileFullPath cfg p)))
                   = walk start init ++ [text (u ++ chars ".deb")]) as Hw.
  { intros start. rewrite Hc. apply walk_last, deb_name_ne. }
  intros [-> | ->]; unfold resolve, path_of;
    [|destruct (is_absolute _)]; rewrite Hw; by eexists _, _.
Qed.

Lemma workingDir_not_archive p :
  ¬ archive_path cfg p (path_of (getWorkingDirFullPath cfg)).
Proof.
  intros (init & u & E)%archive_path_last. rewrite path_of_workingDir in E.
  apply app_inj_tail in E as [_ E]. symmetry in E. by apply deb_name_ne in E.
Qed.

(** A preparation that returned has made the staging directory. *)
Lemma createWorkingDir_Ok_root p w w' :
  createWorkingDir cfg p w = (Ok (), w') →
  ∃ t, fs w' !! path_of (getWorkingDirFullPath cfg) = Some (Dir t).
Proof.
  intros H. unfold createWorkingDir in H.
  apply bind_inv in H as [([] & w0 & [= <-] & H)|(e & _ & [=])].
  apply bind_inv in H as [(out & w1 & H1 & H)|(e & _ & [=])].
  pose proof (runCommand_Ok _ _ _ _ _ H1) as Hok. cbn [succeeds record fs] in Hok.
  apply runCommand_inv in H1 as (_ & _ & _ & [(_ & [=] & _)|(_ & _ & Hfs)]).
  destruct (rsync_ok_dir _ _ _ Hok) as [t Ht]. exists t.
  assert (fs w' !! (path_of (getWorkingDirFullPath cfg) ++ []) = Some (Dir t))
    as Hr; [|by rewrite app_nil_r in Hr].
  rewrite (remove_loop_fs _ _ _ _ H), find_remove_all_lookup.
  rewrite matches_under_workingDir. cbn [excluded existsb].
  rewrite Hfs. cbn [exec snd record fs clock].
  rewrite (rsync_lookup _ _ _ _ t Ht), strip_app.
  rewrite <-(app_nil_r (path_of (getSourceDirFullPath cfg p))) in Ht.
  rewrite Ht, (rsync_ok_not_in_the_way _ _ _ [] _ Hok Ht).
  done.
Qed.

Lemma createWorkingDir_no_teardown p w r w' :
  createWorkingDir cfg p w = (r, w') →
  journals (λ e, is_teardown e = false) w w'.
Proof.
  intros H. set (ok := λ e, is_teardown e = false).
  assert (sat (journals ok) any_exn (createWorkingDir cfg p)) as Hs;
    [|exact (proj1 (Hs _ _ _ H))].
  assert (∀ c cwd, ok (Ran c cwd) → sat (journals ok) any_exn (runCommand c cwd))
    as Hc.
  { intros c cwd Hc w0 r0 w0' H0. split; [by eapply journals_runCommand|done]. }
  unfold createWorkingDir.
  apply (sat_bind (journals ok)).
  { intros w0 r0 w0' [= <- <-]. split; [by apply journals_record|done]. }
  intros _. apply (sat_bind (journals ok)); [by apply Hc|]. intros _.
  apply (sat_for_each (journals ok)). intros name.
  apply (sat_bind (journals ok)); [by apply Hc|]. intros _.
  apply (sat_ret (journals ok)).
Qed.

Lemma incrementPackageVersion_raises p w e w' :
  incrementPackageVersion cfg p w = (Raise e, w') → ∀ c, e ≠ CommandFailed c.
Proof.
  destruct (lookup_path (getControlFilePath cfg p) w) as [n|] eqn:Hn.
  - rewrite (incrementPackageVersion_present cfg p w n Hn).
    destruct n as [content t|t]; [|by intros [= <- _]].
    destruct (Version.bump (chars content)) as [[]|[[cur next] c']];
      [by intros [= <- _]..|].
    by intros ([=] & _)%writeFile_inv.
  - rewrite (incrementPackageVersion_absent cfg p w Hn). by intros [= <- _].
Qed.

Lemma remove_loop_raises (dir : string) (names : list string) w e w' :
  for_each names (λ name, runCommand (FindRemove dir name) None;; mret ()) w
  = (Raise e, w') →
  ∃ name, e = CommandFailed (FindRemove dir name).
Proof.
  revert w. induction names as [|name names IH]; intros w; simpl; [done|].
  intros [([] & w1 & H1 & H)|(e' & H1 & [= <-])]%bind_inv; [by eapply IH|].
  apply bind_inv in H1 as [(out & w2 & _ & [=])|(e'' & H1 & [= <-])].
  apply runCommand_raises in H1 as ->. by exists name.
Qed.

Lemma createWorkingDir_raises p w e w' :
  createWorkingDir cfg p w = (Raise e, w') →
  ∀ d b, e ≠ CommandFailed (DpkgDeb d b).
Proof.
  unfold createWorkingDir.
  intros [([] & w0 & _ & H)|(e' & [=] & _)]%bind_inv.
  apply bind_inv in H as [(out & w1 & _ & H)|(e' & H & [= <-])].
  - by apply remove_loop_raises in H as [name ->].
  - by apply runCommand_raises in H as ->.
Qed.

(** The steps of a build that ends so. *)
Lemma buildPackage_packaging_failed p w w' :
  let deb := DpkgDeb (getWorkingDirFullPath cfg) (getDebFileFullPath cfg p) in
  buildPackage cfg p w = (Raise (CommandFailed deb), w') →
  ∃ w1 w2 w3 out,
    incrementPackageVersion cfg p w = (Ok (), w1)
    ∧ createWorkingDir cfg p w1 = (Ok (), w2)
    ∧ runCommand (RmF (getDebFileFullPath cfg p)) None
        (record (Indent "building .deb file") w2) = (Ok out, w3)
    ∧ runCommand deb (Some (debsDir cfg)) w3 = (Raise (CommandFailed deb), w').
Proof.
  intros deb. unfold buildPackage, try_except.
  destruct ((incrementPackageVersion cfg p;; createWorkingDir cfg p;;
             buildDebFile cfg p;; removeWorkingDir cfg) w)
    as [[[]|e] w0] eqn:Hm; [done|].
  intros He.
  assert (e = CommandFailed deb ∧ w0 = w') as [-> ->].
  { destruct e; try done; by injection He as -> ->. }
  clear He.
  apply bind_inv in Hm as [([] & w1 & H1 & Hm)|(e & H1 & [= <-])];
    [|by apply incrementPackageVersion_raises with (c := deb) in H1].
  apply bind_inv in Hm as [([] & w2 & H2 & Hm)|(e & H2 & [= <-])];
    [|by apply createWorkingDir_raises
           with (d := getWorkingDirFullPath cfg) (b := getDebFileFullPath cfg p)
        in H2].
  apply bind_inv in Hm as [([] & w3 & H3 & Hm)|(e & H3 & [= <-])].
  { unfold removeWorkingDir in Hm.
    apply bind_inv in Hm as [([] & w4 & _ & Hm)|(e & [=] & _)].
    apply bind_inv in Hm as [(out & w5 & _ & [=])|(e & Hm & He)].
    apply runCommand_raises in Hm as ->. by injection He. }
  unfold buildDebFile in H3.
  apply bind_inv in H3 as [([] & wi & [= <-] & H3)|(e & [=] & _)].
  apply bind_inv in H3 as [(out & w3 & Hrm & H3)|(e & Hrm & He)];
    [|apply runCommand_raises in Hrm as ->; by injection He].
  apply bind_inv in H3 as [(o2 & w4 & _ & [=])|(e & Hd & _)].
  pose proof (runCommand_raises _ _ _ _ _ Hd) as ->.
  by exists w1, w2, w3, out.
Qed.

End BuildSteps.

(** ** Facts for the examples *)

Lemma lookup_file_Forall (Q : node → Prop) (f : list (list string * node)) :
  Forall (λ kn, Q kn.2) f → ∀ k n, f !! k = Some n → Q n.
Proof.
  induction 1 as [|[k' n'] f Hq _ IH]; intros k n; [done|].
  rewrite lookup_cons. destruct (path_eqb k k'); [by intros [= <-]|apply IH].
Qed.

(** Nothing in the example tree is dated after the start. *)
Lemma tree_dated :
  Forall (λ kn : list string * node, (mtime_of kn.2 ≤ 10)%N) Examples.tree.
Proof.
  unfold Examples.tree.
  repeat (constructor; [cbn [mtime_of snd]; lia|]). constructor.
Qed.

(** * The claims *)

(** C1 (the code departs from it). A control file that exists and in
    which [re.search] finds no version makes [incrementPackageVersion]
    raise [AttributeError], which [buildPackage] does not catch: the
    control file is not touched, but the package is not skipped, and the
    loop stops there, with the packages after it in the list never
    built. The state at the end is the state at the start with the one
    line of output that opens the package. *)
Theorem missing_version_line_aborts_the_loop
  (cfg : config) (w : state) (p : string) (rest : list string)
  (content : string) (t : N) :
  packageList w = p :: rest →
  lookup_path (getControlFilePath cfg (stripDeb p)) w = Some (File content t) →
  search (concat versionPattern) (chars content) = None →
  buildPackages cfg w
  = (Raise AttributeError,
     record (Indent ("Building package " +:+ dq +:+ stripDeb p +:+ dq)) w).
Proof.
  intros Hl Hc Hb. rewrite buildPackages_unfold, Hl. cbn [for_each].
  apply bind_Raise. unfold buildPackages_body.
  rewrite (bind_Ok _ _ w () (record (Indent ("Building package " +:+ dq +:+ stripDeb p +:+ dq)) w))
    by done.
  apply bind_Raise. unfold buildPackage, try_except.
  rewrite (bind_Raise _ _ _ AttributeError
             (record (Indent ("Building package " +:+ dq +:+ stripDeb p +:+ dq)) w));
    [reflexivity|].
  erewrite incrementPackageVersion_present by exact Hc.
  apply bump_NoMatch in Hb. cbv beta iota. by rewrite Hb.
Qed.

Lemma missing_version_line_aborts_the_loop_witness :
  let w := push_package "beta" (push_package "alpha" (Examples.boot Examples.healthy)) in
  packageList w = ["alpha"; "beta"]
  ∧ lookup_path (getControlFilePath Examples.cfg (stripDeb "alpha")) w
    = Some (File Examples.control_alpha 2%N)
  ∧ search (concat versionPattern) (chars Examples.control_alpha) = None
  ∧ buildPackages Examples.cfg w
    = (Raise AttributeError,
       record (Indent ("Building package " +:+ dq +:+ stripDeb "alpha" +:+ dq)) w).
Proof.
  intros w. split; [run|]. split; [run|]. split; [run|].
  apply (missing_version_line_aborts_the_loop Examples.cfg w "alpha" ["beta"]
           Examples.control_alpha 2%N); run.
Defined.

(** C2 (amended). In a pass that runs to its end, the index is
    regenerated if and only if the process-wide list of selected
    packages is non-empty, whether those packages were built or skipped;
    when the list is empty the pass leaves the whole filesystem, the
    index with it, as it was. *)
Theorem index_regenerated_iff_packages_selected
  (cfg : config) (a : arguments) (w w' : state) :
  doRunSteps cfg a w = (Ok (), w') →
  ∃ evs, journal w' = journal w ++ evs
         ∧ (existsb is_scan evs = true ↔ packageList w' ≠ [])
         ∧ (packageList w' = [] → fs w' = fs w).
Proof.
  intros [(e & _ & [=])|(ws & Hs & [(e & _ & [=])|(wb & Hb & Hr)])]%doRunSteps_inv.
  pose proof (selectPackages_no_scan _ _ _ _ _ Hs) as (e1 & J1 & F1).
  pose proof (buildPackages_no_scan _ _ _ _ Hb) as (e2 & J2 & F2).
  pose proof (buildPackages_same_list _ _ _ _ Hb) as L2.
  pose proof (refreshAptRepository_same_list _ _ _ _ Hr) as L3.
  assert (existsb is_scan (e1 ++ e2) = false) as Hq.
  { apply not_true_iff_false. intros (e & Hin & He)%existsb_exists.
    apply list_elem_of_In, elem_of_app in Hin as [Hin|Hin].
    - eapply Forall_forall in F1; [|done]. by rewrite He in F1.
    - eapply Forall_forall in F2; [|done]. by rewrite He in F2. }
  apply refreshAptRepository_Ok_inv in Hr as [[Hl ->]|[Hl (info & J3)]].
  - eexists. split; [|split].
    + simpl. rewrite J2, J1, <-!app_assoc. reflexivity.
    + rewrite app_assoc, existsb_app, Hq. simpl. rewrite Hl. done.
    + intros _. simpl.
      assert (wb = ws) as ->.
      { rewrite buildPackages_unfold in Hb. rewrite <-L2, Hl in Hb. by injection Hb. }
      by apply selectPackages_same_fs in Hs.
  - eexists. split; [|split].
    + rewrite J3, J2, J1, <-!app_assoc. reflexivity.
    + rewrite app_assoc, existsb_app, Hq. simpl. rewrite L3. done.
    + intros Hn. by rewrite L3 in Hn.
Qed.

Lemma index_regenerated_iff_packages_selected_witness :
  let w := Examples.boot Examples.healthy in
  let a := Examples.explicit "beta" in
  let w' := Examples.after_run_beta in
  doRunSteps Examples.cfg a w = (Ok (), w')
  ∧ ∃ evs, journal w' = journal w ++ evs
           ∧ (existsb is_scan evs = true ↔ packageList w' ≠ [])
           ∧ (packageList w' = [] → fs w' = fs w).
Proof.
  intros w a w'.
  assert (doRunSteps Examples.cfg a w = (Ok (), w')) as H by run.
  split; [exact H|].
  exact (index_regenerated_iff_packages_selected Examples.cfg a w w' H).
Defined.

(** C2, as stated, fails: the one selected package has no control file
    and is skipped, the packaging tool never runs, and the index is
    regenerated all the same. *)
Lemma index_regenerated_though_nothing_built :
  let w := Examples.boot Examples.healthy in
  let a := Examples.explicit "gamma" in
  let w' := Examples.after_run_gamma in
  doRunSteps Examples.cfg a w = (Ok (), w')
  ∧ existsb is_packaging (journal w') = false
  ∧ journal w'
    = [ Indent ("Building package " +:+ dq +:+ "gamma" +:+ dq);
        Put "ERROR: no control file found for gamma";
        Put ("skipping package " +:+ dq +:+ "gamma" +:+ dq);
        UnIndent;
        Put ("done with " +:+ dq +:+ "gamma" +:+ dq);
        Put "rebuilding APT repository metadata";
        Ran ScanPackages (Some "/debs");
        Wrote "/debs/Packages"
          (Examples.control_beta +:+ "Filename: ./beta.deb"
             +:+ newline +:+ newline);
        Ran (Gzip "/debs/Packages") None ]
  ∧ lookup_path "/debs/Packages.gz" w = None
  ∧ lookup_path "/debs/Packages.gz" w'
    = Some (File ("gzip: " +:+ Examples.control_beta
                    +:+ "Filename: ./beta.deb" +:+ newline +:+ newline) 12%N).
Proof.
  intros w a w'. split; [run|]. split; [run|]. split; [run|]. split; run.
Qed.

(** C3 (amended). A package build that acquired the staging area and
    returned normally has torn it down: the staging directory does not
    exist when the build step ends. A build that ends in the failure of
    the packaging tool has not run the teardown: the bump and the
    preparation returned, no teardown is among the events of the build,
    and the filesystem is as the preparation left it everywhere but at
    the archive, so that the staging directory is still there. *)
Theorem staging_after_a_build
  (cfg : config) (p : string) (w w' : state) (r : result unit) :
  is_Some (lookup_path (getControlFilePath cfg p) w) →
  buildPackage cfg p w = (r, w') →
  (r = Ok () → lookup_path (getWorkingDirFullPath cfg) w' = None)
  ∧ (r = Raise (CommandFailed
                  (DpkgDeb (getWorkingDirFullPath cfg) (getDebFileFullPath cfg p))) →
     (∃ evs, journal w' = journal w ++ evs
             ∧ Forall (λ e, is_teardown e = false) evs)
     ∧ (∃ t, lookup_path (getWorkingDirFullPath cfg) w' = Some (Dir t))
     ∧ ∃ w1 w2,
         incrementPackageVersion cfg p w = (Ok (), w1)
         ∧ createWorkingDir cfg p w1 = (Ok (), w2)
         ∧ ∀ k, ¬ archive_path cfg p k → fs w' !! k = fs w2 !! k).
Proof.
  intros [n Hn] Hb. split; intros ->.
  - apply buildPackage_Ok_inv in Hb as [[Hc _]|(w1 & w2 & w3 & _ & _ & _ & H)].
    + by rewrite Hc in Hn.
    + by apply removeWorkingDir_Ok in H.
  - apply buildPackage_packaging_failed in Hb
      as (w1 & w2 & w3 & out & H1 & H2 & Hrm & Hd).
    assert (∀ k, ¬ archive_path cfg p k → fs w' !! k = fs w2 !! k) as Hfs.
    { intros k Hk.
      rewrite (runCommand_outside _ _ _ _ _ k Hd).
      - rewrite (runCommand_outside _ _ _ _ _ k Hrm); [done|].
        unfold touches. cbn [reach]. rewrite path_eqb_eq. intros ->.
        apply Hk. by left.
      - unfold touches. cbn [reach]. rewrite path_eqb_eq. intros ->.
        apply Hk. by right. }
    split_and!.
    + set (ok := λ e, is_teardown e = false).
      assert (journals ok w w1) as J1.
      { refine (proj1 (incrementPackageVersion_sat (journals ok) cfg (λ _, True)
                         _ _ p I _ _ _ H1)).
        - intros e w0 He. apply journals_record. by destruct e.
        - intros q c w0 r0 w0' _. by apply journals_writeFile. }
      pose proof (createWorkingDir_no_teardown _ _ _ _ _ H2) as J2.
      assert (journals ok w2 (record (Indent "building .deb file") w2)) as J3
        by by apply journals_record.
      assert (journals ok (record (Indent "building .deb file") w2) w3) as J4
        by (refine (journals_runCommand ok _ _ _ _ _ _ Hrm); reflexivity).
      assert (journals ok w3 w') as J5
        by (refine (journals_runCommand ok _ _ _ _ _ _ Hd); reflexivity).
      exact (transitivity J1 (transitivity J2 (transitivity J3
               (transitivity J4 J5)))).
    + destruct (createWorkingDir_Ok_root _ _ _ _ H2) as [t Ht]. exists t.
      unfold lookup_path. rewrite Hfs; [done|]. apply workingDir_not_archive.
    + by exists w1, w2.
Qed.

Lemma staging_after_a_build_witness :
  (let w := Examples.boot Examples.healthy in
   let w' := Examples.after_build_beta in
   is_Some (lookup_path (getControlFilePath Examples.cfg "beta") w)
   ∧ buildPackage Examples.cfg "beta" w = (Ok (), w')
   ∧ lookup_path (getWorkingDirFullPath Examples.cfg) w' = None)
  ∧ (let w := Examples.boot Examples.no_packaging in
     let w' := Examples.after_failed_build_beta in
     let deb := DpkgDeb (getWorkingDirFullPath Examples.cfg)
                  (getDebFileFullPath Examples.cfg "beta") in
     is_Some (lookup_path (getControlFilePath Examples.cfg "beta") w)
     ∧ buildPackage Examples.cfg "beta" w = (Raise (CommandFailed deb), w')
     ∧ (∃ evs, journal w' = journal w ++ evs
               ∧ Forall (λ e, is_teardown e = false) evs)
     ∧ ∃ t, lookup_path (getWorkingDirFullPath Examples.cfg) w' = Some (Dir t)).
Proof.
  split.
  - intros w w'.
    assert (is_Some (lookup_path (getControlFilePath Examples.cfg "beta") w)) as H1
      by (exists (File Examples.control_beta 2%N); run).
    assert (buildPackage Examples.cfg "beta" w = (Ok (), w')) as H2 by run.
    split; [exact H1|]. split; [exact H2|].
    exact (proj1 (staging_after_a_build Examples.cfg "beta" w w' (Ok ()) H1 H2)
             eq_refl).
  - intros w w' deb.
    assert (is_Some (lookup_path (getControlFilePath Examples.cfg "beta") w)) as H1
      by (exists (File Examples.control_beta 2%N); run).
    assert (buildPackage Examples.cfg "beta" w = (Raise (CommandFailed deb), w'))
      as H2 by run.
    split; [exact H1|]. split; [exact H2|].
    destruct (proj2 (staging_after_a_build Examples.cfg "beta" w w' _ H1 H2)
                eq_refl) as (Hj & Hd & _).
    split; [exact Hj|exact Hd].
Defined.

(** C3, as stated, fails: when the packaging tool fails, the build step
    ends by the exception, past [removeWorkingDir], and the staging
    directory it filled is still there. *)
Lemma staging_left_when_packaging_fails :
  let w := Examples.boot Examples.no_packaging in
  let deb := DpkgDeb (getWorkingDirFullPath Examples.cfg)
               (getDebFileFullPath Examples.cfg "beta") in
  let w' := Examples.after_failed_build_beta in
  buildPackage Examples.cfg "beta" w = (Raise (CommandFailed deb), w')
  ∧ existsb is_staging (journal w') = true
  ∧ existsb is_teardown (journal w') = false
  ∧ lookup_path "/debs/.workingDir/main.py" w' = Some (File "print 1" 5%N)
  ∧ lookup_path (getWorkingDirFullPath Examples.cfg) w' = Some (Dir 1%N).
Proof.
  intros w deb w'. split; [run|]. split; [run|]. split; [run|].
  split; run.
Qed.




(** C5 (amended). A successful bump rewrites every occurrence of
    [Version: ] followed by digits and dots, the label with its whole run
    of digits and dots, to the label and the new version, and keeps
    every other byte. When the text has exactly one occurrence, that one
    is rewritten and nothing else: what comes before and after is the
    input's, byte for byte, and the run it replaces begins with the old
    version. *)
Theorem bump_rewrites_occurrences
  (s : list ascii) (i : nat) (cur next s' : list ascii) :
  bump s = inr (cur, next, s') →
  each_rewritten (label ++ next) s s'
  ∧ (positions versionTextPattern s = [i] →
     ∃ pre run post,
       s = pre ++ label ++ run ++ post ∧ length pre = i
       ∧ within is_digit_or_dot run ∧ stops is_digit_or_dot post
       ∧ cur `prefix_of` run
       ∧ s' = pre ++ label ++ next ++ post).
Proof.
  intros Hb.
  pose proof Hb as (pre & X & g3 & r & n & Hs & HX & HXd & Hg & Hgd & Hr & Hn & Hcur & Hnext & Hs')%bump_inv.
  split; [rewrite Hs'; apply sub_each_rewritten|].
  intros Hpos.
  assert (∀ i', i' ≤ length s →
            is_Some (match_len versionTextPattern (drop i' s)) → i' = i) as Hu.
  { intros i' Hi' Hm.
    assert (i' ∈ positions versionTextPattern s) as Hin.
    { apply elem_of_positions_from. exists i'. by split_and!. }
    rewrite Hpos in Hin. by apply list_elem_of_singleton in Hin. }
  assert (length pre = i) as Hi.
  { apply Hu.
    - rewrite Hs, length_app. lia.
    - rewrite Hs, drop_app_length.
      destruct X as [|d X']; [done|]. apply Forall_cons in HXd as [Hd _].
      apply (text_match_intro d _ Hd). }
  assert (is_Some (match_len versionTextPattern (drop i s))) as [m Hm].
  { rewrite <-Hi, Hs, drop_app_length.
    destruct X as [|d X']; [done|]. apply Forall_cons in HXd as [Hd _].
    apply (text_match_intro d _ Hd). }
  pose proof Hm as (R & b & Hd & HR & HRd & Hbs & ->)%text_match_inv.
  assert (R ++ b = ((X ++ ["."%char]) ++ g3) ++ r) as HRb.
  { rewrite <-Hi, Hs, drop_app_length in Hd.
    apply app_inv_head in Hd. by rewrite <-Hd, <-!app_assoc. }
  exists pre, R, b. split_and!; try done.
  - rewrite Hs. do 2 f_equal. by rewrite HRb, <-!app_assoc.
  - rewrite Hcur. apply (prefix_of_run is_digit_or_dot _ r R b); [|done|done].
    apply Forall_app. split; [|by apply within_digit_dd].
    apply Forall_app. split; [done|]. by repeat constructor.
  - rewrite Hs'. rewrite (sub_unique _ _ _ i (8 + length R) Hu Hm).
    rewrite <-Hi, Hs at 1. rewrite take_app_length.
    rewrite <-!app_assoc. do 3 f_equal.
    rewrite <-drop_drop, Hd. change (S (8 + length R)) with (length L + length R).
    by rewrite <-length_app, app_assoc, drop_app_length.
Qed.

Lemma bump_rewrites_occurrences_witness :
  let s := chars "Package: x Version: 1.2.9 end" in
  let s' := chars "Package: x Version: 1.2.10 end" in
  bump s = inr (chars "1.2.9", chars "1.2.10", s')
  ∧ positions versionTextPattern s = [11]
  ∧ each_rewritten (label ++ chars "1.2.10") s s'
  ∧ ∃ pre run post,
      s = pre ++ label ++ run ++ post
      ∧ length pre = 11
      ∧ within is_digit_or_dot run ∧ stops is_digit_or_dot post
      ∧ chars "1.2.9" `prefix_of` run
      ∧ s' = pre ++ label ++ chars "1.2.10" ++ post.
Proof.
  intros s s'.
  assert (bump s = inr (chars "1.2.9", chars "1.2.10", s')) as H1 by reflexivity.
  assert (positions versionTextPattern s = [11]) as H2 by reflexivity.
  split; [exact H1|]. split; [exact H2|].
  destruct (bump_rewrites_occurrences s 11 (chars "1.2.9") (chars "1.2.10") s' H1)
    as [Hall Hone].
  split; [exact Hall|exact (Hone H2)].
Defined.

(** C5, as stated, fails: the substitution is global. A second
    occurrence of the label with a number, on a line the version pattern
    does not even match, is rewritten as well, so that a byte outside
    the version line has changed. *)
Lemma bump_rewrites_every_occurrence :
  bump (chars ("Version: 1.2.3" +:+ newline
               +:+ "Description: for Version: 7 boards" +:+ newline))
  = inr (chars "1.2.3", chars "1.2.4",
         chars ("Version: 1.2.4" +:+ newline
                +:+ "Description: for Version: 1.2.4 boards" +:+ newline))
  ∧ chars ("Description: for Version: 1.2.4 boards" +:+ newline)
    ≠ chars ("Description: for Version: 7 boards" +:+ newline).
Proof. split; [reflexivity|discriminate]. Qed.

(** C6. A bump adds one to the last component and keeps what precedes
    it: ["Version: 1.2.9"] gives old ["1.2.9"] and new ["1.2.10"], and
    the rewritten text gives ["1.2.11"]; in general the second of two
    successive bumps starts from the version the first one made and adds
    one again. *)
Theorem bump_increments_patch :
  (bump (chars "Version: 1.2.9")
   = inr (chars "1.2.9", chars "1.2.10", chars "Version: 1.2.10")
   ∧ bump (chars "Version: 1.2.10")
     = inr (chars "1.2.10", chars "1.2.11", chars "Version: 1.2.11"))
  ∧ ∀ s cur next s',
      bump s = inr (cur, next, s') →
      ∃ rest patch n,
        cur = rest ++ patch ∧ last rest = Some "."%char
        ∧ patch ≠ [] ∧ within is_digit patch ∧ int patch = Some n
        ∧ next = rest ++ str (n + 1)
        ∧ ∃ s'', bump s' = inr (next, rest ++ str (n + 2), s'').
Proof.
  split; [split; reflexivity|].
  intros s cur next s' Hb.
  apply bump_again in Hb as (X & g3 & n & -> & Hg & Hgd & Hn & -> & Hb).
  exists (X ++ ["."%char]), g3, n. split_and!; try done.
  - by rewrite last_snoc.
  - by eexists.
Qed.

Lemma bump_increments_patch_witness :
  bump (chars "Version: 0.9.99") = inr (chars "0.9.99", chars "0.9.100", chars "Version: 0.9.100")
  ∧ ∃ rest patch n,
      chars "0.9.99" = rest ++ patch ∧ last rest = Some "."%char
      ∧ patch ≠ [] ∧ within is_digit patch ∧ int patch = Some n
      ∧ chars "0.9.100" = rest ++ str (n + 1)
      ∧ ∃ s'', bump (chars "Version: 0.9.100")
               = inr (chars "0.9.100", rest ++ str (n + 2), s'').
Proof.
  split; [reflexivity|].
  apply (proj2 bump_increments_patch (chars "Version: 0.9.99")).
  reflexivity.
Defined.

(** C7. The staleness check answers true when the archive does not
    exist. When it exists and the file query runs, the check answers,
    and its answer is true exactly when some regular file under the
    package's source directory was modified strictly after the
    archive. *)
Theorem staleness_check
  (cfg : config) (p : string) (w : state) :
  (lookup_path (getDebFileFullPath cfg p) w = None →
   needToRebuildPackage cfg p w = (Ok true, w))
  ∧ (∀ ref,
       lookup_path (getDebFileFullPath cfg p) w = Some ref →
       broken w (FindNewer (getSourceDirFullPath cfg p)
                   (getDebFileFullPath cfg p)) = false →
       ∃ b w',
         needToRebuildPackage cfg p w = (Ok b, w') ∧ fs w' = fs w
         ∧ (b = true ↔
            ∃ rel content t,
              rel ≠ []
              ∧ fs w !! (path_of (getSourceDirFullPath cfg p) ++ rel)
                = Some (File content t)
              ∧ (mtime_of ref < t)%N)).
Proof.
  split.
  - intros H. unfold needToRebuildPackage, exists_, gets, mbind, M_bind, bind.
    by rewrite H.
  - intros ref Href Hb.
    unfold needToRebuildPackage, exists_, gets, mbind, M_bind, bind.
    rewrite Href. cbn [negb].
    unfold runCommand. rewrite Hb. cbn [exec].
    eexists _, _. split; [reflexivity|]. split; [done|].
    rewrite <-(newer_files_spec _ (getDebFileFullPath cfg p) (fs w) ref Href
                 (sourceDir_nonempty cfg p) (sourceDir_slash cfg p)).
    by destruct (join newline _).
Qed.

Lemma staleness_check_witness :
  let w := Examples.boot Examples.healthy in
  lookup_path (getDebFileFullPath Examples.cfg "beta") w
  = Some (File Examples.control_beta 3%N)
  ∧ broken w (FindNewer (getSourceDirFullPath Examples.cfg "beta")
                (getDebFileFullPath Examples.cfg "beta")) = false
  ∧ (needToRebuildPackage Examples.cfg "beta" w).1 = Ok true
  ∧ ∃ b w',
      needToRebuildPackage Examples.cfg "beta" w = (Ok b, w') ∧ fs w' = fs w
      ∧ (b = true ↔
         ∃ rel content t,
           rel ≠ []
           ∧ fs w !! (path_of (getSourceDirFullPath Examples.cfg "beta") ++ rel)
             = Some (File content t)
           ∧ (mtime_of (File Examples.control_beta 3%N) < t)%N).
Proof.
  intros w.
  split; [run|]. split; [run|]. split; [run|].
  apply (proj2 (staleness_check Examples.cfg "beta" w)); run.
Defined.

(** C8 (amended). In a process whose package list is still empty, a run
    with an explicit package selected is one per-package build followed
    by the refresh, whatever the staleness query would answer: the list
    it leaves holds the selected name only, its first event is the
    opening line of the build, and every command and write after it is
    one of that build or of the refresh, the staleness query never among
    them. The build is for the name the loop makes of the selected one:
    the name without its [.deb] when it ends so. With the build-all flag
    set the run is the build-all run, whatever package is named. *)
Theorem explicit_package_run
  (cfg : config) (a : arguments) (X : string) (w w' : state)
  (r : result unit) :
  all a = false → given a = Some X → packageList w = [] →
  doRunSteps cfg a w = (r, w') →
  doRunSteps cfg a w
  = (build_of cfg (stripDeb X);; refreshAptRepository cfg) (push_package X w)
  ∧ packageList w' = [X]
  ∧ (∃ evs,
       journal w'
       = journal w
           ++ Indent ("Building package " +:+ dq +:+ stripDeb X +:+ dq) :: evs
       ∧ Forall (run_event cfg (stripDeb X)) evs
       ∧ ∀ dir ref cwd, Ran (FindNewer dir ref) cwd ∉ evs)
  ∧ (∀ base, X = base +:+ ".deb" → stripDeb X = base)
  ∧ ∀ a', all a' = true →
          doRunSteps cfg a' w = doRunSteps cfg (Arguments true None) w.
Proof.
  intros Ha Hg Hl Hrun.
  assert (doRunSteps cfg a w
          = (build_of cfg (stripDeb X);; refreshAptRepository cfg)
              (push_package X w)) as Heq.
  { unfold doRunSteps, doRunSteps_with, selectPackages_with. rewrite Ha, Hg.
    rewrite (bind_Ok _ _ w () (push_package X w)) by done.
    rewrite <-buildPackages_body_eq.
    apply buildPackages_singleton. simpl. by rewrite Hl. }
  split_and!; [done| | |by intros base ->; apply (stripDeb_suffix base "."%char)|].
  - apply doRunSteps_inv in Hrun
      as [(e & Hs & _)|(ws & Hs & [(e & Hb & _)|(wb & Hb & Hr)])];
      unfold selectPackages, selectPackages_with in Hs; rewrite Ha, Hg in Hs;
      [done|injection Hs as <-..].
    + by rewrite (buildPackages_same_list _ _ _ _ Hb); simpl; rewrite Hl.
    + rewrite (refreshAptRepository_same_list _ _ _ _ Hr).
      by rewrite (buildPackages_same_list _ _ _ _ Hb); simpl; rewrite Hl.
  - set (q := stripDeb X) in *. set (ok := run_event cfg q).
    assert (∀ e w0, is_out e = true → journals ok w0 (record e w0)) as Rout.
    { intros e w0 He. apply journals_record. by destruct e. }
    assert (∀ p c w0 r0 w0', p = q →
              writeFile (getControlFilePath cfg p) c w0 = (r0, w0') →
              journals ok w0 w0') as Rc.
    { intros p c w0 r0 w0' ->. apply journals_writeFile. by left. }
    assert (∀ p c cwd w0 r0 w0', p = q → builds cfg p c cwd →
              runCommand c cwd w0 = (r0, w0') → journals ok w0 w0') as Rb.
    { intros p c cwd w0 r0 w0' -> Hc. apply journals_runCommand. by left. }
    assert (∀ c w0 r0 w0',
              writeFile (getPackageInfoUncompressedFilename cfg) c w0 = (r0, w0') →
              journals ok w0 w0') as Ri.
    { intros c w0 r0 w0'. apply journals_writeFile. by right. }
    assert (∀ c cwd w0 r0 w0', indexes cfg c cwd →
              runCommand c cwd w0 = (r0, w0') → journals ok w0 w0') as Rx.
    { intros c cwd w0 r0 w0' Hc. apply journals_runCommand. by right. }
    assert (sat (journals ok) escapes
              (buildPackage cfg q;; unIndent;;
               put ("done with " +:+ dq +:+ q +:+ dq))) as Hbody.
    { apply (sat_bind (journals ok));
        [exact (buildPackage_sat (journals ok) cfg (λ p, p = q) Rout Rc Rb q eq_refl)|].
      intros _. apply (sat_bind (journals ok)); [by apply (sat_unIndent (journals ok))|].
      intros _. by apply (sat_put (journals ok)). }
    assert (∃ evs, journal w'
                   = (journal w ++ [Indent ("Building package " +:+ dq +:+ q +:+ dq)])
                       ++ evs
                   ∧ Forall ok evs) as (evs & Hj & Hf).
    { rewrite Heq in Hrun. unfold build_of in Hrun.
      apply bind_inv in Hrun as [([] & wb & Hb & Hr)|(e & Hb & _)];
        apply bind_inv in Hb as [([] & wi & [= <-] & Hb)|(e' & [=] & _)];
        destruct (Hbody _ _ _ Hb) as [(evs1 & Hj1 & Hf1) _]; [|by exists evs1].
      destruct (refreshAptRepository_sat (journals ok) cfg Rout Ri Rx _ _ _ Hr)
        as [(evs2 & Hj2 & Hf2) _].
      exists (evs1 ++ evs2). split; [|by apply Forall_app].
      by rewrite Hj2, Hj1, app_assoc. }
    exists evs. split; [by rewrite Hj, <-app_assoc|]. split; [done|].
    intros dir ref cwd Hin.
    apply (proj1 (Forall_forall _ _) Hf) in Hin.
    destruct Hin as [Hin|Hin]; inversion Hin.
  - intros a' Ha'. unfold doRunSteps, doRunSteps_with, selectPackages_with.
    by rewrite Ha'.
Qed.

Lemma explicit_package_run_witness :
  let w := Examples.boot Examples.healthy in
  let a := Arguments false (Some "beta.deb") in
  let w' := Examples.after_run_beta_deb in
  all a = false ∧ given a = Some "beta.deb" ∧ packageList w = []
  ∧ doRunSteps Examples.cfg a w = (Ok (), w')
  ∧ stripDeb "beta.deb" = "beta"
  ∧ doRunSteps Examples.cfg a w
    = (build_of Examples.cfg (stripDeb "beta.deb");;
       refreshAptRepository Examples.cfg) (push_package "beta.deb" w)
  ∧ packageList w' = ["beta.deb"]
  ∧ (∃ evs,
       journal w'
       = journal w
           ++ Indent ("Building package " +:+ dq +:+ stripDeb "beta.deb" +:+ dq)
              :: evs
       ∧ Forall (run_event Examples.cfg (stripDeb "beta.deb")) evs
       ∧ ∀ dir ref cwd, Ran (FindNewer dir ref) cwd ∉ evs)
  ∧ (∀ base, "beta.deb" = base +:+ ".deb" → stripDeb "beta.deb" = base)
  ∧ ∀ a', all a' = true →
          doRunSteps Examples.cfg a' w
          = doRunSteps Examples.cfg (Arguments true None) w.
Proof.
  intros w a w'.
  assert (doRunSteps Examples.cfg a w = (Ok (), w')) as H by run.
  split; [reflexivity|]. split; [reflexivity|]. split; [reflexivity|].
  split; [exact H|]. split; [run|].
  exact (explicit_package_run Examples.cfg a "beta.deb" w w' (Ok ())
           eq_refl eq_refl eq_refl H).
Defined.

(** C8, as stated, fails, in two ways. With [mydeb] selected, a package
    of the source tree with a good control file, the run builds nothing
    for [mydeb]: the loop looks for a package [m], finds no control file
    and skips. And in a process that has already run for [beta], a run
    with [gamma] selected goes over [beta] first and builds it once
    more. *)
Lemma explicit_run_not_exactly_that_package :
  (let w := Examples.boot Examples.healthy in
   let a := Examples.explicit "mydeb" in
   let w' := Examples.after_run_mydeb in
   doRunSteps Examples.cfg a w = (Ok (), w')
   ∧ lookup_path (getControlFilePath Examples.cfg "mydeb") w
     = Some (File Examples.control_mydeb 2%N)
   ∧ lookup_path (getControlFilePath Examples.cfg "mydeb") w'
     = Some (File Examples.control_mydeb 2%N)
   ∧ lookup_path (getDebFileFullPath Examples.cfg "mydeb") w' = None
   ∧ existsb is_packaging (journal w') = false
   ∧ journal w'
     = [ Indent ("Building package " +:+ dq +:+ "m" +:+ dq);
         Put "ERROR: no control file found for m";
         Put ("skipping package " +:+ dq +:+ "m" +:+ dq);
         UnIndent;
         Put ("done with " +:+ dq +:+ "m" +:+ dq);
         Put "rebuilding APT repository metadata";
         Ran ScanPackages (Some "/debs");
         Wrote "/debs/Packages"
           (Examples.control_beta +:+ "Filename: ./beta.deb"
              +:+ newline +:+ newline);
         Ran (Gzip "/debs/Packages") None ])
  ∧ (let w := Examples.after_run_beta in
     let a := Examples.explicit "gamma" in
     let w' := Examples.after_rerun_gamma in
     doRunSteps Examples.cfg a w = (Ok (), w')
     ∧ packageList w = ["beta"]
     ∧ packageList w' = ["beta"; "gamma"]
     ∧ lookup_path (getControlFilePath Examples.cfg "beta") w
       = Some (File ("Package: beta" +:+ newline
                       +:+ "Version: 1.2.10" +:+ newline) 10%N)
     ∧ lookup_path (getControlFilePath Examples.cfg "beta") w'
       = Some (File ("Package: beta" +:+ newline
                       +:+ "Version: 1.2.11" +:+ newline) 26%N)
     ∧ take 2 (drop (length (journal w)) (journal w'))
       = [ Indent ("Building package " +:+ dq +:+ "beta" +:+ dq);
           Put "incremented package version from 1.2.10 to 1.2.11" ]
     ∧ existsb is_packaging (drop (length (journal w)) (journal w')) = true).
Proof.
  split.
  - intros w a w'. split; [run|]. do 4 (split; [run|]). run.
  - intros w a w'. split; [run|]. do 5 (split; [run|]). run.
Qed.

(** C9. The list of selected packages belongs to the process: a second
    run of [doRunSteps] starts from the list the first one left, and its
    build loop goes over the first pass's selection followed by its
    own. *)
Theorem packageList_accumulates_across_runs
  (cfg : config) (a1 a2 : arguments) (w ws1 w1 ws2 : state)
  (rs r1 r2 : result unit) :
  selectPackages cfg a1 w = (rs, ws1) →
  doRunSteps cfg a1 w = (r1, w1) →
  selectPackages cfg a2 w1 = (r2, ws2) →
  ∃ sel1 sel2,
    packageList ws1 = packageList w ++ sel1
    ∧ packageList ws2 = packageList w ++ sel1 ++ sel2
    ∧ buildPackages cfg ws2
      = for_each (packageList w ++ sel1 ++ sel2) (buildPackages_body cfg) ws2.
Proof.
  intros Hs1 Hr Hs2.
  pose proof (selectPackages_grows _ _ _ _ _ Hs1) as [sel1 E1].
  pose proof (selectPackages_grows _ _ _ _ _ Hs2) as [sel2 E2].
  assert (packageList w1 = packageList ws1) as E.
  { apply doRunSteps_inv in Hr
      as [(e & Hs & _)|(ws & Hs & [(e & Hb & _)|(wb & Hb & Hf)])];
      unfold doRunSteps, selectPackages in *; rewrite Hs in Hs1;
      injection Hs1 as <- <-; [done| |].
    - by apply buildPackages_same_list in Hb.
    - apply buildPackages_same_list in Hb.
      apply refreshAptRepository_same_list in Hf. congruence. }
  exists sel1, sel2. split; [done|].
  assert (packageList ws2 = packageList w ++ sel1 ++ sel2) as E3
    by by rewrite E2, E, E1, <-app_assoc.
  split; [done|]. by rewrite buildPackages_unfold, E3.
Qed.

Lemma packageList_accumulates_across_runs_witness :
  let w := Examples.boot Examples.healthy in
  let a1 := Examples.explicit "gamma" in
  let a2 := Examples.explicit "beta" in
  let ws1 := Examples.after_select_gamma in
  let w1 := Examples.after_run_gamma in
  let ws2 := Examples.after_select_beta in
  packageList w = [] ∧ packageList ws1 = ["gamma"]
  ∧ packageList ws2 = ["gamma"; "beta"]
  ∧ ∃ sel1 sel2,
      packageList ws1 = packageList w ++ sel1
      ∧ packageList ws2 = packageList w ++ sel1 ++ sel2
      ∧ buildPackages Examples.cfg ws2
        = for_each (packageList w ++ sel1 ++ sel2)
            (buildPackages_body Examples.cfg) ws2.
Proof.
  intros w a1 a2 ws1 w1 ws2.
  split; [run|]. split; [run|]. split; [run|].
  apply (packageList_accumulates_across_runs Examples.cfg a1 a2 w ws1 w1 ws2
           (Ok ()) (Ok ()) (Ok ())); run.
Defined.

(** C10 (amended). A selected name that ends in a character other than
    a line feed followed by [deb] is built under the name without those
    four characters: the loop body indents, bumps, stages and packages
    for the shortened name; so it is for a name given by the explicit
    package flag. *)
Theorem build_loop_strips_deb_ending
  (cfg : config) (base : string) (c : ascii) :
  c ≠ "010"%char →
  stripDeb (base +:+ String c "deb") = base
  ∧ buildPackages_body cfg (base +:+ String c "deb") = build_of cfg base
  ∧ ∀ stale w,
      doRunSteps_with cfg stale
        (Arguments false (Some (base +:+ String c "deb"))) w
      = (for_each (packageList w ++ [base +:+ String c "deb"])
           (buildPackages_body cfg);;
         refreshAptRepository cfg)
          (push_package (base +:+ String c "deb") w).
Proof.
  intros Hc. split_and!.
  - by apply stripDeb_suffix.
  - by rewrite buildPackages_body_eq, stripDeb_suffix.
  - intros stale w. apply explicit_run; [done|]. by destruct base.
Qed.

Lemma build_loop_strips_deb_ending_witness :
  ("y"%char ≠ "010"%char)
  ∧ stripDeb ("m" +:+ String "y" "deb") = "m"
  ∧ buildPackages_body Examples.cfg ("m" +:+ String "y" "deb")
    = build_of Examples.cfg "m"
  ∧ ∀ stale w,
      doRunSteps_with Examples.cfg stale
        (Arguments false (Some ("m" +:+ String "y" "deb"))) w
      = (for_each (packageList w ++ ["m" +:+ String "y" "deb"])
           (buildPackages_body Examples.cfg);;
         refreshAptRepository Examples.cfg)
          (push_package ("m" +:+ String "y" "deb") w).
Proof.
  assert ("y"%char ≠ "010"%char) as H by discriminate.
  split; [exact H|].
  exact (build_loop_strips_deb_ending Examples.cfg "m" "y" H).
Defined.

(** C10, as stated, fails for the one character [.] does not match: a
    name whose last four characters are a line feed and [deb] is left as
    it is. *)
Lemma line_feed_deb_not_stripped :
  let name := "a" +:+ newline +:+ "deb" in
  drop 1 (chars name) = "010"%char :: chars "deb"
  ∧ stripDeb name = name
  ∧ buildPackages_body Examples.cfg name = build_of Examples.cfg name.
Proof. intros name. split; [run|]. split; [run|]. reflexivity. Qed.

(** * Further properties of the methods *)

(** X1. A run ends normally or in one of three exceptions: the
    [AttributeError] of a control file without a version, an [OSError]
    of the filesystem, or the failure of a command. The exception of a
    package to skip never leaves [buildPackage], and [int] never fails
    on the number the pattern found. *)
Theorem run_raises_only
  (cfg : config) (a : arguments) (w w' : state) (e : exn) :
  doRunSteps cfg a w = (Raise e, w') →
  escapes e ∧ e ≠ PackageProblemOkToContinue ∧ e ≠ ValueError.
Proof.
  intros H.
  assert (escapes e) as He.
  { refine (proj2 (doRunSteps_run anywhere cfg (λ _, True)
                     _ a w _ w' _ _ _ _ _ _ H _) e eq_refl); done. }
  split; [done|].
  destruct He as [->|[[p ->]|[c ->]]]; done.
Qed.

Lemma run_raises_only_witness :
  let w := Examples.boot Examples.healthy in
  let w' := Examples.after_run_all in
  doRunSteps Examples.cfg Examples.build_all w = (Raise AttributeError, w')
  ∧ escapes AttributeError
  ∧ AttributeError ≠ PackageProblemOkToContinue ∧ AttributeError ≠ ValueError.
Proof.
  intros w w'.
  assert (doRunSteps Examples.cfg Examples.build_all w = (Raise AttributeError, w'))
    as H by run.
  split; [exact H|].
  exact (run_raises_only Examples.cfg Examples.build_all w w' AttributeError H).
Defined.



(** X3. With the build-all flag the selection runs no command and
    writes nothing: it appends to the package list, in the order of the
    sorted listing, the names that are directories with a control file,
    and changes nothing else of the state. *)
Theorem build_all_selection
  (cfg : config) (w : state) (names : list string) :
  listdir (codeSourceDir cfg) w = (Ok names, w) →
  addAllPackagesToList cfg true w
  = (Ok (),
     State (fs w) (clock w)
       (packageList w
          ++ List.filter (λ p, is_package cfg p w) (merge_sort String.le names))
       (journal w) (broken w)).
Proof.
  intros Hn. rewrite addAllPackagesToList_unfold.
  rewrite (bind_Ok _ _ _ _ _ Hn).
  generalize (merge_sort String.le names). intros l.
  assert (∀ w1, fs w1 = fs w →
            for_each l (selection_body cfg true) w1
            = (Ok (), State (fs w1) (clock w1)
                        (packageList w1 ++ List.filter (λ p, is_package cfg p w) l)
                        (journal w1) (broken w1))) as H; [|by apply H].
  induction l as [|p l IH]; intros w1 Hf.
  - simpl. rewrite app_nil_r. by destruct w1.
  - cbn [for_each List.filter].
    rewrite (bind_Ok _ _ _ _ _ (selection_body_forced cfg p w1)).
    rewrite <-(is_package_fs cfg p w1 w Hf).
    destruct (is_package cfg p w1); [|by apply IH].
    rewrite (IH (push_package p w1) Hf). simpl. by rewrite <-app_assoc.
Qed.

Lemma build_all_selection_witness :
  let w := Examples.boot Examples.healthy in
  let names := ["alpha"; "beta"; "mydeb"; "gamma"] in
  listdir (codeSourceDir Examples.cfg) w = (Ok names, w)
  ∧ List.filter (λ p, is_package Examples.cfg p w) (merge_sort String.le names)
    = ["alpha"; "beta"; "mydeb"]
  ∧ addAllPackagesToList Examples.cfg true w
    = (Ok (),
       State (fs w) (clock w)
         (packageList w
            ++ List.filter (λ p, is_package Examples.cfg p w)
                 (merge_sort String.le names))
         (journal w) (broken w)).
Proof.
  intros w names.
  assert (listdir (codeSourceDir Examples.cfg) w = (Ok names, w)) as H by run.
  split; [exact H|]. split; [run|].
  exact (build_all_selection Examples.cfg w names H).
Defined.

(** X4. Without a flag, a selection that returns has appended to the
    package list, in the order of the sorted listing, the names for
    which the staleness check answers true and which are directories
    with a control file, and has left the filesystem as it was. *)
Theorem default_selection
  (cfg : config) (w w' : state) (names : list string) :
  listdir (codeSourceDir cfg) w = (Ok names, w) →
  addAllPackagesToList cfg false w = (Ok (), w') →
  packageList w'
  = packageList w
      ++ List.filter (λ p, is_stale cfg p w && is_package cfg p w)
           (merge_sort String.le names)
  ∧ fs w' = fs w.
Proof.
  intros Hn. rewrite addAllPackagesToList_unfold.
  rewrite (bind_Ok _ _ _ _ _ Hn). intros H.
  apply (select_loop_Ok cfg false _ w w w' eq_refl eq_refl) in H as (Hf & _ & Hl).
  by split.
Qed.

Lemma default_selection_witness :
  let w := Examples.boot Examples.healthy in
  let w' := Examples.after_default_selection in
  let names := ["alpha"; "beta"; "mydeb"; "gamma"] in
  listdir (codeSourceDir Examples.cfg) w = (Ok names, w)
  ∧ addAllPackagesToList Examples.cfg false w = (Ok (), w')
  ∧ packageList w'
    = packageList w
        ++ List.filter
             (λ p, is_stale Examples.cfg p w && is_package Examples.cfg p w)
             (merge_sort String.le names)
  ∧ fs w' = fs w.
Proof.
  intros w w' names.
  assert (listdir (codeSourceDir Examples.cfg) w = (Ok names, w)) as H1 by run.
  assert (addAllPackagesToList Examples.cfg false w = (Ok (), w')) as H2 by run.
  split; [exact H1|]. split; [exact H2|].
  exact (default_selection Examples.cfg w w' names H1 H2).
Defined.

(** X5. The names a selection by listing appends are in the order of
    the byte strings, so that the packages are built in that order. *)
Theorem selection_is_sorted
  (cfg : config) (force : bool) (w w' : state) :
  addAllPackagesToList cfg force w = (Ok (), w') →
  ∃ sel, packageList w' = packageList w ++ sel
         ∧ StronglySorted String.le sel.
Proof.
  rewrite addAllPackagesToList_unfold.
  intros [(names & w0 & Hn & H)|(e & _ & [=])]%bind_inv.
  assert (w0 = w) as ->.
  { unfold listdir in Hn. by destruct (lookup_path _ w) as [[]|]; injection Hn. }
  apply (select_loop_Ok cfg force _ w w w' eq_refl eq_refl) in H as (_ & _ & Hl).
  eexists. split; [exact Hl|].
  apply StronglySorted_filter, StronglySorted_merge_sort; apply _.
Qed.

Lemma selection_is_sorted_witness :
  let w := Examples.boot Examples.healthy in
  let w' := Examples.after_default_selection in
  addAllPackagesToList Examples.cfg false w = (Ok (), w')
  ∧ ∃ sel, packageList w' = packageList w ++ sel
           ∧ StronglySorted String.le sel.
Proof.
  intros w w'.
  assert (addAllPackagesToList Examples.cfg false w = (Ok (), w')) as H by run.
  split; [exact H|].
  exact (selection_is_sorted Examples.cfg false w w' H).
Defined.

(** X6. When the source directory is not there, or is not a
    directory, both selections by listing raise the [OSError] of the
    listing and leave the state as it was. *)
Theorem selection_without_source_dir
  (cfg : config) (force : bool) (w : state) :
  (∀ t, lookup_path (codeSourceDir cfg) w ≠ Some (Dir t)) →
  addAllPackagesToList cfg force w = (Raise (OSError (codeSourceDir cfg)), w).
Proof.
  intros H. rewrite addAllPackagesToList_unfold.
  apply bind_Raise. unfold listdir.
  destruct (lookup_path (codeSourceDir cfg) w) as [[c t|t]|]; try done.
  by destruct (H t).
Qed.

Lemma selection_without_source_dir_witness :
  let w := Examples.bare in
  (∀ t, lookup_path (codeSourceDir Examples.cfg) w ≠ Some (Dir t))
  ∧ addAllPackagesToList Examples.cfg false w
    = (Raise (OSError (codeSourceDir Examples.cfg)), w).
Proof.
  intros w.
  assert (∀ t, lookup_path (codeSourceDir Examples.cfg) w ≠ Some (Dir t)) as H
    by (intros t Ht; by vm_compute in Ht).
  split; [exact H|].
  exact (selection_without_source_dir Examples.cfg false w H).
Defined.

(** X7. The build loop changes a selected name exactly when the name
    ends in a character other than a line feed followed by [deb], or in
    that followed by one line feed; every other name is built as it
    is. *)
Theorem stripDeb_changes_iff (name : string) :
  stripDeb name ≠ name ↔
  ∃ base c, c ≠ "010"%char
            ∧ (name = base +:+ String c "deb"
               ∨ name = base +:+ String c "deb" +:+ newline).
Proof.
  split.
  - intros H.
    assert (Re.sub debSuffixPattern [] (chars name) ≠ chars name) as H'.
    { intros E. apply H. unfold stripDeb. by rewrite E, text_chars. }
    apply sub_deb_changed in H' as (i & n & Hm).
    apply deb_match_inv in Hm as (c & Hc%is_dot_inv & Hd & _).
    exists (text (take i (chars name))), c. split; [done|].
    rewrite <-(text_chars name) at 1 3.
    rewrite <-(take_drop i (chars name)) at 1 3.
    destruct Hd as [-> | ->]; [left|right]; by rewrite text_app.
  - intros (base & c & Hc & [-> | ->]); intros E.
    + rewrite (stripDeb_suffix base c Hc) in E.
      apply (f_equal chars), (f_equal length) in E.
      rewrite chars_app, length_app in E. simpl in E. lia.
    + unfold stripDeb in E. apply (f_equal chars) in E.
      rewrite chars_text, !chars_app in E.
      change (chars (String c "deb") ++ chars newline)
        with (c :: chars "deb" ++ ["010"%char]) in E.
      rewrite sub_deb_suffix_nl in E by by apply is_dot_spec.
      apply (f_equal length) in E. rewrite !length_app in E. simpl in E. lia.
Qed.

Lemma stripDeb_changes_iff_witness : stripDeb "beta.deb" ≠ "beta.deb".
Proof.
  apply (proj2 (stripDeb_changes_iff "beta.deb")).
  exists "beta", "."%char. split; [discriminate|]. left. reflexivity.
Defined.

(** X8. A name that ends in a character other than a line feed, [deb]
    and one line feed loses the four characters and keeps the line
    feed. *)
Theorem stripDeb_before_line_feed (base : string) (c : ascii) :
  c ≠ "010"%char →
  stripDeb (base +:+ String c "deb" +:+ newline) = base +:+ newline.
Proof.
  intros Hc. unfold stripDeb. rewrite !chars_app.
  change (chars (String c "deb") ++ chars newline)
    with (c :: chars "deb" ++ ["010"%char]).
  rewrite sub_deb_suffix_nl by by apply is_dot_spec.
  by rewrite text_app, text_chars.
Qed.

Lemma stripDeb_before_line_feed_witness :
  "."%char ≠ "010"%char
  ∧ stripDeb ("foo" +:+ String "." "deb" +:+ newline) = "foo" +:+ newline.
Proof.
  assert ("."%char ≠ "010"%char) as H by discriminate.
  split; [exact H|]. exact (stripDeb_before_line_feed "foo" "." H).
Defined.

(** X9. A package without a control file is skipped and the loop goes
    on: the turn of the loop puts its five lines of output, runs no
    command, leaves the filesystem and the package list as they were,
    and the loop continues with the packages that follow. *)
Theorem missing_control_file_is_skipped
  (cfg : config) (x : string) (rest : list string) (w : state) :
  lookup_path (getControlFilePath cfg (stripDeb x)) w = None →
  for_each (x :: rest) (buildPackages_body cfg) w
  = for_each rest (buildPackages_body cfg)
      (State (fs w) (clock w) (packageList w)
         (journal w
            ++ [ Indent ("Building package " +:+ dq +:+ stripDeb x +:+ dq);
                 Put ("ERROR: no control file found for " +:+ stripDeb x);
                 Put ("skipping package " +:+ dq +:+ stripDeb x +:+ dq);
                 UnIndent;
                 Put ("done with " +:+ dq +:+ stripDeb x +:+ dq) ])
         (broken w)).
Proof.
  intros Hc. cbn [for_each].
  match goal with
  | |- _ = for_each rest _ ?w2 =>
      assert (buildPackages_body cfg x w = (Ok (), w2)) as Hbody;
        [|by rewrite (bind_Ok _ _ _ _ _ Hbody)]
  end.
  unfold buildPackages_body.
  set (q := stripDeb x) in *.
  unfold indent at 1. unfold modify. unfold mbind at 1, M_bind at 1, bind at 1.
  set (w1 := record (Indent ("Building package " +:+ dq +:+ q +:+ dq)) w).
  assert (buildPackage cfg q w1
          = (Ok (), record (Put ("skipping package " +:+ dq +:+ q +:+ dq))
                      (record (Put ("ERROR: no control file found for " +:+ q)) w1)))
    as Hb.
  { unfold buildPackage, try_except.
    rewrite (bind_Raise _ _ w1 PackageProblemOkToContinue
               (record (Put ("ERROR: no control file found for " +:+ q)) w1)).
    - reflexivity.
    - by apply incrementPackageVersion_absent. }
  rewrite (bind_Ok _ _ _ _ _ Hb).
  unfold unIndent, put, modify, mbind, M_bind, bind, record. cbn.
  by rewrite <-!app_assoc.
Qed.

Lemma missing_control_file_is_skipped_witness :
  let w := Examples.boot Examples.healthy in
  lookup_path (getControlFilePath Examples.cfg (stripDeb "gamma")) w = None
  ∧ for_each ["gamma"; "beta"] (buildPackages_body Examples.cfg) w
    = for_each ["beta"] (buildPackages_body Examples.cfg)
        (State (fs w) (clock w) (packageList w)
           (journal w
              ++ [ Indent ("Building package " +:+ dq +:+ stripDeb "gamma" +:+ dq);
                   Put ("ERROR: no control file found for " +:+ stripDeb "gamma");
                   Put ("skipping package " +:+ dq +:+ stripDeb "gamma" +:+ dq);
                   UnIndent;
                   Put ("done with " +:+ dq +:+ stripDeb "gamma" +:+ dq) ])
           (broken w)).
Proof.
  intros w.
  assert (lookup_path (getControlFilePath Examples.cfg (stripDeb "gamma")) w = None)
    as H by run.
  split; [exact H|].
  exact (missing_control_file_is_skipped Examples.cfg "gamma" ["beta"] w H).
Defined.

(** X10. The staleness check only looks: whatever its outcome, the
    filesystem and the package list are as before, the one command it
    may have run is its [find], and the one exception it may raise is
    the failure of that command. *)
Theorem needToRebuildPackage_only_looks
  (cfg : config) (p : string) (w w' : state) (r : result bool) :
  needToRebuildPackage cfg p w = (r, w') →
  let find := FindNewer (getSourceDirFullPath cfg p) (getDebFileFullPath cfg p) in
  fs w' = fs w ∧ packageList w' = packageList w
  ∧ (journal w' = journal w ∨ journal w' = journal w ++ [Ran find None])
  ∧ ∀ e, r = Raise e → e = CommandFailed find.
Proof.
  intros H find.
  pose proof (needToRebuildPackage_keeps _ _ _ _ _ H) as (Hf & _ & Hl).
  split; [done|]. split; [done|].
  unfold needToRebuildPackage in H.
  apply bind_inv in H as [(present & w0 & [= <- <-] & H)|(e & [=] & _)].
  destruct (negb _).
  { injection H as <- <-. split; [by left|done]. }
  apply bind_inv in H as [(out & w1 & H & [= <- <-])|(e & H & ->)].
  - apply runCommand_inv in H as (_ & Hj & _). split; [by right|done].
  - pose proof (runCommand_raises _ _ _ _ _ H) as ->.
    apply runCommand_inv in H as (_ & Hj & _).
    split; [by right|]. by intros ? [= <-].
Qed.

Lemma needToRebuildPackage_only_looks_witness :
  let w := Examples.boot Examples.healthy in
  let w' := Examples.after_check_beta in
  let find := FindNewer (getSourceDirFullPath Examples.cfg "beta")
                (getDebFileFullPath Examples.cfg "beta") in
  needToRebuildPackage Examples.cfg "beta" w = (Ok true, w')
  ∧ fs w' = fs w ∧ packageList w' = packageList w
  ∧ (journal w' = journal w ∨ journal w' = journal w ++ [Ran find None])
  ∧ ∀ e, Ok true = Raise e → e = CommandFailed find.
Proof.
  intros w w' find.
  assert (needToRebuildPackage Examples.cfg "beta" w = (Ok true, w')) as H by run.
  split; [exact H|].
  exact (needToRebuildPackage_only_looks Examples.cfg "beta" w w' (Ok true) H).
Defined.



(** X12. With the directory of the archives given as an absolute path:
    after a build that returned normally and was not a skip, the control
    file of the package holds the text the bump made, dated at the start
    of the build, and the archive of the package is a file made after
    that; this when neither of the two lies in the staging directory and
    they are two paths. *)
Theorem built_package_outcome
  (cfg : config) (p : string) (w w' : state) :
  is_absolute (debsDir cfg) = true →
  is_Some (lookup_path (getControlFilePath cfg p) w) →
  buildPackage cfg p w = (Ok (), w') →
  ¬ under (path_of (getWorkingDirFullPath cfg)) (path_of (getDebFileFullPath cfg p)) →
  ¬ under (path_of (getWorkingDirFullPath cfg)) (path_of (getControlFilePath cfg p)) →
  path_of (getControlFilePath cfg p) ≠ path_of (getDebFileFullPath cfg p) →
  ∃ content t0 cur next content',
    lookup_path (getControlFilePath cfg p) w = Some (File content t0)
    ∧ bump (chars content) = inr (cur, next, content')
    ∧ lookup_path (getControlFilePath cfg p) w'
      = Some (File (text content') (clock w))
    ∧ ∃ archive td,
        lookup_path (getDebFileFullPath cfg p) w' = Some (File archive td)
        ∧ (clock w < td)%N.
Proof.
  intros Habs Hn Hb Hdeb Hctl Hne.
  destruct (buildPackage_built cfg p w w' Habs Hn Hb)
    as (content & t0 & cur & next & s' & w1 & w2 & archive
        & Hc0 & Hbump & Hf1 & Hc & Ho & Hf & _).
  exists content, t0, cur, next, s'. split_and!; [done|done| |].
  - unfold lookup_path. rewrite Hf.
    rewrite (built_other cfg p (fs w1) (fs w2) _ _ Habs Ho Hne).
    apply strip_None_under in Hctl. rewrite Hctl.
    by rewrite Hf1, lookup_insert_file, path_eqb_refl.
  - exists archive, (clock w2 + 1)%N. unfold lookup_path.
    by rewrite Hf, built_archive.
Qed.

Lemma built_package_outcome_witness :
  let w := Examples.boot Examples.healthy in
  let w' := Examples.after_build_beta in
  is_absolute (debsDir Examples.cfg) = true
  ∧ is_Some (lookup_path (getControlFilePath Examples.cfg "beta") w)
  ∧ buildPackage Examples.cfg "beta" w = (Ok (), w')
  ∧ ¬ under (path_of (getWorkingDirFullPath Examples.cfg))
        (path_of (getDebFileFullPath Examples.cfg "beta"))
  ∧ ¬ under (path_of (getWorkingDirFullPath Examples.cfg))
        (path_of (getControlFilePath Examples.cfg "beta"))
  ∧ path_of (getControlFilePath Examples.cfg "beta")
    ≠ path_of (getDebFileFullPath Examples.cfg "beta")
  ∧ ∃ content t0 cur next content',
      lookup_path (getControlFilePath Examples.cfg "beta") w
      = Some (File content t0)
      ∧ bump (chars content) = inr (cur, next, content')
      ∧ lookup_path (getControlFilePath Examples.cfg "beta") w'
        = Some (File (text content') (clock w))
      ∧ ∃ archive td,
          lookup_path (getDebFileFullPath Examples.cfg "beta") w'
          = Some (File archive td)
          ∧ (clock w < td)%N.
Proof.
  intros w w'.
  assert (is_absolute (debsDir Examples.cfg) = true) as H0 by reflexivity.
  assert (is_Some (lookup_path (getControlFilePath Examples.cfg "beta") w)) as H1
    by (exists (File Examples.control_beta 2%N); run).
  assert (buildPackage Examples.cfg "beta" w = (Ok (), w')) as H2 by run.
  assert (¬ under (path_of (getWorkingDirFullPath Examples.cfg))
            (path_of (getDebFileFullPath Examples.cfg "beta"))) as H3
    by (intros [x Hx]; by vm_compute in Hx).
  assert (¬ under (path_of (getWorkingDirFullPath Examples.cfg))
            (path_of (getControlFilePath Examples.cfg "beta"))) as H4
    by (intros [x Hx]; by vm_compute in Hx).
  assert (path_of (getControlFilePath Examples.cfg "beta")
          ≠ path_of (getDebFileFullPath Examples.cfg "beta")) as H5
    by (intros Hx; by vm_compute in Hx).
  split; [exact H0|]. split; [exact H1|]. split; [exact H2|]. split; [exact H3|].
  split; [exact H4|]. split; [exact H5|].
  exact (built_package_outcome Examples.cfg "beta" w w' H0 H1 H2 H3 H4 H5).
Defined.

(** X13. A package that has just been built is current: with the
    directory of the archives given as an absolute path, when the build
    returned normally from a state in which no file of the package's
    source is dated after the clock, and the archive does not lie in the
    staging directory, the staleness check that follows answers
    false. *)
Theorem built_package_is_current
  (cfg : config) (p : string) (w w' : state) :
  is_absolute (debsDir cfg) = true →
  is_Some (lookup_path (getControlFilePath cfg p) w) →
  buildPackage cfg p w = (Ok (), w') →
  ¬ under (path_of (getWorkingDirFullPath cfg)) (path_of (getDebFileFullPath cfg p)) →
  (∀ rel content t,
     fs w !! (path_of (getSourceDirFullPath cfg p) ++ rel) = Some (File content t) →
     (t ≤ clock w)%N) →
  broken w (FindNewer (getSourceDirFullPath cfg p) (getDebFileFullPath cfg p))
  = false →
  ∃ w'', needToRebuildPackage cfg p w' = (Ok false, w'').
Proof.
  intros Habs Hn Hb Hdeb Hold Hfind.
  destruct (buildPackage_built cfg p w w' Habs Hn Hb)
    as (content & t0 & cur & next & s' & w1 & w2 & archive
        & _ & _ & Hf1 & Hc & Ho & Hf & Hbr).
  set (td := (clock w2 + 1)%N) in *.
  pose proof (built_archive (getWorkingDirFullPath cfg) (getDebFileFullPath cfg p)
                (File archive td) (rm_f (getDebFileFullPath cfg p) (fs w2)) Hdeb)
    as Hd.
  rewrite <-Hf in Hd.
  (* the files of the source *)
  assert (∀ rel content' t,
            fs w' !! (path_of (getSourceDirFullPath cfg p) ++ rel)
            = Some (File content' t) → (t ≤ td)%N) as Hnew.
  { intros rel content' t Hk.
    set (k := path_of (getSourceDirFullPath cfg p) ++ rel) in *.
    destruct (decide (k = path_of (getDebFileFullPath cfg p))) as [Ek|Ek].
    { rewrite Ek, Hd in Hk. injection Hk as _ <-. lia. }
    rewrite Hf, (built_other cfg p (fs w1) (fs w2) _ k Habs Ho Ek) in Hk.
    destruct (strip (path_of (getWorkingDirFullPath cfg)) k); [done|].
    rewrite Hf1, lookup_insert_file in Hk.
    destruct (path_eqb k _).
    - injection Hk as _ <-. lia.
    - apply Hold in Hk. lia. }
  (* the check *)
  unfold needToRebuildPackage, exists_, gets, mbind, M_bind, bind, lookup_path.
  rewrite Hd. cbn [negb]. unfold runCommand.
  rewrite Hbr, Hfind. cbn [exec succeeds].
  destruct (join newline (newer_files _ _ (fs w'))) as [|x out] eqn:Ej.
  { by eexists. }
  exfalso.
  assert (join newline
            (newer_files (getSourceDirFullPath cfg p) (getDebFileFullPath cfg p)
               (fs w')) ≠ EmptyString) as Hne by by rewrite Ej.
  apply (newer_files_spec _ _ _ _ Hd (sourceDir_nonempty cfg p) (sourceDir_slash cfg p))
    in Hne as (rel & content' & t & _ & Hk & Ht).
  apply Hnew in Hk. simpl in Ht. lia.
Qed.

Lemma built_package_is_current_witness :
  let w := Examples.boot Examples.healthy in
  let w' := Examples.after_build_beta in
  let find := FindNewer (getSourceDirFullPath Examples.cfg "beta")
                (getDebFileFullPath Examples.cfg "beta") in
  is_absolute (debsDir Examples.cfg) = true
  ∧ is_Some (lookup_path (getControlFilePath Examples.cfg "beta") w)
  ∧ buildPackage Examples.cfg "beta" w = (Ok (), w')
  ∧ ¬ under (path_of (getWorkingDirFullPath Examples.cfg))
        (path_of (getDebFileFullPath Examples.cfg "beta"))
  ∧ (∀ rel content t,
       fs w !! (path_of (getSourceDirFullPath Examples.cfg "beta") ++ rel)
       = Some (File content t) → (t ≤ clock w)%N)
  ∧ broken w find = false
  ∧ ∃ w'', needToRebuildPackage Examples.cfg "beta" w' = (Ok false, w'').
Proof.
  intros w w' find.
  assert (is_absolute (debsDir Examples.cfg) = true) as H0 by reflexivity.
  assert (is_Some (lookup_path (getControlFilePath Examples.cfg "beta") w)) as H1
    by (exists (File Examples.control_beta 2%N); run).
  assert (buildPackage Examples.cfg "beta" w = (Ok (), w')) as H2 by run.
  assert (¬ under (path_of (getWorkingDirFullPath Examples.cfg))
            (path_of (getDebFileFullPath Examples.cfg "beta"))) as H3
    by (intros [x Hx]; by vm_compute in Hx).
  assert (∀ rel content t,
            fs w !! (path_of (getSourceDirFullPath Examples.cfg "beta") ++ rel)
            = Some (File content t) → (t ≤ clock w)%N) as H4.
  { intros rel content t Hk.
    exact (lookup_file_Forall (λ n, (mtime_of n ≤ 10)%N) Examples.tree
             tree_dated _ _ Hk). }
  assert (broken w find = false) as H5 by reflexivity.
  split; [exact H0|]. split; [exact H1|]. split; [exact H2|]. split; [exact H3|].
  split; [exact H4|]. split; [exact H5|].
  exact (built_package_is_current Examples.cfg "beta" w w' H0 H1 H2 H3 H4 H5).
Defined.

(** X14. The bump finds a version exactly when the text has the label
    [Version: ] followed by digits and dots, a dot and a digit: a
    version of one component, without a dot, is not one. *)
Theorem bump_succeeds_iff (s : list ascii) :
  (∃ cur next s', bump s = inr (cur, next, s')) ↔
  ∃ pre X patch rest,
    s = pre ++ label ++ X ++ "."%char :: patch ++ rest
    ∧ X ≠ [] ∧ within is_digit_or_dot X
    ∧ patch ≠ [] ∧ within is_digit patch.
Proof.
  split.
  - intros (cur & next & s' & H).
    apply bump_inv in H as (pre & X & g3 & r & n & Hs & HX & HXd & Hg & Hgd & _).
    by exists pre, X, g3, r.
  - intros (pre & X & g3 & r & -> & HX & HXd & Hg & Hgd).
    destruct (search_is_Some (concat versionPattern) pre _
                (version_match_some X g3 r HX HXd Hg Hgd)) as [[ts r'] E].
    destruct (bump (pre ++ L ++ X ++ "."%char :: g3 ++ r))
      as [[]|[[cur next] s']] eqn:Hb.
    + apply bump_NoMatch in Hb. by rewrite Hb in E.
    + by apply bump_number in Hb.
    + by exists cur, next, s'.
Qed.

Lemma bump_succeeds_iff_witness :
  ∃ cur next s', bump (chars "Version: 1.0") = inr (cur, next, s').
Proof.
  apply (proj2 (bump_succeeds_iff (chars "Version: 1.0"))).
  exists [], (chars "1"), (chars "0"), [].
  split; [reflexivity|]. split; [discriminate|].
  split; [by repeat constructor|]. split; [discriminate|by repeat constructor].
Defined.

(** X15. When no [V] comes before the label and the digits and dots
    after it end in a dot and a number, the bump reports that whole
    version, adds one to its last number, whatever the count of
    components, and keeps the text before the label. *)
Theorem bump_of_version_line (pre X patch rest : list ascii) :
  "V"%char ∉ pre →
  X ≠ [] → within is_digit_or_dot X →
  patch ≠ [] → within is_digit patch →
  stops is_digit_or_dot rest →
  ∃ n, int patch = Some n
       ∧ bump (pre ++ label ++ X ++ "."%char :: patch ++ rest)
         = inr (X ++ "."%char :: patch,
                X ++ "."%char :: str (n + 1),
                pre ++ label ++ (X ++ "."%char :: str (n + 1))
                  ++ sub versionTextPattern
                       (label ++ X ++ "."%char :: str (n + 1)) rest).
Proof.
  intros Hpre HX HXd Hg Hgd Hr.
  destruct (int_digits patch Hg Hgd) as [n Hn]. exists n. split; [done|].
  unfold bump, search_groups.
  rewrite search_skip.
  2:{ intros i Hi. rewrite versionPattern_eq. apply no_V_no_match.
      intros H. apply Hpre. by apply (head_drop_elem _ _ _ _ Hi H). }
  rewrite (search_here _ _ _ (version_match_intro X patch rest HX HXd Hg Hgd Hr)).
  cbn [mbind option_bind]. rewrite regroup_version, Hn.
  rewrite <-!(app_assoc X ["."%char]). cbn [app].
  do 2 f_equal.
  set (repl := L ++ X ++ "."%char :: str (n + 1)).
  rewrite sub_skip.
  2:{ intros i Hi. unfold match_len, versionTextPattern, lit.
      rewrite no_V_no_match; [done|].
      intros H. apply Hpre. by apply (head_drop_elem _ _ _ _ Hi H). }
  f_equal.
  assert (match_len versionTextPattern (L ++ X ++ "."%char :: patch ++ rest)
          = Some (length L + length (X ++ "."%char :: patch))) as Hm.
  { unfold match_len, versionTextPattern, lit.
    assert (match_here [Plus is_digit_or_dot] (X ++ "."%char :: patch ++ rest)
            = Some ([X ++ "."%char :: patch], rest)) as E.
    { rewrite match_plus_last.
      replace (X ++ "."%char :: patch ++ rest)
        with ((X ++ "."%char :: patch) ++ rest) by by rewrite <-app_assoc.
      rewrite span_app; [| |done].
      2:{ apply Forall_app. split; [done|]. constructor; [done|].
          by apply within_digit_dd. }
      destruct (length (X ++ "."%char :: patch)) as [|m] eqn:Hl.
      { by destruct X. }
      rewrite <-Hl. by rewrite take_app_length, drop_app_length. }
    rewrite (match_here_lit_intro _ _ _ _ _ E). cbn [mbind option_bind].
    rewrite concat_app, length_app. simpl. rewrite app_nil_r. done. }
  rewrite (sub_match _ _ _ (8 + length (X ++ "."%char :: patch)) Hm).
  unfold repl. rewrite <-!app_assoc. do 2 f_equal.
  change (S (8 + length (X ++ "."%char :: patch)))
    with (length L + length (X ++ "."%char :: patch)).
  rewrite <-drop_drop, drop_app_length.
  replace (X ++ "."%char :: patch ++ rest)
    with ((X ++ "."%char :: patch) ++ rest) by by rewrite <-app_assoc.
  by rewrite drop_app_length.
Qed.

Lemma bump_of_version_line_witness :
  let pre := chars ("Package: x" +:+ newline) in
  let X := chars "1.2.3" in
  let patch := chars "9" in
  let rest := chars newline in
  ("V"%char ∉ pre)
  ∧ X ≠ [] ∧ within is_digit_or_dot X
  ∧ patch ≠ [] ∧ within is_digit patch
  ∧ stops is_digit_or_dot rest
  ∧ ∃ n, int patch = Some n
         ∧ bump (pre ++ label ++ X ++ "."%char :: patch ++ rest)
           = inr (X ++ "."%char :: patch,
                  X ++ "."%char :: str (n + 1),
                  pre ++ label ++ (X ++ "."%char :: str (n + 1))
                    ++ sub versionTextPattern
                         (label ++ X ++ "."%char :: str (n + 1)) rest).
Proof.
  intros pre X patch rest.
  assert ("V"%char ∉ pre) as H1.
  { intros H. unfold pre in H. cbn in H.
    repeat (apply elem_of_cons in H as [H|H]; [discriminate|]).
    by apply elem_of_nil in H. }
  assert (X ≠ []) as H2 by discriminate.
  assert (within is_digit_or_dot X) as H3 by by repeat constructor.
  assert (patch ≠ []) as H4 by discriminate.
  assert (within is_digit patch) as H5 by by repeat constructor.
  assert (stops is_digit_or_dot rest) as H6 by by intros c [= <-].
  split; [exact H1|]. split; [exact H2|]. split; [exact H3|].
  split; [exact H4|]. split; [exact H5|]. split; [exact H6|].
  exact (bump_of_version_line pre X patch rest H1 H2 H3 H4 H5 H6).
Defined.

(** X17. A refresh that returns with a non-empty package list leaves the
    compressed index in the directory of the archives and no
    uncompressed one, and changes no other path of the filesystem. *)
Theorem refresh_leaves_compressed_index
  (cfg : config) (w w' : state) :
  packageList w ≠ [] →
  refreshAptRepository cfg w = (Ok (), w') →
  let index := getPackageInfoUncompressedFilename cfg in
  lookup_path index w' = None
  ∧ (∃ content t, lookup_path (index +:+ ".gz") w' = Some (File content t))
  ∧ ∀ k, k ≠ path_of index → k ≠ path_of (index +:+ ".gz") →
         fs w' !! k = fs w !! k.
Proof.
  intros Hl H index. unfold refreshAptRepository in H.
  apply bind_inv in H as [(l & w0 & [= <- <-] & H)|(e & [=] & _)].
  destruct (packageList w) as [|x l] eqn:El; [done|]. cbn [length Nat.eqb] in H.
  apply bind_inv in H as [([] & w1 & [= <-] & H)|(e & _ & [=])].
  apply bind_inv in H as [(info & w2 & H2 & H)|(e & _ & [=])].
  apply bind_inv in H as [([] & w3 & H3 & H)|(e & _ & [=])].
  apply bind_inv in H as [(out & w4 & H4 & [= <-])|(e & _ & [=])].
  apply runCommand_inv in H2 as (_ & _ & _ & [(_ & [=] & _)|(_ & _ & Hf2)]).
  apply writeFile_inv in H3 as (_ & _ & _ & _ & Hf3).
  apply runCommand_inv in H4 as (_ & _ & _ & [(_ & [=] & _)|(_ & _ & Hf4)]).
  cbn [exec snd record fs] in Hf2, Hf4. fold index in Hf3, Hf4.
  assert (fs w3 !! path_of index = Some (File info (clock w2))) as Hi.
  { by rewrite Hf3, lookup_insert_file, path_eqb_refl. }
  unfold gzip in Hf4. rewrite Hi in Hf4.
  pose proof (index_gz_ne cfg) as Hne. fold index in Hne.
  unfold lookup_path. rewrite Hf4. split_and!.
  - rewrite lookup_insert_file, path_eqb_ne by done.
    by rewrite delete_file_lookup, path_eqb_refl.
  - rewrite lookup_insert_file, path_eqb_refl. by eexists _, _.
  - intros k Hk Hkz.
    rewrite lookup_insert_file, path_eqb_ne by done.
    rewrite delete_file_lookup, path_eqb_ne by done.
    rewrite Hf3, lookup_insert_file, path_eqb_ne by done.
    by rewrite Hf2.
Qed.

Lemma refresh_leaves_compressed_index_witness :
  let w := push_package "beta" (Examples.boot Examples.healthy) in
  let w' := Examples.after_refresh in
  let index := getPackageInfoUncompressedFilename Examples.cfg in
  packageList w ≠ []
  ∧ refreshAptRepository Examples.cfg w = (Ok (), w')
  ∧ lookup_path index w' = None
  ∧ (∃ content t, lookup_path (index +:+ ".gz") w' = Some (File content t))
  ∧ ∀ k, k ≠ path_of index → k ≠ path_of (index +:+ ".gz") →
         fs w' !! k = fs w !! k.
Proof.
  intros w w' index.
  assert (packageList w ≠ []) as H1 by discriminate.
  assert (refreshAptRepository Examples.cfg w = (Ok (), w')) as H2 by run.
  split; [exact H1|]. split; [exact H2|].
  exact (refresh_leaves_compressed_index Examples.cfg w w' H1 H2).
Defined.
